(** * KindleNotion: planner, readiness detector, dedup merge and batch committer

    A shallow embedding of the reconciliation core of the Kindle-to-Notion
    extension: the content script (extractAllBooksAuto, waitForTitleUpdate),
    the Notion client (lib/notion-api.js) and the background sync
    (background.js, syncBooksToNotion). *)

From Stdlib Require Import ZArith NArith Lia Ascii String.
From stdpp Require Import base numbers option list gmap fin_maps pretty.
From Equations Require Import Equations.

Open Scope Z_scope.

(** ** JavaScript strings

    A JavaScript string is a sequence of UTF-16 code units; [substring],
    [includes], [replace] and [split] with the regular expressions of the
    source (none has the [u] flag) all work on code units. *)

Module JsString.

Abbreviation jsstring := (list N).

(** A Rocq string literal read as code units (ASCII only). *)
Definition js (s : string) : jsstring :=
  N_of_ascii <$> list_ascii_of_string s.

(** [s.length]. *)
Definition jslength (s : jsstring) : nat := length s.

(** [s.substring(a, b)] for non-negative indices: the arguments are swapped
    when [a > b] and clamped to the length. *)
Definition substring (a b : nat) (s : jsstring) : jsstring :=
  let lo := Nat.min a b in
  let hi := Nat.max a b in
  take (hi - lo) (drop lo s).

(** [s.startsWith(t)]. *)
Fixpoint startsWith (s t : jsstring) {struct t} : bool :=
  match t, s with
  | [], _ => true
  | _ :: _, [] => false
  | c :: t', d :: s' => if N.eqb c d then startsWith s' t' else false
  end.

(** [s.includes(t)]: [t] occurs in [s] as a contiguous run. *)
Fixpoint includes (s t : jsstring) : bool :=
  if startsWith s t then true
  else match s with
       | [] => false
       | _ :: s' => includes s' t
       end.

(** The class [\s] of a JavaScript regular expression, which is also what
    [trim] removes (WhiteSpace and LineTerminator). *)
Definition is_space (c : N) : bool :=
  ((9 <=? c) && (c <=? 13) || (c =? 32) || (c =? 160) || (c =? 5760)
   || (8192 <=? c) && (c <=? 8202) || (c =? 8232) || (c =? 8233)
   || (c =? 8239) || (c =? 8287) || (c =? 12288) || (c =? 65279))%N.

Fixpoint trimStart (s : jsstring) : jsstring :=
  match s with
  | [] => []
  | c :: s' => if is_space c then trimStart s' else s
  end.

Definition trimEnd (s : jsstring) : jsstring := rev (trimStart (rev s)).

(** [s.trim()]. *)
Definition trim (s : jsstring) : jsstring := trimEnd (trimStart s).

(** [s.replace(/[cls]/g, '')]: every code unit of the class is removed. *)
Definition remove_class (cls : N → bool) (s : jsstring) : jsstring :=
  List.filter (λ c, negb (cls c)) s.

(** [s.replace(/[^cls]/g, r)]: every code unit outside the class becomes
    the single code unit [r]. *)
Definition replace_outside (cls : N → bool) (r : N) (s : jsstring) : jsstring :=
  (λ c, if cls c then c else r) <$> s.

(** [s.split(/[cls]/)]: the pieces between the code units of the class; a
    string without separator gives one piece, the string itself. *)
Fixpoint split_class (cls : N → bool) (s : jsstring) : list jsstring :=
  match s with
  | [] => [[]]
  | c :: s' =>
      if cls c then [] :: split_class cls s'
      else match split_class cls s' with
           | [] => [[c]]
           | p :: ps => (c :: p) :: ps
           end
  end.

(** A JavaScript string is truthy when it is not empty. *)
Definition truthy (s : jsstring) : bool :=
  match s with [] => false | _ => true end.

End JsString.
Import JsString.

(** ** JavaScript objects used as maps

    The count mappings of the program are plain objects.  A read
    [obj[key]] that finds no own property goes on to [Object.prototype],
    and an assignment to the key [__proto__] of an object that has no own
    property of that name calls the inherited setter, which ignores a
    number. *)

Module JsObject.

(** The names every object inherits from [Object.prototype]. *)
Definition inheritedNames : list jsstring :=
  [js "constructor"; js "__defineGetter__"; js "__defineSetter__";
   js "hasOwnProperty"; js "__lookupGetter__"; js "__lookupSetter__";
   js "isPrototypeOf"; js "propertyIsEnumerable"; js "toString"; js "valueOf";
   js "__proto__"; js "toLocaleString"].

Definition inherited (key : jsstring) : bool :=
  bool_decide (key ∈ inheritedNames).

Definition proto : jsstring := js "__proto__".

(** What [obj[key]] gives on an object whose own properties hold numbers:
    the own number, an inherited member (a function, or the prototype
    itself for [__proto__]), or [undefined]. *)
Inductive Value :=
  | Number (n : Z)
  | Member
  | Undefined.

Definition get (obj : gmap jsstring Z) (key : jsstring) : Value :=
  match obj !! key with
  | Some n => Number n
  | None => if inherited key then Member else Undefined
  end.

(** [v !== undefined]. *)
Definition defined (v : Value) : bool :=
  match v with
  | Undefined => false
  | _ => true
  end.

(** [v || 0]: [undefined] and 0 give 0, an inherited member is truthy. *)
Definition orZero (v : Value) : Value :=
  match v with
  | Undefined => Number 0
  | _ => v
  end.

(** [current > v]: an inherited member converts to [NaN], and no number is
    greater than [NaN]. *)
Definition gt (current : Z) (v : Value) : bool :=
  match v with
  | Number n => n <? current
  | _ => false
  end.

(** [current !== v]. *)
Definition differs (current : Z) (v : Value) : bool :=
  match v with
  | Number n => negb (current =? n)
  | _ => true
  end.

(** [obj[key] = n]. *)
Definition set (key : jsstring) (n : Z) (obj : gmap jsstring Z) : gmap jsstring Z :=
  if bool_decide (key = proto) && bool_decide (obj !! key = None) then obj
  else <[key := n]> obj.

End JsObject.

(** ** The content script (extractAllBooksAuto and its helpers) *)

Module Content.

(** *** Fingerprint normaliser: the closures of [waitForTitleUpdate] *)

(** The character class of [normalizeTitle]: white space, the ideographic
    space, hyphens and dashes, colons, the middle dot, ideographic and ASCII
    punctuation, and round, lenticular and square brackets. *)
Definition normalize_class (c : N) : bool :=
  (is_space c || (c =? 0x3000) || (c =? 0x2d)
   || (0x2010 <=? c) && (c <=? 0x2015)
   || (c =? 0x3a) || (c =? 0xff1a) || (c =? 0x30fb) || (c =? 0x3001)
   || (c =? 0x3002) || (c =? 0xff01) || (c =? 0xff1f) || (c =? 0x21)
   || (c =? 0x3f) || (c =? 0x2c) || (c =? 0x2e) || (c =? 0x28)
   || (c =? 0x29) || (c =? 0xff08) || (c =? 0xff09) || (c =? 0x3010)
   || (c =? 0x3011) || (c =? 0x5b) || (c =? 0x5d))%N.

Definition normalizeTitle (title : jsstring) : jsstring :=
  substring 0 30 (remove_class normalize_class title).

(** The separators of [splitTitle]. *)
Definition split_title_class (c : N) : bool :=
  ((c =? 0x3000) || (c =? 0x3a) || (c =? 0xff1a) || (c =? 0x30fb)
   || (0x2010 <=? c) && (c <=? 0x2015) || (c =? 0x2d) || (c =? 0x2013)
   || (c =? 0x2014) || (c =? 0x301c) || (c =? 0x7c))%N.

Definition splitTitle (title : jsstring) : list jsstring :=
  List.filter truthy (trim <$> split_class split_title_class title).

(** [Set.prototype.add] on a set kept in insertion order. *)
Definition set_add (v : jsstring) (s : list jsstring) : list jsstring :=
  if bool_decide (v ∈ s) then s else s ++ [v].

Definition expectedVariants (expectedTitle : jsstring) : list jsstring :=
  let expectedNorm := normalizeTitle expectedTitle in
  let vs := set_add expectedNorm [] in
  let vs := fold_left (λ acc part, set_add (normalizeTitle part) acc)
                      (splitTitle expectedTitle) vs in
  let vs := if (10 <? jslength expectedNorm)%nat
            then set_add (substring 0 10 expectedNorm) vs else vs in
  if (15 <? jslength expectedNorm)%nat
  then set_add (substring 0 15 expectedNorm) vs else vs.

(** One turn of the loop of [matchesExpected]: an empty variant is passed
    over ([continue]). *)
Definition variantMatches (norm variant : jsstring) : bool :=
  truthy variant && (includes norm variant || includes variant norm).

Definition matchesExpected (expectedTitle currentTitle : jsstring) : bool :=
  if negb (truthy currentTitle) then false
  else
    let norm := normalizeTitle currentTitle in
    existsb (variantMatches norm) (expectedVariants expectedTitle).

(** What the detector reads from the page at one instant: the title found
    by [readRightPanelTitle] (empty when none), the value of
    [readHighlightSignature] (empty when no highlight is shown) and the
    answer of [isBookSelected] for the clicked container. *)
Record Snapshot := {
  panelTitle : jsstring;
  highlightSignature : jsstring;
  bookSelected : bool
}.

Definition isReady (expectedTitle initialSignature : jsstring) (p : Snapshot) : bool :=
  if matchesExpected expectedTitle (panelTitle p) then true
  else if truthy (highlightSignature p)
          && negb (bool_decide (highlightSignature p = initialSignature))
          && bookSelected p
       then true
       else false.

(** [waitForTitleUpdate]: [now] is the page when the function is called and
    [later] the pages seen by the mutation observer and the 200 ms interval,
    in order, before the timer fires.  The first ready page resolves the
    promise with [true]; the timer resolves it with [false]. *)
Definition waitForTitleUpdate (expectedTitle : jsstring)
    (now : Snapshot) (later : list Snapshot) : bool :=
  if negb (truthy expectedTitle) then true
  else
    let initialSignature := highlightSignature now in
    if isReady expectedTitle initialSignature now then true
    else existsb (isReady expectedTitle initialSignature) later.

(** *** Candidate set planner: the first pass of [extractAllBooksAuto] *)

(** The class kept by the cache key: ASCII letters and digits, hiragana,
    katakana and the CJK unified ideographs. *)
Definition key_class (c : N) : bool :=
  ((0x61 <=? c) && (c <=? 0x7a) || (0x41 <=? c) && (c <=? 0x5a)
   || (0x30 <=? c) && (c <=? 0x39)
   || (0x3040 <=? c) && (c <=? 0x309f) || (0x30a0 <=? c) && (c <=? 0x30ff)
   || (0x4e00 <=? c) && (c <=? 0x9fff))%N.

Definition underscore : N := 0x5f%N.

Definition makeBookKey (title : jsstring) : jsstring :=
  replace_outside key_class underscore (substring 0 50 title).

(** [getTestBookLimit]: the limit is read once from the synchronised settings
    and then kept in [cachedTestBookLimit]; [testMode] is [None] when the
    read throws.  The result is the limit and the new cached value. *)
Definition getTestBookLimit (cachedTestBookLimit : option nat)
    (testMode : option bool) : nat * option nat :=
  match cachedTestBookLimit with
  | Some l => (l, Some l)
  | None =>
      let l := match testMode with
               | Some true => 5%nat
               | Some false => 0%nat
               | None => 0%nat
               end in
      (l, Some l)
  end.

(** One element of [.kp-notebook-library-each-book], as far as the planner
    reads it: the text of its [h2], when there is one, and the digits
    captured by the highlight-count pattern, when the container text
    contains a count. *)
Record Container := {
  h2Text : option jsstring;
  highlightMatch : option N
}.

Definition containerTitle (i : nat) (c : Container) : jsstring :=
  match h2Text c with
  | Some t => trim t
  | None => js "book_" ++ js (pretty i)
  end.

(** [highlightMatch ? parseInt(highlightMatch[1], 10) : -1]. *)
Definition currentHighlightCount (c : Container) : Z :=
  match highlightMatch c with
  | Some n => Z.of_N n
  | None => -1
  end.

Record BookEntry := {
  index : nat;
  container : Container;
  title : jsstring;
  highlightCount : Z;
  bookKey : jsstring
}.

Record PlanState := {
  booksToProcess : list BookEntry;
  newCounts : gmap jsstring Z;
  skippedBooks : nat
}.

Definition initialPlan : PlanState :=
  {| booksToProcess := []; newCounts := ∅; skippedBooks := 0 |}.

Section FirstPass.

Variable notionCounts : gmap jsstring Z.
(** The persisted local cache, as [chrome.storage.local.get] returns it. *)
Variable localCache : option (gmap jsstring Z).
Variable testBookLimit : nat.

Definition useNotionCounts : bool := bool_decide (0 < size notionCounts)%nat.

Definition savedCounts : gmap jsstring Z :=
  if useNotionCounts then notionCounts else default ∅ localCache.

Definition isFirstSync : bool := bool_decide (size savedCounts = 0%nat).

Definition testModeActive : bool := (0 <? testBookLimit)%nat.

(** The decision of one turn of the loop: the new value of
    [shouldProcess] and whether [skippedBooks] is incremented. *)
Definition decide_book (queueLength : nat) (existsInNotion : bool)
    (current : Z) (savedCount : JsObject.Value) : bool * bool :=
  if testModeActive then ((queueLength <? testBookLimit)%nat, false)
  else if isFirstSync then (true, false)
  else if existsInNotion then
    if (0 <? current) && JsObject.gt current savedCount then (true, false)
    else (false, true)
  else (true, false).

(** The same decision in the copy of the function in content.js, which
    has the constant [TEST_BOOK_LIMIT = 0] and no test-mode branch. *)
Definition decide_book_content_js (existsInNotion : bool)
    (current : Z) (savedCount : JsObject.Value) : bool * bool :=
  if isFirstSync then (true, false)
  else if existsInNotion then
    if (0 <? current) && JsObject.gt current savedCount then (true, false)
    else (false, true)
  else (true, false).

Definition planStep (st : PlanState) (i : nat) (c : Container) : PlanState :=
  let title := containerTitle i c in
  let current := currentHighlightCount c in
  let bookKey := makeBookKey title in
  let counts := if 0 <? current then JsObject.set bookKey current (newCounts st)
                else newCounts st in
  let existsInNotion :=
    useNotionCounts && JsObject.defined (JsObject.get notionCounts title) in
  let savedCount :=
    if useNotionCounts then JsObject.orZero (JsObject.get notionCounts title)
    else JsObject.orZero (JsObject.get savedCounts bookKey) in
  let '(shouldProcess, skip) :=
    decide_book (length (booksToProcess st)) existsInNotion current savedCount in
  {| booksToProcess :=
       if shouldProcess
       then booksToProcess st ++
            [{| index := i; container := c; title := title;
                highlightCount := current; bookKey := bookKey |}]
       else booksToProcess st;
     newCounts := counts;
     skippedBooks := if skip then S (skippedBooks st) else skippedBooks st |}.

(** The entry pushed for the book at index [i]. *)
Definition bookEntry (i : nat) (c : Container) : BookEntry :=
  {| index := i; container := c; title := containerTitle i c;
     highlightCount := currentHighlightCount c;
     bookKey := makeBookKey (containerTitle i c) |}.

(** The value of [shouldProcess] at the turn of the book at index [i], when
    the loop has reached the state [st]. *)
Definition shouldProcess (st : PlanState) (i : nat) (c : Container) : bool :=
  let title := containerTitle i c in
  (decide_book (length (booksToProcess st))
     (useNotionCounts && JsObject.defined (JsObject.get notionCounts title))
     (currentHighlightCount c)
     (if useNotionCounts then JsObject.orZero (JsObject.get notionCounts title)
      else JsObject.orZero (JsObject.get savedCounts (makeBookKey title)))).1.

(** [for (let i = 0; i < bookContainers.length; i++)], from index [i]. *)
Fixpoint planLoop (i : nat) (cs : list Container) (st : PlanState) : PlanState :=
  match cs with
  | [] => st
  | c :: cs' => planLoop (S i) cs' (planStep st i c)
  end.

(** The first pass with what follows it: the queue is cut to the test
    limit and, in test mode, the skip counter is recomputed. *)
Definition firstPass (bookContainers : list Container) : PlanState :=
  let st := planLoop 0 bookContainers initialPlan in
  let books :=
    if (0 <? testBookLimit)%nat && (testBookLimit <? length (booksToProcess st))%nat
    then take testBookLimit (booksToProcess st)
    else booksToProcess st in
  {| booksToProcess := books;
     newCounts := newCounts st;
     skippedBooks :=
       if testModeActive
       then Nat.max (length bookContainers - length books) 0
       else skippedBooks st |}.

(** What [chrome.storage.local] holds under [bookHighlightCounts] when
    [extractAllBooksAuto] returns.  With no container the function returns
    from the single-book branch before it saves; [setOk] is whether
    [chrome.storage.local.set] succeeds (its failure is caught). *)
Definition extractAllBooksAuto_stored (bookContainers : list Container)
    (setOk : bool) : option (gmap jsstring Z) :=
  match bookContainers with
  | [] => localCache
  | _ :: _ =>
      let st := firstPass bookContainers in
      let mergedCounts := newCounts st ∪ savedCounts in
      if setOk then Some mergedCounts else localCache
  end.

End FirstPass.

(** Whether the book at position [i] of the library is in the queue. *)
Definition queued (books : list BookEntry) (i : nat) : bool :=
  existsb (λ e, (index e =? i)%nat) books.

(** The same first pass in [extractAllBooksAutoWithProgress]: it compares
    with the local cache only. *)
Section FirstPassWithProgress.

Variable localCache : option (gmap jsstring Z).
Variable testBookLimit : nat.

Definition savedCountsP : gmap jsstring Z := default ∅ localCache.
Definition isFirstSyncP : bool := bool_decide (size savedCountsP = 0%nat).

Definition planStepP (st : PlanState) (i : nat) (c : Container) : PlanState :=
  let title := containerTitle i c in
  let current := currentHighlightCount c in
  let bookKey := makeBookKey title in
  let counts := if 0 <? current then JsObject.set bookKey current (newCounts st)
                else newCounts st in
  let savedCount := JsObject.orZero (JsObject.get savedCountsP bookKey) in
  let entry := {| index := i; container := c; title := title;
                  highlightCount := current; bookKey := bookKey |} in
  let push :=
    if (0 <? testBookLimit)%nat
    then (length (booksToProcess st) <? testBookLimit)%nat
    else isFirstSyncP || JsObject.differs current savedCount || (current =? -1) in
  {| booksToProcess := if push then booksToProcess st ++ [entry]
                       else booksToProcess st;
     newCounts := counts;
     skippedBooks := skippedBooks st |}.

Fixpoint planLoopP (i : nat) (cs : list Container) (st : PlanState) : PlanState :=
  match cs with
  | [] => st
  | c :: cs' => planLoopP (S i) cs' (planStepP st i c)
  end.

Definition extractAllBooksAutoWithProgress_stored
    (bookContainers : list Container) (setOk : bool) : option (gmap jsstring Z) :=
  match bookContainers with
  | [] => localCache
  | _ :: _ =>
      let st := planLoopP 0 bookContainers initialPlan in
      let mergedCounts := newCounts st ∪ savedCountsP in
      if setOk then Some mergedCounts else localCache
  end.

End FirstPassWithProgress.

End Content.

(** ** Effects: a state and exception monad

    Every [await] of the source is a sequential step; a rejected promise is
    an exception at the [await].  [M S A] is a computation on a state [S]
    that returns an [A] or throws. *)

Module Eff.

(** What the source throws and catches. *)
Inductive Exn :=
  | Error (message : jsstring)   (* [new Error(message)] *)
  | TypeError                    (* a property read on [undefined] *)
  | FetchRejected                (* [fetch] rejects: no network *)
  | JsonRejected.                (* [response.json()] rejects *)

Definition M (S A : Type) : Type := S → S * (Exn + A).

Definition ret {S A} (a : A) : M S A := λ s, (s, inr a).

Definition throw {S A} (e : Exn) : M S A := λ s, (s, inl e).

Definition bind {S A B} (m : M S A) (k : A → M S B) : M S B :=
  λ s, match m s with
       | (s', inl e) => (s', inl e)
       | (s', inr a) => k a s'
       end.

(** [try { m } catch (e) { h e }]: the state reached when [m] threw is
    kept. *)
Definition try_catch {S A} (m : M S A) (h : Exn → M S A) : M S A :=
  λ s, match m s with
       | (s', inl e) => h e s'
       | (s', inr a) => (s', inr a)
       end.

Definition modify {S} (f : S → S) : M S unit := λ s, (f s, inr tt).

Definition gets {S A} (f : S → A) : M S A := λ s, (s, inr (f s)).

End Eff.
Import Eff.

Declare Scope js_scope.
Delimit Scope js_scope with js.
Notation "'let*' x := m 'in' k" := (bind m (λ x, k))
  (at level 10, x name, m at level 100, k at level 200) : js_scope.
Notation "m ;;; k" := (bind m (λ _, k))
  (at level 100, k at level 200, right associativity) : js_scope.

(** ** The Notion client (lib/notion-api.js) *)

Module Notion.

Inductive Method := GET | POST | PATCH.

Record Highlight := {
  text : jsstring;
  location : jsstring
}.

(** One element of a [rich_text] array: the content and whether it carries
    the italic gray annotation of a location line. *)
Record RichText := {
  content : jsstring;
  italicGray : bool
}.

(** A quote block of default colour. *)
Record Block := {
  rich_text : list RichText
}.

Inductive PropertyValue :=
  | PNumber (number : Z)
  | PDate (start : jsstring).

Inductive Endpoint :=
  | EpDatabase (databaseId : jsstring)       (* /databases/ID *)
  | EpDatabaseQuery (databaseId : jsstring)  (* /databases/ID/query *)
  | EpPage (pageId : jsstring)               (* /pages/ID *)
  | EpBlockChildren (pageId : jsstring).     (* /blocks/ID/children *)

Inductive Body :=
  | BodyNone
  | BodyTitleFilter (property equals : jsstring)
  | BodyProperties (properties : list (jsstring * PropertyValue))
  | BodyChildren (children : list Block).

Record Request := {
  endpoint : Endpoint;
  method : Method;
  body : Body
}.

Record PropConfig := {
  prop_type : jsstring
}.

Record PageObj := {
  id : jsstring
}.

(** The JSON bodies the client reads. *)
Inductive Json :=
  | JDatabase (properties : list (jsstring * PropConfig))
  | JList (results : list PageObj)
  | JPage (page : PageObj)
  | JMessage (message : jsstring)
  | JOther.

(** A settled [fetch]: [response.ok], [response.status] and the parsed
    body, [None] when the body is not JSON. *)
Record Response := {
  ok : bool;
  status : nat;
  data : option Json
}.

Inductive ApiEvent :=
  | Fetched (r : Request)
  | Delayed (ms : Z).

(** [database.properties], and every later read on it, throws when the
    answer is not a database object. *)
Definition properties_of (database : Json) : Exn + list (jsstring * PropConfig) :=
  match database with
  | JDatabase ps => inr ps
  | _ => inl TypeError
  end.

(** [response.results]. *)
Definition results_of (response : Json) : Exn + list PageObj :=
  match response with
  | JList rs => inr rs
  | _ => inl TypeError
  end.

(** [data.message]. *)
Definition message_of (data : Json) : jsstring :=
  match data with
  | JMessage m => m
  | _ => []
  end.

(** The name of the first property of type [title], [Name] when there is
    none. *)
Fixpoint titlePropertyName (dbProperties : list (jsstring * PropConfig)) : jsstring :=
  match dbProperties with
  | [] => js "Name"
  | (propName, propConfig) :: rest =>
      if bool_decide (prop_type propConfig = js "title") then propName
      else titlePropertyName rest
  end.

(** [dbProperties[name]] is truthy: the schema has the property. *)
Definition hasProperty (name : jsstring) (dbProperties : list (jsstring * PropConfig)) : bool :=
  existsb (λ p, bool_decide (p.1 = name)) dbProperties.

Definition locationPrefix : jsstring :=
  [0xd83d; 0xdccd; 0x20; 0x4f4d; 0x7f6e; 0x4e; 0x6f; 0x2e; 0x20]%N.

(** The block built for one highlight by [addHighlightBlocks]. *)
Definition highlightBlock (highlight : Highlight) : Block :=
  let locationText :=
    if truthy (location highlight) then locationPrefix ++ location highlight
    else [] in
  let richText := [{| content := text highlight; italicGray := false |}] in
  let richText :=
    if truthy locationText
    then richText ++ [{| content := 10%N :: locationText; italicGray := true |}]
    else richText in
  {| rich_text := richText |}.

Definition batchSize : nat := 100.

(** The [bookData] argument of [updateBookPage]; the field is [None] when
    it is [undefined]. *)
Record BookUpdate := {
  highlightCount : option Z
}.

(** [array.slice(a, b)] for indices that are not negative. *)
Definition slice {A} (a b : nat) (l : list A) : list A :=
  take (b - a) (drop a l).

Section Client.

(** The remote service: its state, how it answers a request and the
    clock read by [new Date()]. *)
Variable World : Type.
Variable fetch : World → Request → World * option Response.
Variable clock : World → jsstring.

Record ApiSt := {
  world : World;
  calls : list ApiEvent
}.

Definition delay (ms : Z) : M ApiSt unit :=
  modify (λ s, {| world := world s; calls := calls s ++ [Delayed ms] |}).

Definition request (r : Request) : M ApiSt Json :=
  λ s,
    let '(w, answer) := fetch (world s) r in
    let s' := {| world := w; calls := calls s ++ [Fetched r] |} in
    match answer with
    | None => (s', inl FetchRejected)
    | Some response =>
        match data response with
        | None => (s', inl JsonRejected)
        | Some d =>
            if ok response then (s', inr d)
            else if truthy (message_of d) then (s', inl (Error (message_of d)))
            else (s', inl (Error (js "Notion API error: " ++ js (pretty (status response)))))
        end
    end.

Definition getDatabase (databaseId : jsstring) : M ApiSt Json :=
  request {| endpoint := EpDatabase databaseId; method := GET; body := BodyNone |}.

Definition lift_result {A} (r : Exn + A) : M ApiSt A :=
  match r with
  | inl e => throw e
  | inr a => ret a
  end.

Definition findBookByTitle (databaseId title : jsstring) : M ApiSt (option PageObj) :=
  (let* database := getDatabase databaseId in
   let* dbProperties := lift_result (properties_of database) in
   let name := titlePropertyName dbProperties in
   if truthy title then
     try_catch
       (let* response := request {| endpoint := EpDatabaseQuery databaseId;
                                    method := POST;
                                    body := BodyTitleFilter name title |} in
        let* results := lift_result (results_of response) in
        match results with
        | first :: _ => ret (Some first)
        | [] => ret None
        end)
       (λ _, ret None)
   else ret None)%js.

Definition updateProperties (dbProperties : list (jsstring * PropConfig))
    (bookData : BookUpdate) (now : jsstring) : list (jsstring * PropertyValue) :=
  let properties :=
    match highlightCount bookData with
    | Some n =>
        if hasProperty (js "Highlight Count") dbProperties
        then [(js "Highlight Count", PNumber n)] else []
    | None => []
    end in
  if hasProperty (js "Last Synced") dbProperties
  then properties ++ [(js "Last Synced", PDate now)]
  else properties.

Definition updateBookPage (pageId : jsstring) (bookData : BookUpdate)
    (databaseId : jsstring) : M ApiSt Json :=
  (let* database := getDatabase databaseId in
   let* dbProperties := lift_result (properties_of database) in
   let* now := gets (λ s, clock (world s)) in
   let properties := updateProperties dbProperties bookData now in
   if bool_decide (length properties = 0%nat) then ret (JPage {| id := pageId |})
   else request {| endpoint := EpPage pageId; method := PATCH;
                   body := BodyProperties properties |})%js.

(** [for (let i = 0; i < children.length; i += batchSize)], from [i]. *)
Equations? batchLoop (pageId : jsstring) (children : list Block) (i : nat)
    : M ApiSt unit by wf (length children - i)%nat lt :=
  batchLoop pageId children i with decide (i < length children)%nat := {
    | right _ => ret tt
    | left _ =>
        (request {| endpoint := EpBlockChildren pageId; method := PATCH;
                    body := BodyChildren (slice i (i + batchSize) children) |} ;;;
         (if decide (i + batchSize < length children)%nat
          then delay 350 else ret tt) ;;;
         batchLoop pageId children (i + batchSize))%js }.
Proof. unfold batchSize. lia. Qed.

Definition addHighlightBlocks (pageId : jsstring) (highlights : list Highlight)
    : M ApiSt unit :=
  let children := highlightBlock <$> highlights in
  batchLoop pageId children 0.

End Client.

Arguments world {World} _.
Arguments calls {World} _.
Arguments delay {World} _ _.
Arguments request {World} _ _ _.
Arguments getDatabase {World} _ _ _.
Arguments findBookByTitle {World} _ _ _ _.
Arguments updateBookPage {World} _ _ _ _ _ _.
Arguments batchLoop {World} _ _ _ _ _.
Arguments addHighlightBlocks {World} _ _ _ _.

End Notion.

(** ** The background worker (background.js, syncBooksToNotion) *)

Module Background.

Import Notion.

Record Book := {
  title : jsstring;
  author : jsstring;
  amazonUrl : jsstring;
  coverUrl : jsstring;
  highlights : list Highlight
}.

(** [chrome.storage.sync.get(['notionToken', 'databaseId'])]; a field is
    [None] when it was never stored. *)
Record Settings := {
  notionToken : option jsstring;
  databaseId : option jsstring
}.

Definition truthy_setting (v : option jsstring) : bool :=
  match v with
  | Some s => truthy s
  | None => false
  end.

Inductive LogLevel := info | success | error.

(** The messages of [broadcastLog], by what they are built from. *)
Inductive LogMessage :=
  | MsgBook (current total : nat) (title35 : jsstring)
  | MsgAdded (count : nat)
  | MsgNoChange
  | MsgNewBook (count : nat)
  | MsgFailed (title30 : jsstring) (cause : Exn).

Inductive SyncEvent :=
  | Progress (current total : nat) (bookTitle : option jsstring) (highlightsCount : nat)
  | Log (level : LogLevel) (message : LogMessage)
  | Delay (ms : Z).

(** The object [syncBooksToNotion] returns. *)
Module Result.
Record t := {
  success : bool;
  newBooks : nat;
  updatedBooks : nat;
  newHighlights : nat;
  totalProcessed : nat
}.
End Result.

(** The message of the error thrown when the settings are incomplete. *)
Definition notConfigured : jsstring :=
  [0x4e; 0x6f; 0x74; 0x69; 0x6f; 0x6e; 0x8a2d; 0x5b9a; 0x304c; 0x5b8c;
   0x4e86; 0x3057; 0x3066; 0x3044; 0x307e; 0x305b; 0x3093]%N.

(** The dedup filter: a highlight is kept when no existing text includes
    the first 50 code units of its text. *)
Definition newHighlightsList (bookHighlights : list Highlight)
    (existingHighlights : list jsstring) : list Highlight :=
  List.filter
    (λ h, negb (existsb (λ existing, includes existing (substring 0 50 (text h)))
                        existingHighlights))
    bookHighlights.

Section Sync.

(** The state the client works on (the remote service). *)
Variable T : Type.

(** The object returned by [createNotionClient], as far as the sync uses
    it. *)
Record Client := {
  findBookByTitle : jsstring → jsstring → M T (option PageObj);
  createBookPage : jsstring → Book → M T PageObj;
  updateBookPage : jsstring → BookUpdate → jsstring → M T Json;
  getExistingHighlights : jsstring → M T (list jsstring);
  addHighlightBlocks : jsstring → list Highlight → M T unit
}.

Variable createNotionClient : jsstring → Client.

(** The state of one call: the remote service, what was broadcast so far
    and the three counters. *)
Record SyncSt := {
  remote : T;
  events : list SyncEvent;
  newBooks : nat;
  newHighlights : nat;
  updatedBooks : nat
}.

(** A call of the client. *)
Definition call {A} (m : M T A) : M SyncSt A :=
  λ s, let '(t, r) := m (remote s) in
       ({| remote := t; events := events s; newBooks := newBooks s;
           newHighlights := newHighlights s; updatedBooks := updatedBooks s |}, r).

Definition emit (ev : SyncEvent) : M SyncSt unit :=
  modify (λ s, {| remote := remote s; events := events s ++ [ev];
                  newBooks := newBooks s; newHighlights := newHighlights s;
                  updatedBooks := updatedBooks s |}).

Definition broadcastProgress (current total : nat) (bookTitle : option jsstring)
    (highlightsCount : nat) : M SyncSt unit :=
  emit (Progress current total bookTitle highlightsCount).

Definition broadcastLog (level : LogLevel) (message : LogMessage) : M SyncSt unit :=
  emit (Log level message).

Definition delay (ms : Z) : M SyncSt unit := emit (Delay ms).

Definition incr_newBooks : M SyncSt unit :=
  modify (λ s, {| remote := remote s; events := events s;
                  newBooks := S (newBooks s); newHighlights := newHighlights s;
                  updatedBooks := updatedBooks s |}).

Definition add_newHighlights (n : nat) : M SyncSt unit :=
  modify (λ s, {| remote := remote s; events := events s;
                  newBooks := newBooks s; newHighlights := newHighlights s + n;
                  updatedBooks := updatedBooks s |}).

Definition incr_updatedBooks : M SyncSt unit :=
  modify (λ s, {| remote := remote s; events := events s;
                  newBooks := newBooks s; newHighlights := newHighlights s;
                  updatedBooks := S (updatedBooks s) |}).

(** The branch taken when the book has a page. *)
Definition syncExisting (client : Client) (db : jsstring) (book : Book)
    (page : PageObj) : M SyncSt unit :=
  (let* existingHighlights := call (getExistingHighlights client (id page)) in
   let list := newHighlightsList (highlights book) existingHighlights in
   if (0 <? length list)%nat then
     call (addHighlightBlocks client (id page) list) ;;;
     add_newHighlights (length list) ;;;
     call (updateBookPage client (id page)
             {| highlightCount :=
                  Some (Z.of_nat (length existingHighlights + length list)) |} db) ;;;
     incr_updatedBooks ;;;
     broadcastLog success (MsgAdded (length list))
   else broadcastLog info MsgNoChange)%js.

(** The branch taken when no page was found. *)
Definition syncNew (client : Client) (db : jsstring) (book : Book) : M SyncSt unit :=
  (let* page := call (createBookPage client db book) in
   incr_newBooks ;;;
   (if (0 <? length (highlights book))%nat then
      call (addHighlightBlocks client (id page) (highlights book)) ;;;
      add_newHighlights (length (highlights book))
    else ret tt) ;;;
   broadcastLog success (MsgNewBook (length (highlights book))))%js.

(** What follows the search of the page inside the [try]. *)
Definition afterSearch (client : Client) (db : jsstring) (i total : nat)
    (book : Book) (page : option PageObj) : M SyncSt unit :=
  (match page with
   | Some page => syncExisting client db book page
   | None => syncNew client db book
   end ;;;
   let* n := gets newHighlights in
   broadcastProgress (i + 1) total None n ;;;
   delay 350)%js.

(** The body of the [try] for the book at index [i]. *)
Definition tryBook (client : Client) (db : jsstring) (i total : nat)
    (book : Book) : M SyncSt unit :=
  (let* n := gets newHighlights in
   broadcastProgress (i + 1) total (Some (title book)) n ;;;
   broadcastLog info (MsgBook (i + 1) total (substring 0 35 (title book))) ;;;
   let* page := (if truthy (title book)
                 then call (findBookByTitle client db (title book))
                 else ret None) in
   afterSearch client db i total book page)%js.

(** One turn of the loop: the [try] and its [catch]. *)
Definition syncBook (client : Client) (db : jsstring) (i total : nat)
    (book : Book) : M SyncSt unit :=
  try_catch (tryBook client db i total book)
    (λ cause, broadcastLog error (MsgFailed (substring 0 30 (title book)) cause)).

(** [for (let i = 0; i < books.length; i++)], from index [i]. *)
Fixpoint syncLoop (client : Client) (db : jsstring) (total i : nat)
    (books : list Book) : M SyncSt unit :=
  match books with
  | [] => ret tt
  | book :: rest =>
      (syncBook client db i total book ;;; syncLoop client db total (S i) rest)%js
  end.

Definition start (t : T) : SyncSt :=
  {| remote := t; events := []; newBooks := 0; newHighlights := 0;
     updatedBooks := 0 |}.

Definition syncBooksToNotion (settings : Settings) (books : list Book)
    (t : T) : SyncSt * (Exn + Result.t) :=
  match notionToken settings, databaseId settings with
  | Some token, Some db =>
      if truthy token && truthy db then
        (syncLoop (createNotionClient token) db (length books) 0 books ;;;
         let* s := gets (λ s, s) in
         ret {| Result.success := true;
                Result.newBooks := newBooks s;
                Result.updatedBooks := updatedBooks s;
                Result.newHighlights := newHighlights s;
                Result.totalProcessed := length books |})%js (start t)
      else (start t, inl (Error notConfigured))
  | _, _ => (start t, inl (Error notConfigured))
  end.

End Sync.

Arguments findBookByTitle {T} _ _ _ _.
Arguments createBookPage {T} _ _ _ _.
Arguments updateBookPage {T} _ _ _ _ _.
Arguments getExistingHighlights {T} _ _ _.
Arguments addHighlightBlocks {T} _ _ _ _.
Arguments remote {T} _.
Arguments events {T} _.
Arguments newBooks {T} _.
Arguments newHighlights {T} _.
Arguments updatedBooks {T} _.
Arguments call {T A} _ _.
Arguments emit {T} _ _.
Arguments broadcastProgress {T} _ _ _ _ _.
Arguments broadcastLog {T} _ _ _.
Arguments delay {T} _ _.
Arguments syncExisting {T} _ _ _ _ _.
Arguments syncNew {T} _ _ _ _.
Arguments afterSearch {T} _ _ _ _ _ _ _.
Arguments tryBook {T} _ _ _ _ _ _.
Arguments syncBook {T} _ _ _ _ _ _.
Arguments syncLoop {T} _ _ _ _ _ _.
Arguments start {T} _.
Arguments syncBooksToNotion {T} _ _ _ _.

(** The indices announced by the per-book log lines, in order. *)
Definition announced (evs : list SyncEvent) : list nat :=
  omap (λ ev, match ev with
              | Log info (MsgBook current _ _) => Some current
              | _ => None
              end) evs.

(** The failures logged, in order. *)
Definition failures (evs : list SyncEvent) : list (jsstring * Exn) :=
  omap (λ ev, match ev with
              | Log error (MsgFailed t c) => Some (t, c)
              | _ => None
              end) evs.

End Background.

(** ** Vocabulary of the properties, and the inputs of the examples *)

(** [t] is a substring of [s]. *)
Definition occurs_in (t s : jsstring) : Prop :=
  ∃ before after, s = before ++ t ++ after.

(** A highlight is novel when no existing text contains the first 50 code
    units of its text. *)
Definition novel (existingHighlights : list jsstring) (h : Notion.Highlight) : Prop :=
  ∀ existing, existing ∈ existingHighlights
              → ¬ occurs_in (take 50 (Notion.text h)) existing.

(** The append request for one batch of blocks. *)
Definition appendChildren (pageId : jsstring) (batch : list Notion.Block) : Notion.Request :=
  {| Notion.endpoint := Notion.EpBlockChildren pageId;
     Notion.method := Notion.PATCH;
     Notion.body := Notion.BodyChildren batch |}.

(** What committing the batches one after the other leaves in the trace:
    one append per batch and a delay of 350 ms between two appends. *)
Fixpoint committed (pageId : jsstring) (batches : list (list Notion.Block))
    : list Notion.ApiEvent :=
  match batches with
  | [] => []
  | batch :: rest =>
      Notion.Fetched (appendChildren pageId batch)
      :: match rest with
         | [] => []
         | _ :: _ => Notion.Delayed 350 :: committed pageId rest
         end
  end.

Definition operations (evs : list Notion.ApiEvent) : nat :=
  length (List.filter (λ ev, match ev with Notion.Fetched _ => true | _ => false end) evs).

Definition delays (evs : list Notion.ApiEvent) : nat :=
  length (List.filter (λ ev, match ev with Notion.Delayed _ => true | _ => false end) evs).

(** The schema read of [databaseId]. *)
Definition readSchema (databaseId : jsstring) : Notion.Request :=
  {| Notion.endpoint := Notion.EpDatabase databaseId;
     Notion.method := Notion.GET;
     Notion.body := Notion.BodyNone |}.

(** The title query of [findBookByTitle]. *)
Definition titleQuery (databaseId property title : jsstring) : Notion.Request :=
  {| Notion.endpoint := Notion.EpDatabaseQuery databaseId;
     Notion.method := Notion.POST;
     Notion.body := Notion.BodyTitleFilter property title |}.

(** An event that is neither the announcement of a book nor the log of a
    failure. *)
Definition ordinary (ev : Background.SyncEvent) : Prop :=
  match ev with
  | Background.Log Background.info (Background.MsgBook _ _ _) => False
  | Background.Log Background.error (Background.MsgFailed _ _) => False
  | _ => True
  end.

(** The computation only appends events, all of them ordinary. *)
Definition appends_ordinary {T A} (m : M (Background.SyncSt T) A) : Prop :=
  ∀ s s' r, m s = (s', r) →
    ∃ new, Background.events s' = Background.events s ++ new ∧ Forall ordinary new.

Module Scenario.
Import Content.

(** A page whose detail panel shows [shown], with no highlight loaded and
    the clicked book not marked as selected. *)
Definition showing (shown : jsstring) : Snapshot :=
  {| panelTitle := shown; highlightSignature := []; bookSelected := false |}.

Definition atomicHabits : jsstring := js "Atomic Habits: An Easy Way...".

(** A title whose second segment is punctuation only. *)
Definition atomicHabitsCut : jsstring := js "Atomic Habits: ...".

(** A library of one book, "Dune 2", whose summary shows [shown]
    highlights ([None] when the summary shows no count). *)
Definition dune2 (shown : option N) : list Container :=
  [{| h2Text := Some (js "Dune 2"); highlightMatch := shown |}].

(** Remote counts in which "Dune 2" has [n] highlights. *)
Definition remoteDune2 (n : Z) : gmap jsstring Z := {[ js "Dune 2" := n ]}.

(** A local cache left by an earlier run over another book. *)
Definition oldCache : gmap jsstring Z := {[ js "Old_Book" := 7 ]}.

(** A service that accepts every request. *)
Definition accepting (w : unit) (r : Notion.Request) : unit * option Notion.Response :=
  (w, Some {| Notion.ok := true; Notion.status := 200; Notion.data := Some Notion.JOther |}).

Definition someHighlight : Notion.Highlight :=
  {| Notion.text := js "So it goes."; Notion.location := js "1024" |}.

(** A service whose database has a title property [Name] and nothing else,
    and where every query of the database is rejected by the network. *)
Definition queryDown (w : unit) (r : Notion.Request) : unit * option Notion.Response :=
  match Notion.endpoint r with
  | Notion.EpDatabase _ =>
      (w, Some {| Notion.ok := true; Notion.status := 200;
                  Notion.data := Some (Notion.JDatabase
                                         [(js "Name", {| Notion.prop_type := js "title" |})]) |})
  | Notion.EpDatabaseQuery _ => (w, None)
  | _ =>
      (w, Some {| Notion.ok := true; Notion.status := 200;
                  Notion.data := Some Notion.JOther |})
  end.

Definition noClock (w : unit) : jsstring := js "2024-01-01T00:00:00.000Z".

Definition freshApi : Notion.ApiSt unit := {| Notion.world := tt; Notion.calls := [] |}.

(** A client all of whose operations fail for lack of network. *)
Definition offline : Background.Client unit :=
  {| Background.findBookByTitle := λ _ _, throw FetchRejected;
     Background.createBookPage := λ _ _, throw FetchRejected;
     Background.updateBookPage := λ _ _ _, throw FetchRejected;
     Background.getExistingHighlights := λ _, throw FetchRejected;
     Background.addHighlightBlocks := λ _ _, throw FetchRejected |}.

Definition book (t : string) : Background.Book :=
  {| Background.title := js t; Background.author := []; Background.amazonUrl := [];
     Background.coverUrl := []; Background.highlights := [someHighlight] |}.

Definition configured : Background.Settings :=
  {| Background.notionToken := Some (js "secret");
     Background.databaseId := Some (js "db") |}.

End Scenario.

(** ** The paginated reads of the Notion client (lib/notion-api.js)

    [getExistingHighlights] and [getAllBooksWithHighlightCount] go through
    the same [request] as the rest of the client; the answers they read are
    listings, modelled here with their own JSON type.  Both loops run as long
    as the service says there is more, so they are given a bound on the
    number of requests: the result is [None] when the bound is reached before
    the loop ends. *)

Module NotionRead.

Record RichTextItem := {
  plain_text : jsstring
}.

Inductive PropertyObj :=
  | TitleProperty (title : list RichTextItem)
  | NumberProperty (number : option Z)   (* [None] is [null] *)
  | OtherProperty.

(** One element of [results]: a block of a page or a row of the database.
    A block has no [properties]; a row has no block [type]. *)
Inductive Item :=
  | QuoteBlock (rich_text : list RichTextItem)
  | CalloutBlock (rich_text : list RichTextItem)
  | OtherBlock
  | Row (properties : list (jsstring * PropertyObj)).

(** The [start_cursor] of a query body: left out when [undefined], written
    as [null] when [null]. *)
Inductive CursorArg :=
  | NoCursor
  | NullCursor
  | CursorAt (cursor : jsstring).

Inductive ReadRequest :=
  (* GET /blocks/ID/children, with ?start_cursor=C when there is a cursor *)
  | ListChildren (pageId : jsstring) (start_cursor : option jsstring)
  (* POST /databases/ID/query with start_cursor and page_size *)
  | QueryRows (databaseId : jsstring) (start_cursor : CursorArg) (page_size : nat).

Record Listing := {
  results : list Item;
  has_more : bool;
  next_cursor : option jsstring   (* [None] is [null] *)
}.

Inductive ReadJson :=
  | ListingJson (l : Listing)
  | MessageJson (message : jsstring)
  | OtherJson.

Record ReadResponse := {
  ok : bool;
  status : nat;
  data : option ReadJson
}.

Inductive ReadEvent :=
  | Asked (r : ReadRequest)
  | Waited (ms : Z).

(** [response.results], [response.has_more] and [response.next_cursor] are
    read together; iterating over [results] throws when the answer is not a
    listing. *)
Definition listing_of (response : ReadJson) : Exn + Listing :=
  match response with
  | ListingJson l => inr l
  | _ => inl TypeError
  end.

Definition message_of (data : ReadJson) : jsstring :=
  match data with
  | MessageJson m => m
  | _ => []
  end.

(** [rich_text.map(t => t.plain_text).join('')]. *)
Definition joined (rich_text : list RichTextItem) : jsstring :=
  mjoin (plain_text <$> rich_text).

(** What one block adds to [highlights]: the text of a quote or of a
    callout, nothing for anything else. *)
Definition blockText (block : Item) : option jsstring :=
  match block with
  | QuoteBlock rich_text => Some (joined rich_text)
  | CalloutBlock rich_text => Some (joined rich_text)
  | _ => None
  end.

(** The title of a row: the plain text of the first element of the first
    property of type [title] whose array is not empty; empty when there is
    none. *)
Fixpoint rowTitle (properties : list (jsstring * PropertyObj)) : jsstring :=
  match properties with
  | [] => []
  | (_, TitleProperty (first :: _)) :: _ => plain_text first
  | _ :: rest => rowTitle rest
  end.

(** [properties[name]]. *)
Fixpoint property (name : jsstring) (properties : list (jsstring * PropertyObj))
    : option PropertyObj :=
  match properties with
  | [] => None
  | (key, value) :: rest =>
      if bool_decide (key = name) then Some value else property name rest
  end.

(** The name of the count property in Japanese. *)
Definition highlightCountJa : jsstring :=
  [0x30cf; 0x30a4; 0x30e9; 0x30a4; 0x30c8; 0x6570]%N.

(** The highlight count of a row: the number of [Highlight Count], or else
    of the Japanese name; 0 when the property is missing, is not a number,
    or holds [null] or 0. *)
Definition rowCount (properties : list (jsstring * PropertyObj)) : Z :=
  let countProp :=
    match property (js "Highlight Count") properties with
    | Some p => Some p
    | None => property highlightCountJa properties
    end in
  match countProp with
  | Some (NumberProperty (Some n)) => n
  | _ => 0
  end.

(** One turn of the loop over the rows: [books[title] = highlightCount]
    when the title is not empty.  Reading the properties of an element that
    is not a row throws. *)
Definition addRow (books : gmap jsstring Z) (page : Item) : Exn + gmap jsstring Z :=
  match page with
  | Row properties =>
      let title := rowTitle properties in
      let highlightCount := rowCount properties in
      if truthy title then inr (JsObject.set title highlightCount books)
      else inr books
  | _ => inl TypeError
  end.

Fixpoint addRows (books : gmap jsstring Z) (pages : list Item) : Exn + gmap jsstring Z :=
  match pages with
  | [] => inr books
  | page :: rest =>
      match addRow books page with
      | inl e => inl e
      | inr books' => addRows books' rest
      end
  end.

(** An element of a listing that is a row of a database. *)
Definition isRow (page : Item) : Prop :=
  match page with
  | Row _ => True
  | _ => False
  end.

(** The elements of a sequence of listings, in order. *)
Definition listed (pages : list Listing) : list Item :=
  mjoin (results <$> pages).

(** The cursor a [do ... while (cursor)] goes on with: the next cursor when
    there is more and the cursor is a string that is not empty. *)
Definition continuation (l : Listing) : option jsstring :=
  if has_more l then
    match next_cursor l with
    | Some c => if truthy c then Some c else None
    | None => None
    end
  else None.

Section Reads.

Variable World : Type.
Variable fetch : World → ReadRequest → World * option ReadResponse.

Record St := {
  world : World;
  calls : list ReadEvent
}.

Definition delay (ms : Z) : M St unit :=
  modify (λ s, {| world := world s; calls := calls s ++ [Waited ms] |}).

Definition request (r : ReadRequest) : M St ReadJson :=
  λ s,
    let '(w, answer) := fetch (world s) r in
    let s' := {| world := w; calls := calls s ++ [Asked r] |} in
    match answer with
    | None => (s', inl FetchRejected)
    | Some response =>
        match data response with
        | None => (s', inl JsonRejected)
        | Some d =>
            if ok response then (s', inr d)
            else if truthy (message_of d) then (s', inl (Error (message_of d)))
            else (s', inl (Error (js "Notion API error: " ++ js (pretty (status response)))))
        end
    end.

Definition lift_result {A} (r : Exn + A) : M St A :=
  match r with
  | inl e => throw e
  | inr a => ret a
  end.

(** The [do ... while (cursor)] of [getExistingHighlights], at most [bound]
    turns. *)
Fixpoint existingLoop (bound : nat) (pageId : jsstring) (cursor : option jsstring)
    (highlights : list jsstring) : M St (option (list jsstring)) :=
  match bound with
  | O => ret None
  | S bound' =>
      (let* response := request (ListChildren pageId cursor) in
       let* listing := lift_result (listing_of response) in
       let highlights := highlights ++ omap blockText (results listing) in
       match continuation listing with
       | Some next => existingLoop bound' pageId (Some next) highlights
       | None => ret (Some highlights)
       end)%js
  end.

Definition getExistingHighlights (bound : nat) (pageId : jsstring)
    : M St (option (list jsstring)) :=
  existingLoop bound pageId None [].

(** The [while (hasMore)] of [getAllBooksWithHighlightCount], at most
    [bound] turns. *)
Fixpoint booksLoop (bound : nat) (databaseId : jsstring) (startCursor : CursorArg)
    (books : gmap jsstring Z) : M St (option (gmap jsstring Z)) :=
  match bound with
  | O => ret None
  | S bound' =>
      (let* response := request (QueryRows databaseId startCursor 100) in
       let* listing := lift_result (listing_of response) in
       let* books := lift_result (addRows books (results listing)) in
       let startCursor := match next_cursor listing with
                          | Some c => CursorAt c
                          | None => NullCursor
                          end in
       if has_more listing
       then delay 350 ;;; booksLoop bound' databaseId startCursor books
       else ret (Some books))%js
  end.

Definition getAllBooksWithHighlightCount (bound : nat) (databaseId : jsstring)
    : M St (option (gmap jsstring Z)) :=
  booksLoop bound databaseId NoCursor ∅.

(** The service answers the listing of the children of [pageId], from
    [cursor] on, with the listings [pages], one per request, the last one
    being the first that does not go on. *)
Fixpoint servesChildren (pageId : jsstring) (w : World) (cursor : option jsstring)
    (pages : list Listing) : Prop :=
  match pages with
  | [] => False
  | page :: rest =>
      ∃ w' response,
        fetch w (ListChildren pageId cursor) = (w', Some response)
        ∧ ok response = true ∧ data response = Some (ListingJson page)
        ∧ match rest with
          | [] => continuation page = None
          | _ :: _ => ∃ next, continuation page = Some next
                              ∧ servesChildren pageId w' (Some next) rest
          end
  end.

(** The same for the rows of [databaseId]: the listings go on while
    [has_more] is set, each request carrying the cursor of the answer
    before. *)
Fixpoint servesRows (databaseId : jsstring) (w : World) (cursor : CursorArg)
    (pages : list Listing) : Prop :=
  match pages with
  | [] => False
  | page :: rest =>
      ∃ w' response,
        fetch w (QueryRows databaseId cursor 100) = (w', Some response)
        ∧ ok response = true ∧ data response = Some (ListingJson page)
        ∧ match rest with
          | [] => has_more page = false
          | _ :: _ =>
              has_more page = true
              ∧ servesRows databaseId w'
                  (match next_cursor page with
                   | Some c => CursorAt c
                   | None => NullCursor
                   end) rest
          end
  end.

End Reads.

Arguments world {World} _.
Arguments calls {World} _.
Arguments request {World} _ _ _.
Arguments existingLoop {World} _ _ _ _ _ _.
Arguments getExistingHighlights {World} _ _ _ _.
Arguments booksLoop {World} _ _ _ _ _ _.
Arguments getAllBooksWithHighlightCount {World} _ _ _ _.
Arguments servesChildren {World} _ _ _ _ _.
Arguments servesRows {World} _ _ _ _ _.

(** The requests of [getExistingHighlights] for the listings [pages]: the
    first without cursor, each other with the cursor of the listing before. *)
Fixpoint childrenRequests (pageId : jsstring) (cursor : option jsstring)
    (pages : list Listing) : list ReadEvent :=
  match pages with
  | [] => []
  | page :: rest =>
      Asked (ListChildren pageId cursor)
      :: childrenRequests pageId (continuation page) rest
  end.

(** The requests of [getAllBooksWithHighlightCount] for the listings
    [pages], with the delay that follows each listing that has more. *)
Fixpoint rowRequests (databaseId : jsstring) (cursor : CursorArg)
    (pages : list Listing) : list ReadEvent :=
  match pages with
  | [] => []
  | page :: rest =>
      Asked (QueryRows databaseId cursor 100)
      :: (if has_more page then [Waited 350] else [])
      ++ rowRequests databaseId
           (match next_cursor page with
            | Some c => CursorAt c
            | None => NullCursor
            end) rest
  end.

End NotionRead.

(** ** The second pass of [extractAllBooksAuto] *)

Module Extraction.

Import Content.

Inductive LogType := info | success | warning | error.

(** The messages of [sendLog] in the second pass, by what they are built
    from. *)
Inductive PassMessage :=
  | MsgPlan (toProcess skipped : nat)
  | MsgBook (processed total : nat) (title35 : jsstring)
  | MsgSelected (title30 : jsstring)
  | MsgNotUpdated (title30 : jsstring)
  | MsgHighlights (count : nat)
  | MsgNoHighlights
  | MsgError (title30 : jsstring).

(** What the pass does that can be seen from outside: the messages to the
    sync window, the clicks on the containers of the library (by their
    index) and the delays. *)
Inductive PassEvent :=
  | SendProgress (current total : nat) (bookTitle : option jsstring) (highlightsCount : nat)
  | SendLog (type : LogType) (message : PassMessage)
  | Click (i : nat)
  | Delay (ms : Z).

(** [bookData.highlights = highlights]. *)
Definition withHighlights (bookData : Background.Book)
    (highlights : list Notion.Highlight) : Background.Book :=
  {| Background.title := Background.title bookData;
     Background.author := Background.author bookData;
     Background.amazonUrl := Background.amazonUrl bookData;
     Background.coverUrl := Background.coverUrl bookData;
     Background.highlights := highlights |}.

(** The indices of the containers clicked, in order. *)
Definition clicks (evs : list PassEvent) : list nat :=
  omap (λ ev, match ev with Click i => Some i | _ => None end) evs.

Section Pass.

(** The page is what the functions that read the document depend on; it
    changes with the clicks and with time. *)
Variable Page : Type.
Variable clicked : Page → BookEntry → Page.
Variable elapsed : Page → Z → Page.
(** What [waitForTitleUpdate] sees until it resolves: the page at the call
    and the pages at the mutations and the ticks before the timer. *)
Variable watched : Page → BookEntry → Page * (Snapshot * list Snapshot).
Variable isBookSelected : Page → BookEntry → bool.
Variable extractHighlightsFromPage : Page → Exn + list Notion.Highlight.
(** [extractCurrentBook] catches what it throws and returns [null]. *)
Variable extractCurrentBook : Page → option Background.Book.
Variable extractBookInfoFromContainer : Page → BookEntry → Exn + Background.Book.

Variable testBookLimit : nat.

Record PassSt := {
  page : Page;
  events : list PassEvent;
  processedBooks : nat;
  totalExtractedHighlights : nat;
  allBooks : list Background.Book
}.

Definition emit (ev : PassEvent) : M PassSt unit :=
  modify (λ s, {| page := page s; events := events s ++ [ev];
                  processedBooks := processedBooks s;
                  totalExtractedHighlights := totalExtractedHighlights s;
                  allBooks := allBooks s |}).

Definition sendProgress (current total : nat) (bookTitle : option jsstring)
    (highlightsCount : nat) : M PassSt unit :=
  emit (SendProgress current total bookTitle highlightsCount).

Definition sendLog (type : LogType) (message : PassMessage) : M PassSt unit :=
  emit (SendLog type message).

Definition setPage (p : Page) (s : PassSt) : PassSt :=
  {| page := p; events := events s; processedBooks := processedBooks s;
     totalExtractedHighlights := totalExtractedHighlights s;
     allBooks := allBooks s |}.

Definition delay (ms : Z) : M PassSt unit :=
  (modify (λ s, setPage (elapsed (page s) ms) s) ;;; emit (Delay ms))%js.

Definition clickBookContainer (book : BookEntry) : M PassSt unit :=
  (modify (λ s, setPage (clicked (page s) book) s) ;;; emit (Click (index book)))%js.

(** [await waitForTitleUpdate(book.title, book.container)]: with an empty
    title it returns at once, without a look at the page. *)
Definition awaitTitleUpdate (book : BookEntry) : M PassSt bool :=
  if truthy (title book) then
    λ s, let '(p, (now, later)) := watched (page s) book in
         (setPage p s, inr (waitForTitleUpdate (title book) now later))
  else ret true.

Definition readHighlights : M PassSt (list Notion.Highlight) :=
  λ s, (s, extractHighlightsFromPage (page s)).

Definition readBookData (book : BookEntry) : M PassSt Background.Book :=
  λ s, match extractCurrentBook (page s) with
       | Some bookData => (s, inr bookData)
       | None => (s, extractBookInfoFromContainer (page s) book)
       end.

Definition incrProcessed : M PassSt unit :=
  modify (λ s, {| page := page s; events := events s;
                  processedBooks := S (processedBooks s);
                  totalExtractedHighlights := totalExtractedHighlights s;
                  allBooks := allBooks s |}).

Definition addExtracted (n : nat) : M PassSt unit :=
  modify (λ s, {| page := page s; events := events s;
                  processedBooks := processedBooks s;
                  totalExtractedHighlights := (totalExtractedHighlights s + n)%nat;
                  allBooks := allBooks s |}).

Definition pushBook (bookData : Background.Book) : M PassSt unit :=
  modify (λ s, {| page := page s; events := events s;
                  processedBooks := processedBooks s;
                  totalExtractedHighlights := totalExtractedHighlights s;
                  allBooks := allBooks s ++ [bookData] |}).

(** What follows the waiting, once the book is taken as shown. *)
Definition extractShown (total : nat) (book : BookEntry) : M PassSt unit :=
  (delay 500 ;;;
   let* first := readHighlights in
   let* highlights :=
     match first with
     | [] => delay 400 ;;; readHighlights
     | _ :: _ => ret first
     end in
   (if (0 <? length highlights)%nat || (0 <? testBookLimit)%nat then
      let* bookData := readBookData book in
      addExtracted (length highlights) ;;;
      sendLog success (MsgHighlights (length highlights)) ;;;
      let* processed := gets processedBooks in
      let* extracted := gets totalExtractedHighlights in
      sendProgress processed total None extracted ;;;
      pushBook (withHighlights bookData highlights)
    else sendLog warning MsgNoHighlights) ;;;
   delay 150)%js.

(** The body of the [try] of one turn of the second loop; [total] is
    [booksToProcess.length]. *)
Definition processBook (total : nat) (book : BookEntry) : M PassSt unit :=
  (incrProcessed ;;;
   let* processed := gets processedBooks in
   let* extracted := gets totalExtractedHighlights in
   sendProgress processed total (Some (title book)) extracted ;;;
   sendLog info (MsgBook processed total (substring 0 35 (title book))) ;;;
   clickBookContainer book ;;;
   let* first := awaitTitleUpdate book in
   let* titleUpdated :=
     if first then ret true
     else clickBookContainer book ;;; awaitTitleUpdate book in
   if titleUpdated then extractShown total book
   else
     let* selected := gets (λ s, isBookSelected (page s) book) in
     if selected
     then sendLog warning (MsgSelected (substring 0 30 (title book))) ;;;
          extractShown total book
     else sendLog warning (MsgNotUpdated (substring 0 30 (title book))))%js.

Definition visitBook (total : nat) (book : BookEntry) : M PassSt unit :=
  try_catch (processBook total book)
            (λ _, sendLog error (MsgError (substring 0 30 (title book)))).

Fixpoint visitBooks (total : nat) (books : list BookEntry) : M PassSt unit :=
  match books with
  | [] => ret tt
  | book :: rest => (visitBook total book ;;; visitBooks total rest)%js
  end.

Definition secondPass (plan : PlanState) : M PassSt unit :=
  (sendLog info (MsgPlan (length (booksToProcess plan)) (skippedBooks plan)) ;;;
   visitBooks (length (booksToProcess plan)) (booksToProcess plan))%js.

(** [extractAllBooksAuto], as far as the books it returns go: with no
    container the book of the single view, when there is one; otherwise the
    books of the second pass over the queue of the first. *)
Definition extractAllBooksAuto (notionCounts : gmap jsstring Z)
    (localCache : option (gmap jsstring Z)) (bookContainers : list Container)
    : M PassSt (list Background.Book) :=
  match bookContainers with
  | [] =>
      (let* singleBook := gets (λ s, extractCurrentBook (page s)) in
       match singleBook with
       | Some b => pushBook b
       | None => ret tt
       end ;;;
       gets allBooks)%js
  | _ :: _ =>
      (secondPass (firstPass notionCounts localCache testBookLimit bookContainers) ;;;
       gets allBooks)%js
  end.

(** The state in which the function starts on the page [p]. *)
Definition start (p : Page) : PassSt :=
  {| page := p; events := []; processedBooks := 0; totalExtractedHighlights := 0;
     allBooks := [] |}.

End Pass.

Arguments page {Page} _.
Arguments events {Page} _.
Arguments processedBooks {Page} _.
Arguments totalExtractedHighlights {Page} _.
Arguments allBooks {Page} _.
Arguments start {Page} _.

(** The number of highlights of a list of books. *)
Definition highlightsOf (books : list Background.Book) : nat :=
  sum_list (length ∘ Background.highlights <$> books).

(** The clicks of a pass that clicks the k-th book of [books] as many
    times as the k-th number of [times] says, one book after the other. *)
Definition visits (books : list Content.BookEntry) (times : list nat) : list nat :=
  mjoin (zip_with (λ book n, replicate n (Content.index book)) books times).

End Extraction.

(** ** The properties of a new page (createBookPage) *)

Module NotionCreate.

Import Notion.

(** The values [createBookPage] gives to the properties of the page. *)
Inductive CreateValue :=
  | VTitle (content : jsstring)
  | VRichText (content : jsstring)
  | VNumber (number : nat)
  | VDate (start : jsstring)
  | VUrl (url : jsstring)
  | VFiles (name url : jsstring).

(** The names under which each property is looked for, in order. *)
Definition authorNames : list jsstring :=
  [js "Author"; [0x8457; 0x8005]%N; [0x8457; 0x8005; 0x540d]%N; js "author";
   [0x4f5c; 0x8005]%N; js "Writer"; js "writer"].

Definition countNames : list jsstring :=
  [js "Highlight Count"; [0x30cf; 0x30a4; 0x30e9; 0x30a4; 0x30c8; 0x6570]%N;
   js "highlight_count"].

Definition lastSyncedNames : list jsstring :=
  [js "Last Synced"; [0x6700; 0x7d42; 0x540c; 0x671f; 0x65e5; 0x6642]%N;
   [0x6700; 0x7d42; 0x540c; 0x671f; 0x65e5]%N; [0x540c; 0x671f; 0x65e5; 0x6642]%N;
   [0x540c; 0x671f; 0x65e5]%N; js "last_synced"; js "LastSynced"].

Definition amazonNames : list jsstring :=
  [js "Amazon URL"; js "Amazon"; js "URL"; js "amazon_url"].

Definition coverNames : list jsstring :=
  [[0x8868; 0x7d19]%N; js "Cover"; js "cover"; [0x30ab; 0x30d0; 0x30fc]%N].

(** [dbProperties[name]]. *)
Fixpoint config (name : jsstring) (dbProperties : list (jsstring * PropConfig))
    : option PropConfig :=
  match dbProperties with
  | [] => None
  | (key, value) :: rest =>
      if bool_decide (key = name) then Some value else config name rest
  end.

(** [findProperty(names)]: the first of the names the schema has, with its
    configuration. *)
Fixpoint findProperty (dbProperties : list (jsstring * PropConfig))
    (names : list jsstring) : option (jsstring * PropConfig) :=
  match names with
  | [] => None
  | name :: rest =>
      match config name dbProperties with
      | Some c => Some (name, c)
      | None => findProperty dbProperties rest
      end
  end.

(** The [properties] of the page [createBookPage] posts; [now] is
    [new Date().toISOString()]. *)
Definition createProperties (dbProperties : list (jsstring * PropConfig))
    (bookData : Background.Book) (now : jsstring) : gmap jsstring CreateValue :=
  let properties : gmap jsstring CreateValue :=
    {[ titlePropertyName dbProperties := VTitle (Background.title bookData) ]} in
  let properties :=
    match findProperty dbProperties authorNames with
    | Some (name, _) =>
        if truthy (Background.author bookData)
        then <[name := VRichText (Background.author bookData)]> properties
        else properties
    | None => properties
    end in
  let properties :=
    match findProperty dbProperties countNames with
    | Some (name, _) =>
        <[name := VNumber (length (Background.highlights bookData))]> properties
    | None => properties
    end in
  let properties :=
    match findProperty dbProperties lastSyncedNames with
    | Some (name, _) => <[name := VDate now]> properties
    | None => properties
    end in
  let properties :=
    match findProperty dbProperties amazonNames with
    | Some (name, _) =>
        if truthy (Background.amazonUrl bookData)
        then <[name := VUrl (Background.amazonUrl bookData)]> properties
        else properties
    | None => properties
    end in
  match findProperty dbProperties coverNames with
  | Some (name, c) =>
      if truthy (Background.coverUrl bookData) then
        if bool_decide (prop_type c = js "files") then
          let short := substring 0 50 (Background.title bookData) in
          <[name := VFiles (if truthy short then short else js "cover")
                           (Background.coverUrl bookData)]> properties
        else if bool_decide (prop_type c = js "url") then
          <[name := VUrl (Background.coverUrl bookData)]> properties
        else properties
      else properties
  | None => properties
  end.

(** Every name [createBookPage] looks for, the title apart. *)
Definition candidateNames : list jsstring :=
  authorNames ++ countNames ++ lastSyncedNames ++ amazonNames ++ coverNames.

(** Whether a value written by [updateBookPage] is a number. *)
Definition isNumber (v : PropertyValue) : bool :=
  match v with
  | PNumber _ => true
  | PDate _ => false
  end.

End NotionCreate.

(** ** The log of the sync window *)

Module SyncWindow.

(** One [li] of [logList]. *)
Record LogItem := {
  className : jsstring;
  textContent : jsstring
}.

(** [while (logList.children.length > 50) logList.removeChild(logList.lastChild)],
    the children of the list being its items. *)
Equations? trimLogs (logList : list LogItem) : list LogItem
    by wf (length logList) lt :=
  trimLogs logList with decide (50 < length logList)%nat := {
    | left _ => trimLogs (removelast logList)
    | right _ => logList }.
Proof.
  destruct logList as [|li rest] using rev_ind; [simpl in *; lia|].
  rewrite removelast_last, length_app. simpl. lia.
Qed.

(** [addLog(type, message)]; [time] is what [toLocaleTimeString] gives. *)
Definition addLog (type message time : jsstring) (logList : list LogItem)
    : list LogItem :=
  let li := {| className := type;
               textContent := time ++ js " - " ++ message |} in
  trimLogs (li :: logList).

(** One call of [addLog]: its type, its message and the time it is made
    at. *)
Record LogCall := {
  callType : jsstring;
  callMessage : jsstring;
  callTime : jsstring
}.

Definition itemOf (c : LogCall) : LogItem :=
  {| className := callType c;
     textContent := callTime c ++ js " - " ++ callMessage c |}.

(** The list after the calls [cs], in order. *)
Definition addLogs (cs : list LogCall) (logList : list LogItem) : list LogItem :=
  foldl (λ l c, addLog (callType c) (callMessage c) (callTime c) l) logList cs.

End SyncWindow.

(** ** Further vocabulary *)

(** The computation raises the measure [mu] of the state by at most [k] and
    never lowers it. *)
Definition raises_by {T A} (mu : Background.SyncSt T → nat) (k : nat)
    (m : M (Background.SyncSt T) A) : Prop :=
  ∀ s s' r, m s = (s', r) → (mu s ≤ mu s' ≤ mu s + k)%nat.

(** The measure reads the three counters only. *)
Definition counters_only {T} (mu : Background.SyncSt T → nat) : Prop :=
  ∀ s s', Background.newBooks s = Background.newBooks s' →
          Background.updatedBooks s = Background.updatedBooks s' →
          Background.newHighlights s = Background.newHighlights s' →
          mu s = mu s'.

(** Books created plus books updated. *)
Definition written {T} (s : Background.SyncSt T) : nat :=
  (Background.newBooks s + Background.updatedBooks s)%nat.

(** The highlights of a list of books, counted. *)
Definition highlightTotal (books : list Background.Book) : nat :=
  sum_list_with (λ b, length (Background.highlights b)) books.

(** The state after [delay(ms)]. *)
Definition delayed {World} (ms : Z) (s : Notion.ApiSt World) : Notion.ApiSt World :=
  {| Notion.world := Notion.world s;
     Notion.calls := Notion.calls s ++ [Notion.Delayed ms] |}.

(** [sent fetch pageId s batches s' r]: from the state [s] the batches are
    appended one after the other, with a delay of 350 ms between two of
    them.  Every append but the last is answered; the last is answered and
    the outcome [r] is normal, or it throws and [r] is what it threw.
    Nothing is sent after an append that throws. *)
Inductive sent {World} (fetch : World → Notion.Request → World * option Notion.Response)
    (pageId : jsstring)
    : Notion.ApiSt World → list (list Notion.Block) → Notion.ApiSt World
      → Exn + unit → Prop :=
  | sent_none s : sent fetch pageId s [] s (inr tt)
  | sent_thrown s batch s1 e :
      Notion.request fetch (appendChildren pageId batch) s = (s1, inl e) →
      sent fetch pageId s [batch] s1 (inl e)
  | sent_last s batch s1 d :
      Notion.request fetch (appendChildren pageId batch) s = (s1, inr d) →
      sent fetch pageId s [batch] s1 (inr tt)
  | sent_more s batch s1 d next rest s' r :
      Notion.request fetch (appendChildren pageId batch) s = (s1, inr d) →
      sent fetch pageId (delayed 350 s1) (next :: rest) s' r →
      sent fetch pageId s (batch :: next :: rest) s' r.

(** ** Further inputs of the examples *)

Module Scenario2.
Import Scenario.

(** A service that no request reaches. *)
Definition unreachable (w : unit) (r : Notion.Request) : unit * option Notion.Response :=
  (w, None).

Definition fullSchema : list (jsstring * Notion.PropConfig) :=
  [(js "Title", {| Notion.prop_type := js "title" |});
   (js "Highlight Count", {| Notion.prop_type := js "number" |});
   (js "Last Synced", {| Notion.prop_type := js "date" |})].

(** A service whose database has the three properties the client writes and
    where a query finds the page [found]. *)
Definition serving (w : unit) (r : Notion.Request) : unit * option Notion.Response :=
  match Notion.endpoint r with
  | Notion.EpDatabase _ =>
      (w, Some {| Notion.ok := true; Notion.status := 200;
                  Notion.data := Some (Notion.JDatabase fullSchema) |})
  | Notion.EpDatabaseQuery _ =>
      (w, Some {| Notion.ok := true; Notion.status := 200;
                  Notion.data := Some (Notion.JList [{| Notion.id := js "found" |}]) |})
  | _ =>
      (w, Some {| Notion.ok := true; Notion.status := 200;
                  Notion.data := Some Notion.JOther |})
  end.

(** A client that finds no page, creates pages and accepts everything. *)
Definition compliant : Background.Client unit :=
  {| Background.findBookByTitle := λ _ _, ret None;
     Background.createBookPage := λ _ _, ret {| Notion.id := js "new" |};
     Background.updateBookPage := λ pageId _ _, ret (Notion.JPage {| Notion.id := pageId |});
     Background.getExistingHighlights := λ _, ret [js "So it goes."];
     Background.addHighlightBlocks := λ _ _, ret tt |}.

Definition untitled : Background.Book :=
  {| Background.title := []; Background.author := []; Background.amazonUrl := [];
     Background.coverUrl := []; Background.highlights := [someHighlight] |}.

(** A service that answers the k-th request with the k-th listing of a
    script, and rejects the requests after the last. *)
Definition scripted (script : list NotionRead.Listing) (w : nat)
    (r : NotionRead.ReadRequest) : nat * option NotionRead.ReadResponse :=
  (S w,
   match script !! w with
   | Some l => Some {| NotionRead.ok := true; NotionRead.status := 200;
                       NotionRead.data := Some (NotionRead.ListingJson l) |}
   | None => None
   end).

Definition quote (t : string) : NotionRead.Item :=
  NotionRead.QuoteBlock [{| NotionRead.plain_text := js t |}].

(** Two listings of blocks: the first has more, the second is the last. *)
Definition twoBlockPages : list NotionRead.Listing :=
  [{| NotionRead.results := [quote "So it goes."; NotionRead.OtherBlock];
      NotionRead.has_more := true; NotionRead.next_cursor := Some (js "c1") |};
   {| NotionRead.results := [NotionRead.CalloutBlock [{| NotionRead.plain_text := js "Poo-tee-weet?" |}]];
      NotionRead.has_more := false; NotionRead.next_cursor := None |}].

Definition row (t : string) (count : option Z) : NotionRead.Item :=
  NotionRead.Row
    ([(js "Name", NotionRead.TitleProperty [{| NotionRead.plain_text := js t |}])]
     ++ match count with
        | Some n => [(js "Highlight Count", NotionRead.NumberProperty (Some n))]
        | None => []
        end).

(** Two listings of rows. *)
Definition twoRowPages : list NotionRead.Listing :=
  [{| NotionRead.results := [row "Dune 2" (Some 3)];
      NotionRead.has_more := true; NotionRead.next_cursor := Some (js "c1") |};
   {| NotionRead.results := [row "Emma" None];
      NotionRead.has_more := false; NotionRead.next_cursor := None |}].

(** Two listings with a row whose title is [__proto__]. *)
Definition protoRowPages : list NotionRead.Listing :=
  [{| NotionRead.results := [row "Dune 2" (Some 3); row "__proto__" (Some 9)];
      NotionRead.has_more := true; NotionRead.next_cursor := Some (js "c1") |};
   {| NotionRead.results := [row "Emma" None];
      NotionRead.has_more := false; NotionRead.next_cursor := None |}].

(** Two listings whose rows have the same title. *)
Definition sameTitlePages : list NotionRead.Listing :=
  [{| NotionRead.results := [row "Dune 2" (Some 3)];
      NotionRead.has_more := true; NotionRead.next_cursor := Some (js "c1") |};
   {| NotionRead.results := [row "Dune 2" (Some 7)];
      NotionRead.has_more := false; NotionRead.next_cursor := None |}].

Definition freshRead : NotionRead.St nat :=
  {| NotionRead.world := 0%nat; NotionRead.calls := [] |}.

(** A database whose properties have Japanese names. *)
Definition japaneseSchema : list (jsstring * Notion.PropConfig) :=
  [(js "Title", {| Notion.prop_type := js "title" |});
   (NotionRead.highlightCountJa, {| Notion.prop_type := js "number" |})].

(** A library of two books. *)
Definition twoBooks : list Content.Container :=
  [{| Content.h2Text := Some (js "Dune 2"); Content.highlightMatch := Some 5%N |};
   {| Content.h2Text := Some (js "Emma"); Content.highlightMatch := Some 2%N |}].

(** A page on which nothing ever shows: no title, no highlight, no
    selection, and no book to read. *)
Definition blank : Content.Snapshot :=
  {| Content.panelTitle := []; Content.highlightSignature := [];
     Content.bookSelected := false |}.

Definition blankWatched (p : unit) (book : Content.BookEntry)
    : unit * (Content.Snapshot * list Content.Snapshot) :=
  (p, (blank, [blank])).

Definition blankInfo (p : unit) (book : Content.BookEntry) : Exn + Background.Book :=
  inl TypeError.

End Scenario2.

(** * Properties *)

(** ** JavaScript strings *)

Lemma substring_from_0 (n : nat) (s : jsstring) : substring 0 n s = take n s.
Proof.
  unfold substring. rewrite Nat.min_0_l, Nat.max_0_l, Nat.sub_0_r. reflexivity.
Qed.

Lemma startsWith_spec (s t : jsstring) :
  startsWith s t = true ↔ ∃ after, s = t ++ after.
Proof.
  revert s. induction t as [|c t IH]; intros s; simpl.
  - split; eauto.
  - destruct s as [|d s].
    + split; [discriminate | intros [after H]; discriminate].
    + destruct (N.eqb_spec c d) as [->|Hne].
      * rewrite IH. split; intros [after H]; exists after; simpl in *; congruence.
      * split; [discriminate | intros [after H]; simpl in H; congruence].
Qed.

Lemma includes_unfold (s t : jsstring) :
  includes s t =
    if startsWith s t then true
    else match s with
         | [] => false
         | _ :: s' => includes s' t
         end.
Proof. destruct s; reflexivity. Qed.

Lemma includes_spec (s t : jsstring) : includes s t = true ↔ occurs_in t s.
Proof.
  unfold occurs_in. induction s as [|d s IH]; rewrite includes_unfold.
  - destruct (startsWith [] t) eqn:Hs.
    + apply startsWith_spec in Hs as [after H]. split; [|done].
      intros _. exists [], after. done.
    + split; [done|]. intros (before & after & H).
      destruct before; [|discriminate]. simpl in H.
      assert (startsWith [] t = true) by (apply startsWith_spec; eauto).
      congruence.
  - destruct (startsWith (d :: s) t) eqn:Hs.
    + apply startsWith_spec in Hs as [after H]. split; [|done].
      intros _. exists [], after. done.
    + rewrite IH. split.
      * intros (before & after & ->). exists (d :: before), after. done.
      * intros (before & after & H). destruct before as [|b before].
        -- assert (startsWith (d :: s) t = true) by (apply startsWith_spec; eauto).
           congruence.
        -- simpl in H. exists before, after. congruence.
Qed.

(** ** JavaScript objects *)

Section Objects.
Import JsObject.

Lemma get_own (obj : gmap jsstring Z) (key : jsstring) (n : Z) :
  obj !! key = Some n → get obj key = Number n.
Proof. intros Hk. unfold get. by rewrite Hk. Qed.

Lemma get_absent (obj : gmap jsstring Z) (key : jsstring) :
  obj !! key = None → get obj key = if inherited key then Member else Undefined.
Proof. intros Hk. unfold get. by rewrite Hk. Qed.

Lemma proto_inherited : inherited proto = true.
Proof. reflexivity. Qed.

Lemma lookup_set_Some (key key' : jsstring) (n v : Z) (obj : gmap jsstring Z) :
  set key n obj !! key' = Some v →
  obj !! key' = Some v ∨ (key' = key ∧ v = n).
Proof.
  unfold set. destruct (_ && _); [by left|].
  destruct (decide (key = key')) as [<-|Hne].
  - rewrite lookup_insert_eq. intros [= <-]. by right.
  - rewrite lookup_insert_ne by done. by left.
Qed.

Lemma lookup_set_eq (key : jsstring) (n : Z) (obj : gmap jsstring Z) :
  key ≠ proto → set key n obj !! key = Some n.
Proof.
  intros Hne. unfold set. rewrite (bool_decide_eq_false_2 _ Hne). simpl.
  apply lookup_insert_eq.
Qed.

Lemma lookup_set_ne (key key' : jsstring) (n : Z) (obj : gmap jsstring Z) :
  key ≠ key' → set key n obj !! key' = obj !! key'.
Proof.
  intros Hne. unfold set. destruct (_ && _); [done|]. by apply lookup_insert_ne.
Qed.

Lemma lookup_set_keeps (key key' : jsstring) (n : Z) (obj : gmap jsstring Z) :
  is_Some (obj !! key') → is_Some (set key n obj !! key').
Proof.
  intros Hk. unfold set. destruct (_ && _); [done|].
  rewrite lookup_insert_is_Some. destruct (decide (key = key')); tauto.
Qed.

(** An object that has no own [__proto__] gets none by assignment. *)
Lemma lookup_set_proto (key : jsstring) (n : Z) (obj : gmap jsstring Z) :
  obj !! proto = None → set key n obj !! proto = None.
Proof.
  intros Hnone. unfold set. destruct (decide (key = proto)) as [->|Hne].
  - rewrite bool_decide_eq_true_2 by done.
    by rewrite (bool_decide_eq_true_2 _ Hnone).
  - rewrite (bool_decide_eq_false_2 _ Hne). simpl. by rewrite lookup_insert_ne.
Qed.

End Objects.

(** ** Fingerprint normaliser *)

Section Normaliser.
Import Content.

Lemma filter_fixed {A} (p : A → bool) (l : list A) :
  Forall (λ x, p x = true) l → List.filter p l = l.
Proof.
  induction 1 as [|x l Hx _ IH]; simpl; [done|]. rewrite Hx, IH. done.
Qed.

Lemma remove_class_clean (cls : N → bool) (s : jsstring) :
  Forall (λ c, negb (cls c) = true) (remove_class cls s).
Proof.
  unfold remove_class. apply Forall_forall. intros c Hc.
  apply list_elem_of_In, filter_In in Hc. tauto.
Qed.

Lemma normalizeTitle_length (title : jsstring) :
  (length (normalizeTitle title) ≤ 30)%nat.
Proof.
  unfold normalizeTitle. rewrite substring_from_0, length_take. lia.
Qed.

Lemma normalizeTitle_idempotent (title : jsstring) :
  normalizeTitle (normalizeTitle title) = normalizeTitle title.
Proof.
  unfold normalizeTitle. rewrite !substring_from_0.
  unfold remove_class at 1. rewrite filter_fixed.
  - rewrite take_take. done.
  - apply Forall_take, remove_class_clean.
Qed.

Lemma key_class_underscore : key_class underscore = false.
Proof. reflexivity. Qed.

Lemma makeBookKey_idempotent (title : jsstring) :
  makeBookKey (makeBookKey title) = makeBookKey title.
Proof.
  unfold makeBookKey, replace_outside. rewrite !substring_from_0.
  rewrite <- fmap_take, take_take, Nat.min_id, <- list_fmap_compose.
  apply list_fmap_ext. intros _ c _. simpl.
  destruct (key_class c) eqn:Hc; [rewrite Hc; done|].
  rewrite key_class_underscore. done.
Qed.

(** C8.  Normalising twice is the same as normalising once, for the title
    normaliser of the readiness detector (strip the class, keep the first 30
    code units) and for the cache key (keep the first 50 code units, put an
    underscore for everything outside the class); both are functions of the
    title alone. *)
Theorem normalisation_idempotent (title : jsstring) :
  normalizeTitle (normalizeTitle title) = normalizeTitle title
  ∧ makeBookKey (makeBookKey title) = makeBookKey title.
Proof.
  split; [apply normalizeTitle_idempotent | apply makeBookKey_idempotent].
Qed.

End Normaliser.

(** ** Readiness detector *)

Section Readiness.
Import Content.

Lemma elem_of_set_add (x v : jsstring) (s : list jsstring) :
  x ∈ set_add v s ↔ x = v ∨ x ∈ s.
Proof.
  unfold set_add. case_bool_decide as Hin.
  - split; [auto|]. intros [->|]; done.
  - rewrite elem_of_app, list_elem_of_singleton. tauto.
Qed.

Lemma elem_of_fold_set_add (f : jsstring → jsstring) (parts s : list jsstring)
    (x : jsstring) :
  x ∈ fold_left (λ acc part, set_add (f part) acc) parts s
  ↔ x ∈ s ∨ ∃ part, part ∈ parts ∧ x = f part.
Proof.
  revert s. induction parts as [|p parts IH]; intros s; simpl.
  - split; [auto|]. intros [|(part & H & _)]; [done|]. inversion H.
  - rewrite IH, elem_of_set_add. split.
    + intros [[->|]|(part & H & ->)]; eauto.
      * right. exists p. split; [left|done].
      * right. exists part. split; [by right|done].
    + intros [|(part & H & ->)]; [tauto|].
      apply elem_of_cons in H as [->|H]; [tauto|]. right. eauto.
Qed.

Lemma elem_of_splitTitle (title part : jsstring) :
  part ∈ splitTitle title
  ↔ part ≠ [] ∧ ∃ seg, seg ∈ split_class split_title_class title ∧ part = trim seg.
Proof.
  unfold splitTitle. rewrite list_elem_of_In, filter_In, <- list_elem_of_In.
  rewrite list_elem_of_fmap. split.
  - intros ((seg & -> & H) & Ht). split; [|eauto]. by destruct (trim seg).
  - intros (Hne & seg & H & ->). split; [eauto|]. by destruct (trim seg).
Qed.

(** No piece of a split contains a separator. *)
Lemma split_class_pieces (cls : N → bool) (s : jsstring) :
  Forall (Forall (λ c, cls c = false)) (split_class cls s).
Proof.
  induction s as [|c s IH]; simpl.
  - repeat constructor.
  - destruct (cls c) eqn:Hc; [by constructor|].
    destruct (split_class cls s) as [|p ps]; [repeat constructor; done|].
    inversion IH; subst. constructor; [by constructor|done].
Qed.

Lemma variantMatches_spec (norm variant : jsstring) :
  variantMatches norm variant = true
  ↔ variant ≠ [] ∧ (occurs_in variant norm ∨ occurs_in norm variant).
Proof.
  unfold variantMatches.
  rewrite andb_true_iff, orb_true_iff, !includes_spec.
  destruct variant; simpl; intuition congruence.
Qed.

Lemma expectedVariants_spec (expected v : jsstring) :
  v ∈ expectedVariants expected
  ↔ v = normalizeTitle expected
    ∨ (∃ part, part ∈ splitTitle expected ∧ v = normalizeTitle part)
    ∨ ((10 < length (normalizeTitle expected))%nat
       ∧ v = take 10 (normalizeTitle expected))
    ∨ ((15 < length (normalizeTitle expected))%nat
       ∧ v = take 15 (normalizeTitle expected)).
Proof.
  unfold expectedVariants, jslength.
  set (norm := normalizeTitle expected).
  set (vs := fold_left _ _ _).
  assert (Hvs : ∀ x, x ∈ vs ↔ x = norm ∨ ∃ part, part ∈ splitTitle expected
                                              ∧ x = normalizeTitle part).
  { intros x. unfold vs. rewrite elem_of_fold_set_add, elem_of_set_add.
    rewrite elem_of_nil. tauto. }
  destruct (Nat.ltb_spec 15 (length norm)) as [H15|H15];
    destruct (Nat.ltb_spec 10 (length norm)) as [H10|H10];
    rewrite ?elem_of_set_add, ?substring_from_0, Hvs; intuition lia.
Qed.

Lemma matchesExpected_spec (expected current : jsstring) :
  matchesExpected expected current = true
  ↔ current ≠ []
    ∧ ∃ variant, variant ∈ expectedVariants expected ∧ variant ≠ []
        ∧ (occurs_in variant (normalizeTitle current)
           ∨ occurs_in (normalizeTitle current) variant).
Proof.
  unfold matchesExpected. destruct current as [|c current]; simpl.
  - split; [done|]. intros [? _]. done.
  - rewrite existsb_exists. split.
    + intros (v & Hin & Hv). apply variantMatches_spec in Hv as [? ?].
      split; [done|]. exists v. by rewrite list_elem_of_In.
    + intros (_ & v & Hin & Hne & Hocc). exists v.
      rewrite <- list_elem_of_In, variantMatches_spec. done.
Qed.

Lemma waitForTitleUpdate_matches (expected : jsstring) (now page : Snapshot)
    (later : list Snapshot) :
  page = now ∨ page ∈ later →
  matchesExpected expected (panelTitle page) = true →
  waitForTitleUpdate expected now later = true.
Proof.
  intros Hpage Hm. unfold waitForTitleUpdate.
  destruct (truthy expected); simpl; [|done].
  assert (Hready : isReady expected (highlightSignature now) page = true).
  { unfold isReady. by rewrite Hm. }
  destruct Hpage as [->|Hin]; [by rewrite Hready|].
  destruct (isReady expected (highlightSignature now) now); [done|].
  apply existsb_exists. exists page. by rewrite <- list_elem_of_In.
Qed.

End Readiness.

Section ReadinessClaims.
Import Content Scenario.

(** C7, as amended.  The variants of the expected title are its normalised
    form, the normalised form of every piece of the split on the separators
    (trimmed, empty pieces left out) and the prefixes of 10 and of 15 code
    units of the normalised form, each only when the normalised form is
    longer.  A panel title matches exactly when it is not empty and its
    normalised form contains, or is contained in, a variant that is not
    empty; the detector answers [true] as soon as a page it sees has such a
    title.  The expected title "Atomic Habits: An Easy Way..." is matched by
    the panel title "Atomic Habits". *)
Theorem readiness_by_title (expected : jsstring) :
  (∀ v, v ∈ expectedVariants expected
        ↔ v = normalizeTitle expected
          ∨ (∃ seg, seg ∈ split_class split_title_class expected
                    ∧ trim seg ≠ [] ∧ v = normalizeTitle (trim seg))
          ∨ ((10 < length (normalizeTitle expected))%nat
             ∧ v = take 10 (normalizeTitle expected))
          ∨ ((15 < length (normalizeTitle expected))%nat
             ∧ v = take 15 (normalizeTitle expected)))
  ∧ (∀ current,
        matchesExpected expected current = true
        ↔ current ≠ []
          ∧ ∃ variant, variant ∈ expectedVariants expected ∧ variant ≠ []
              ∧ (occurs_in variant (normalizeTitle current)
                 ∨ occurs_in (normalizeTitle current) variant))
  ∧ (∀ now later page,
        page = now ∨ page ∈ later →
        matchesExpected expected (panelTitle page) = true →
        waitForTitleUpdate expected now later = true)
  ∧ matchesExpected atomicHabits (js "Atomic Habits") = true
  ∧ (∀ later, waitForTitleUpdate atomicHabits (showing (js "Atomic Habits")) later = true).
Proof.
  split; [|split; [|split; [|split]]].
  - intros v. rewrite expectedVariants_spec.
    assert (Hseg : (∃ part, part ∈ splitTitle expected ∧ v = normalizeTitle part)
                   ↔ ∃ seg, seg ∈ split_class split_title_class expected
                            ∧ trim seg ≠ [] ∧ v = normalizeTitle (trim seg)).
    { split.
      - intros (part & Hin & ->). apply elem_of_splitTitle in Hin as (? & seg & ? & ->).
        eauto.
      - intros (seg & Hin & Hne & ->). exists (trim seg). split; [|done].
        apply elem_of_splitTitle. eauto. }
    rewrite Hseg. done.
  - apply matchesExpected_spec.
  - intros now later page. apply waitForTitleUpdate_matches.
  - vm_compute. done.
  - intros later. apply (waitForTitleUpdate_matches _ _ (showing (js "Atomic Habits")));
      [by left | vm_compute; done].
Qed.

(** C7 as first stated fails: for the expected title "Atomic Habits: ..."
    the empty string is a variant (the normalised second piece), and it is
    contained in the normalised form of any panel title; yet while the panel
    shows "Deep Work" the detector times out. *)
Lemma readiness_empty_variant_counterexample :
  [] ∈ expectedVariants atomicHabitsCut
  ∧ occurs_in [] (normalizeTitle (js "Deep Work"))
  ∧ matchesExpected atomicHabitsCut (js "Deep Work") = false
  ∧ waitForTitleUpdate atomicHabitsCut (showing (js "Deep Work"))
      [showing (js "Deep Work"); showing (js "Deep Work")] = false.
Proof.
  split; [|split; [|split]].
  - vm_compute. apply list_elem_of_In. simpl. tauto.
  - exists [], (normalizeTitle (js "Deep Work")). done.
  - vm_compute. done.
  - vm_compute. done.
Qed.

End ReadinessClaims.

(** ** Dedup merge *)

Section Dedup.
Import Notion Background.

Lemma novel_test (existingHighlights : list jsstring) (h : Highlight) :
  negb (existsb (λ existing, includes existing (substring 0 50 (text h)))
                existingHighlights) = true
  ↔ novel existingHighlights h.
Proof.
  unfold novel. rewrite negb_true_iff, <- not_true_iff_false, existsb_exists.
  setoid_rewrite includes_spec. setoid_rewrite substring_from_0.
  setoid_rewrite <- list_elem_of_In. split.
  - intros Hno existing Hin Hocc. apply Hno. eauto.
  - intros Hall (existing & Hin & Hocc). by apply (Hall existing).
Qed.

Lemma newHighlightsList_app (l1 l2 : list Highlight) (existingHighlights : list jsstring) :
  newHighlightsList (l1 ++ l2) existingHighlights
  = newHighlightsList l1 existingHighlights ++ newHighlightsList l2 existingHighlights.
Proof. unfold newHighlightsList. apply List.filter_app. Qed.

Lemma newHighlightsList_sublist (l : list Highlight) (existingHighlights : list jsstring) :
  sublist (newHighlightsList l existingHighlights) l.
Proof.
  unfold newHighlightsList. induction l as [|h l IH]; simpl; [constructor|].
  destruct (negb _); by constructor.
Qed.

(** C2.  A highlight of the book is in the list passed on exactly when no
    existing text contains the first 50 code units of its text; the list is
    a subsequence of the extracted one, and the filter works highlight by
    highlight, so the extraction order is kept. *)
Theorem dedup_keeps_novel_in_order (bookHighlights : list Highlight)
    (existingHighlights : list jsstring) :
  (∀ h, h ∈ newHighlightsList bookHighlights existingHighlights
        ↔ h ∈ bookHighlights ∧ novel existingHighlights h)
  ∧ sublist (newHighlightsList bookHighlights existingHighlights) bookHighlights
  ∧ (∀ before after,
        bookHighlights = before ++ after →
        newHighlightsList bookHighlights existingHighlights
        = newHighlightsList before existingHighlights
          ++ newHighlightsList after existingHighlights).
Proof.
  split; [|split].
  - intros h. unfold newHighlightsList.
    rewrite list_elem_of_In, filter_In, <- list_elem_of_In, novel_test. done.
  - apply newHighlightsList_sublist.
  - intros before after ->. apply newHighlightsList_app.
Qed.

End Dedup.

(** ** Candidate set planner *)

Section Planner.
Import Content.

Variable notionCounts : gmap jsstring Z.
Variable localCache : option (gmap jsstring Z).
Variable testBookLimit : nat.

Local Abbreviation planStep := (planStep notionCounts localCache testBookLimit).
Local Abbreviation planLoop := (planLoop notionCounts localCache testBookLimit).
Local Abbreviation firstPass := (firstPass notionCounts localCache testBookLimit).
Local Abbreviation shouldProcess := (shouldProcess notionCounts localCache testBookLimit).

Lemma planStep_books (st : PlanState) (i : nat) (c : Container) :
  booksToProcess (planStep st i c)
  = if shouldProcess st i c
    then booksToProcess st ++ [bookEntry i c]
    else booksToProcess st.
Proof.
  unfold Content.planStep, Content.shouldProcess, bookEntry.
  destruct (decide_book _ _ _ _ _ _ _) as [process skip]. done.
Qed.

Lemma planLoop_app (l1 l2 : list Container) (i : nat) (st : PlanState) :
  planLoop i (l1 ++ l2) st = planLoop (i + length l1) l2 (planLoop i l1 st).
Proof.
  revert i st. induction l1 as [|c l1 IH]; intros i st; simpl.
  - by rewrite Nat.add_0_r.
  - rewrite IH. f_equal. lia.
Qed.

Lemma queued_app (books more : list BookEntry) (j : nat) :
  queued (books ++ more) j = queued books j || queued more j.
Proof. unfold queued. apply existsb_app. Qed.

(** The turns from index [i] on leave the entries of smaller index alone. *)
Lemma queued_planLoop_before (cs : list Container) (i j : nat) (st : PlanState) :
  (j < i)%nat →
  queued (booksToProcess (planLoop i cs st)) j = queued (booksToProcess st) j.
Proof.
  revert i st. induction cs as [|c cs IH]; intros i st Hlt; simpl; [done|].
  rewrite IH by lia. rewrite planStep_books.
  destruct (shouldProcess st i c); [|done].
  rewrite queued_app. simpl.
  destruct (Nat.eqb_spec i j); [lia|]. by rewrite !orb_false_r.
Qed.

(** The turns before index [j] queue no entry of index [j]. *)
Lemma queued_planLoop_after (cs : list Container) (i j : nat) (st : PlanState) :
  (i + length cs ≤ j)%nat →
  queued (booksToProcess (planLoop i cs st)) j = queued (booksToProcess st) j.
Proof.
  revert i st. induction cs as [|c cs IH]; intros i st Hle; simpl in *; [done|].
  rewrite IH by lia. rewrite planStep_books.
  destruct (shouldProcess st i c); [|done].
  rewrite queued_app. simpl.
  destruct (Nat.eqb_spec i j); [lia|]. by rewrite !orb_false_r.
Qed.

(** A book is in the queue of the loop exactly when the decision taken at
    its turn, after the books before it, was to process it. *)
Lemma queued_planLoop (cs : list Container) (j : nat) (c : Container) :
  cs !! j = Some c →
  queued (booksToProcess (planLoop 0 cs initialPlan)) j
  = shouldProcess (planLoop 0 (take j cs) initialPlan) j c.
Proof.
  intros Hj.
  assert (Hlen : (j < length cs)%nat) by (eapply lookup_lt_Some; eauto).
  rewrite <- (take_drop_middle cs j c Hj) at 1.
  rewrite planLoop_app. simpl. rewrite length_take_le by lia.
  rewrite queued_planLoop_before by lia.
  rewrite planStep_books.
  set (st := planLoop 0 (take j cs) initialPlan).
  assert (Hnone : queued (booksToProcess st) j = false).
  { unfold st. rewrite queued_planLoop_after; [done|].
    rewrite length_take. lia. }
  destruct (shouldProcess st j c).
  - rewrite queued_app. simpl. by rewrite Nat.eqb_refl, orb_true_r.
  - done.
Qed.

(** In test mode the queue never grows beyond the limit. *)
Lemma planLoop_length (cs : list Container) (i : nat) (st : PlanState) :
  (0 < testBookLimit)%nat →
  (length (booksToProcess st) ≤ testBookLimit)%nat →
  (length (booksToProcess (planLoop i cs st)) ≤ testBookLimit)%nat.
Proof.
  intros Hpos. revert i st. induction cs as [|c cs IH]; intros i st Hle; simpl; [done|].
  apply IH. rewrite planStep_books.
  destruct (shouldProcess st i c) eqn:Hs; [|done].
  unfold Content.shouldProcess, decide_book, testModeActive in Hs.
  destruct (Nat.ltb_spec 0 testBookLimit); [|lia]. simpl in Hs.
  apply Nat.ltb_lt in Hs. rewrite length_app. simpl. lia.
Qed.

(** Cutting the queue to the test limit after the loop removes nothing. *)
Lemma firstPass_books (cs : list Container) :
  booksToProcess (firstPass cs) = booksToProcess (planLoop 0 cs initialPlan).
Proof.
  unfold Content.firstPass. simpl.
  destruct (Nat.ltb_spec 0 testBookLimit) as [Hpos|]; [|done]. simpl.
  destruct (Nat.ltb_spec testBookLimit
              (length (booksToProcess (planLoop 0 cs initialPlan)))) as [Hgt|]; [|done].
  pose proof (planLoop_length cs 0 initialPlan Hpos) as Hle.
  simpl in Hle. specialize (Hle ltac:(lia)). lia.
Qed.

Lemma present_not_empty (key : jsstring) (r : Z) :
  notionCounts !! key = Some r →
  useNotionCounts notionCounts = true
  ∧ isFirstSync notionCounts localCache = false.
Proof.
  intros Hk.
  assert (Hsize : size notionCounts ≠ 0%nat).
  { intros Hz. apply map_size_empty_iff in Hz. rewrite Hz in Hk.
    by rewrite lookup_empty in Hk. }
  assert (Huse : useNotionCounts notionCounts = true).
  { unfold useNotionCounts. apply bool_decide_eq_true. lia. }
  split; [done|].
  unfold isFirstSync, savedCounts. rewrite Huse. by apply bool_decide_eq_false.
Qed.

End Planner.

Section PlannerClaims.
Import Content Scenario.

(** Outside test mode the copy in content.js takes the same decision. *)
Lemma decide_book_content_js_agrees (notionCounts : gmap jsstring Z)
    (localCache : option (gmap jsstring Z)) (n : nat) (existsInNotion : bool)
    (current : Z) (savedCount : JsObject.Value) :
  decide_book notionCounts localCache 0 n existsInNotion current savedCount
  = decide_book_content_js notionCounts localCache existsInNotion current savedCount.
Proof. reflexivity. Qed.

(** C1, as amended.  Outside test mode, a book whose title is a key of the
    remote counts is queued exactly when its live count is positive and
    greater than its remote count (such a run is never a first sync); a book
    of unknown live count (-1) is then not queued.  When the remote count is
    not negative, "positive" and "known" select the same books. *)
Theorem remote_present_queued_iff (notionCounts : gmap jsstring Z)
    (localCache : option (gmap jsstring Z)) (bookContainers : list Container)
    (j : nat) (c : Container) (remoteCount : Z) :
  bookContainers !! j = Some c →
  notionCounts !! containerTitle j c = Some remoteCount →
  (queued (booksToProcess (firstPass notionCounts localCache 0 bookContainers)) j = true
   ↔ 0 < currentHighlightCount c ∧ remoteCount < currentHighlightCount c)
  ∧ (currentHighlightCount c = -1 →
     queued (booksToProcess (firstPass notionCounts localCache 0 bookContainers)) j = false)
  ∧ (0 ≤ remoteCount →
     (queued (booksToProcess (firstPass notionCounts localCache 0 bookContainers)) j = true
      ↔ currentHighlightCount c ≠ -1 ∧ remoteCount < currentHighlightCount c)).
Proof.
  intros Hj Hk.
  destruct (present_not_empty notionCounts localCache _ _ Hk) as [Huse Hfirst].
  rewrite firstPass_books, (queued_planLoop _ _ _ _ _ c Hj).
  unfold shouldProcess, decide_book, testModeActive. simpl.
  rewrite Hfirst, Huse, (get_own _ _ _ Hk). simpl.
  assert (Hlive : currentHighlightCount c = -1 ∨ 0 ≤ currentHighlightCount c).
  { unfold currentHighlightCount. destruct (highlightMatch c); lia. }
  destruct (Z.ltb_spec 0 (currentHighlightCount c));
    destruct (Z.ltb_spec remoteCount (currentHighlightCount c)); simpl;
    (split; [|split]; [split | | intros ?; split]; intros; try done; lia).
Qed.

Lemma remote_present_queued_witness :
  (queued (booksToProcess (firstPass (remoteDune2 3) None 0 (dune2 (Some 5%N)))) 0 = true
   ↔ 0 < 5 ∧ 3 < 5)
  ∧ (5 = -1 →
     queued (booksToProcess (firstPass (remoteDune2 3) None 0 (dune2 (Some 5%N)))) 0 = false)
  ∧ (0 ≤ 3 →
     (queued (booksToProcess (firstPass (remoteDune2 3) None 0 (dune2 (Some 5%N)))) 0 = true
      ↔ 5 ≠ -1 ∧ 3 < 5)).
Proof.
  apply (remote_present_queued_iff (remoteDune2 3) None (dune2 (Some 5%N)) 0
           {| h2Text := Some (js "Dune 2"); highlightMatch := Some 5%N |} 3).
  - reflexivity.
  - vm_compute. reflexivity.
Defined.

(** C1 as first stated fails: "Dune 2" has the remote count -3 and the live
    count 0, which is known and greater, and the book is not queued. *)
Lemma remote_present_counterexample :
  remoteDune2 (-3) !! containerTitle 0 {| h2Text := Some (js "Dune 2"); highlightMatch := Some 0%N |}
  = Some (-3)
  ∧ currentHighlightCount {| h2Text := Some (js "Dune 2"); highlightMatch := Some 0%N |} = 0
  ∧ 0 ≠ -1 ∧ -3 < 0
  ∧ queued (booksToProcess (firstPass (remoteDune2 (-3)) None 0 (dune2 (Some 0%N)))) 0 = false.
Proof.
  split; [vm_compute; reflexivity|]. split; [reflexivity|].
  split; [lia|]. split; [lia|]. vm_compute. reflexivity.
Qed.

(** C4 fails on the code.  The code asks [notionCounts[title] !== undefined],
    which is also true of a title that names a member every object inherits
    ([constructor], [toString], ...).  A book whose title is not a key of the
    remote counts is queued, whatever its live count, in test mode while the
    queue built from the books before it is below the limit, and outside
    test mode unless there are remote counts and its title is such a name:
    then it is skipped, against the comment of the branch ("Book not in
    Notion - process it"). *)
Theorem remote_absent_queued_unless_inherited (notionCounts : gmap jsstring Z)
    (localCache : option (gmap jsstring Z)) (testBookLimit : nat)
    (bookContainers : list Container) (j : nat) (c : Container) :
  bookContainers !! j = Some c →
  notionCounts !! containerTitle j c = None →
  queued (booksToProcess (firstPass notionCounts localCache testBookLimit bookContainers)) j
  = if (0 <? testBookLimit)%nat
    then negb (testBookLimit <=?
               length (booksToProcess
                         (firstPass notionCounts localCache testBookLimit
                                    (take j bookContainers))))%nat
    else negb (useNotionCounts notionCounts
               && JsObject.inherited (containerTitle j c)).
Proof.
  intros Hj Hk.
  rewrite !firstPass_books, (queued_planLoop _ _ _ _ _ c Hj).
  unfold shouldProcess, decide_book, testModeActive.
  rewrite (get_absent _ _ Hk).
  destruct (0 <? testBookLimit)%nat; simpl.
  - destruct (Nat.ltb_spec (length (booksToProcess
        (planLoop notionCounts localCache testBookLimit 0 (take j bookContainers)
                  initialPlan))) testBookLimit) as [Hlt|Hge];
      symmetry; [apply negb_true_iff, Nat.leb_gt | apply negb_false_iff, Nat.leb_le]; lia.
  - unfold isFirstSync, savedCounts.
    destruct (useNotionCounts notionCounts) eqn:Huse; simpl.
    + unfold useNotionCounts in Huse. apply bool_decide_eq_true in Huse.
      rewrite bool_decide_eq_false_2 by lia.
      destruct (JsObject.inherited (containerTitle j c)); simpl; [|done].
      by rewrite andb_false_r.
    + by destruct (bool_decide _).
Qed.

(** The run with remote counts for "Dune 2" only and a library holding the
    one book "constructor", which shows 12 highlights: the book is not
    queued. *)
Lemma remote_absent_inherited_witness :
  queued (booksToProcess (firstPass (remoteDune2 3) None 0
            [{| h2Text := Some (js "constructor"); highlightMatch := Some 12%N |}])) 0
  = false.
Proof.
  etrans.
  - apply (remote_absent_queued_unless_inherited (remoteDune2 3) None 0
             [{| h2Text := Some (js "constructor"); highlightMatch := Some 12%N |}] 0
             {| h2Text := Some (js "constructor"); highlightMatch := Some 12%N |}).
    + reflexivity.
    + vm_compute. reflexivity.
  - reflexivity.
Defined.

End PlannerClaims.

(** ** The persisted local cache *)

Section LocalCache.
Import Content Scenario.

(** When the run compares with the local cache (no remote counts), every
    key of the cache is still there after the run. *)
Lemma local_mode_keeps_keys (notionCounts old stored : gmap jsstring Z)
    (testBookLimit : nat) (bookContainers : list Container) (setOk : bool)
    (key : jsstring) :
  useNotionCounts notionCounts = false →
  extractAllBooksAuto_stored notionCounts (Some old) testBookLimit bookContainers setOk
  = Some stored →
  is_Some (old !! key) → is_Some (stored !! key).
Proof.
  intros Hlocal Hrun Hkey. unfold extractAllBooksAuto_stored in Hrun.
  destruct bookContainers as [|c cs]; [congruence|].
  destruct setOk; [|congruence].
  injection Hrun as <-. unfold savedCounts. rewrite Hlocal. simpl.
  apply lookup_union_is_Some. by right.
Qed.

(** [extractAllBooksAutoWithProgress] always merges into the local cache. *)
Lemma with_progress_keeps_keys (old stored : gmap jsstring Z)
    (testBookLimit : nat) (bookContainers : list Container) (setOk : bool)
    (key : jsstring) :
  extractAllBooksAutoWithProgress_stored (Some old) testBookLimit bookContainers setOk
  = Some stored →
  is_Some (old !! key) → is_Some (stored !! key).
Proof.
  intros Hrun Hkey. unfold extractAllBooksAutoWithProgress_stored in Hrun.
  destruct bookContainers as [|c cs]; [congruence|].
  destruct setOk; [|congruence].
  injection Hrun as <-. unfold savedCountsP. simpl.
  apply lookup_union_is_Some. by right.
Qed.

(** With remote counts the run never looks at the local cache: what it
    saves is the same whatever the cache held. *)
Lemma remote_mode_ignores_local_cache (notionCounts : gmap jsstring Z)
    (localCache : option (gmap jsstring Z)) (testBookLimit : nat)
    (c : Container) (cs : list Container) :
  useNotionCounts notionCounts = true →
  extractAllBooksAuto_stored notionCounts localCache testBookLimit (c :: cs) true
  = extractAllBooksAuto_stored notionCounts None testBookLimit (c :: cs) true.
Proof.
  intros Hremote.
  assert (Hsaved : ∀ lc, savedCounts notionCounts lc = notionCounts).
  { intros lc. unfold savedCounts. by rewrite Hremote. }
  assert (Hstep : ∀ st i b, planStep notionCounts localCache testBookLimit st i b
                            = planStep notionCounts None testBookLimit st i b).
  { intros st i b. unfold planStep, decide_book, isFirstSync.
    by rewrite !Hsaved. }
  assert (Hloop : ∀ l i st, planLoop notionCounts localCache testBookLimit i l st
                            = planLoop notionCounts None testBookLimit i l st).
  { induction l as [|b l IH]; intros i st; simpl; [done|]. by rewrite Hstep, IH. }
  unfold extractAllBooksAuto_stored, firstPass. cbn [newCounts].
  by rewrite Hloop, !Hsaved.
Qed.

(** C5 fails on the code.  The local cache holds "Old_Book"; the run gets
    remote counts for "Dune 2" and sees that book with 3 highlights.  What is
    saved is the remote mapping (keyed by title) merged with the observed
    count: the key "Old_Book" is gone and the title "Dune 2" has become a
    key of the local cache.  The same input through
    [extractAllBooksAutoWithProgress] keeps "Old_Book". *)
Theorem remote_counts_replace_local_cache :
  oldCache !! js "Old_Book" = Some 7
  ∧ extractAllBooksAuto_stored (remoteDune2 3) (Some oldCache) 0 (dune2 (Some 3%N)) true
    = Some (<[ js "Dune_2" := 3 ]> (remoteDune2 3))
  ∧ (<[ js "Dune_2" := 3 ]> (remoteDune2 3)) !! js "Old_Book" = None
  ∧ (<[ js "Dune_2" := 3 ]> (remoteDune2 3)) !! js "Dune 2" = Some 3
  ∧ extractAllBooksAutoWithProgress_stored (Some oldCache) 0 (dune2 (Some 3%N)) true
    = Some (<[ js "Dune_2" := 3 ]> oldCache).
Proof.
  repeat split; vm_compute; reflexivity.
Qed.

End LocalCache.

(** ** The Notion client *)

Section NotionFacts.
Import Notion.

Variable World : Type.
Variable fetch : World → Request → World * option Response.
Variable clock : World → jsstring.

(** Every request leaves its mark in the trace, whatever the answer. *)
Lemma request_calls (r : Request) (s s' : ApiSt World) (res : Exn + Json) :
  request fetch r s = (s', res) → calls s' = calls s ++ [Fetched r].
Proof.
  unfold request. destruct (fetch (world s) r) as [w [response|]].
  - destruct (data response) as [d|].
    + destruct (ok response); [|destruct (truthy (message_of d))];
        intros [= <- _]; done.
    + intros [= <- _]. done.
  - intros [= <- _]. done.
Qed.

Lemma committed_cons (pageId : jsstring) (batch : list Block)
    (batches : list (list Block)) :
  batches ≠ [] →
  committed pageId (batch :: batches)
  = Fetched (appendChildren pageId batch) :: Delayed 350 :: committed pageId batches.
Proof. by destruct batches. Qed.

Lemma committed_counts (pageId : jsstring) (batches : list (list Block)) :
  operations (committed pageId batches) = length batches
  ∧ delays (committed pageId batches) = (length batches - 1)%nat.
Proof.
  unfold operations, delays.
  induction batches as [|batch [|next rest] IH]; [done|done|].
  rewrite committed_cons by done. destruct IH as [IHo IHd].
  simpl in *. rewrite IHo, IHd. split; lia.
Qed.

Lemma ceil_step (m : nat) :
  (0 < m)%nat → ((m + 99) / 100 = S ((m - 100 + 99) / 100))%nat.
Proof.
  intros Hm. destruct (Nat.le_gt_cases m 100) as [Hle|Hgt].
  - replace (m - 100 + 99)%nat with 99%nat by lia.
    rewrite (Nat.div_small 99 100) by lia.
    symmetry. apply (Nat.div_unique _ _ _ (m - 1)); lia.
  - replace (m + 99)%nat with ((m - 100 + 99) + 1 * 100)%nat by lia.
    rewrite Nat.div_add by lia. lia.
Qed.

Section AllAccepted.

(** The service answers every request with a success and a JSON body. *)
Hypothesis accepted : ∀ w r, ∃ w' response d,
  fetch w r = (w', Some response) ∧ ok response = true ∧ data response = Some d.

Lemma request_accepted (r : Request) (s : ApiSt World) :
  ∃ s' d, request fetch r s = (s', inr d) ∧ calls s' = calls s ++ [Fetched r].
Proof.
  destruct (accepted (world s) r) as (w' & response & d & Hf & Hok & Hd).
  unfold request. rewrite Hf, Hd, Hok. eauto.
Qed.

Lemma batchLoop_trace (pageId : jsstring) (children : list Block) (n i : nat)
    (s : ApiSt World) :
  (length children - i ≤ n)%nat →
  ∃ s' batches,
    batchLoop fetch pageId children i s = (s', inr tt)
    ∧ calls s' = calls s ++ committed pageId batches
    ∧ concat batches = drop i children
    ∧ Forall (λ b, (0 < length b ≤ 100)%nat) batches
    ∧ length batches = ((length children - i + 99) / 100)%nat.
Proof.
  revert i s. induction n as [|n IH]; intros i s Hn.
  - exists s, []. rewrite batchLoop_equation_1.
    destruct (decide (i < length children)%nat) as [Hlt|Hge]; [lia|].
    unfold batchLoop_unfold_clause_1.
    rewrite app_nil_r, drop_ge by lia.
    replace (length children - i)%nat with 0%nat by lia. done.
  - rewrite batchLoop_equation_1.
    destruct (decide (i < length children)%nat) as [Hlt|Hge];
      unfold batchLoop_unfold_clause_1.
    + destruct (request_accepted (appendChildren pageId (slice i (i + batchSize) children)) s)
        as (s1 & d & Hreq & Hcalls).
      unfold appendChildren in Hreq. unfold bind at 1. rewrite Hreq.
      assert (Hslice : slice i (i + batchSize) children = take 100 (drop i children)).
      { unfold slice, batchSize. f_equal. lia. }
      assert (Hlen : (0 < length (take 100 (drop i children)) ≤ 100)%nat).
      { rewrite length_take, length_drop. lia. }
      destruct (decide (i + batchSize < length children)%nat) as [Hmore|Hlast];
        unfold bind, Notion.delay, modify, ret.
      * destruct (IH (i + batchSize)%nat
                     {| world := world s1; calls := calls s1 ++ [Delayed 350] |})
          as (s' & batches & Hrun & Htr & Hcat & Hall & Hcount);
          [unfold batchSize; lia|].
        exists s', (take 100 (drop i children) :: batches).
        assert (Hne : batches ≠ []).
        { intros ->. simpl in Hcat. symmetry in Hcat.
          apply nil_length_inv in Hcat || apply (f_equal length) in Hcat.
          rewrite length_drop in Hcat. unfold batchSize in *. simpl in Hcat. lia. }
        rewrite Hrun. split; [done|]. split; [|split; [|split]].
        -- rewrite committed_cons by done. rewrite Htr. simpl.
           rewrite Hcalls, Hslice. by rewrite <- !app_assoc.
        -- simpl. rewrite Hcat. unfold batchSize.
           rewrite <- (take_drop 100 (drop i children)) at 2.
           by rewrite drop_drop.
        -- by constructor.
        -- rewrite (ceil_step (length children - i)) by lia.
           cbn [length]. rewrite Hcount. unfold batchSize.
           replace (length children - (i + 100))%nat
             with (length children - i - 100)%nat by lia.
           done.
      * exists s1, [take 100 (drop i children)].
        rewrite batchLoop_equation_1.
        destruct (decide (i + batchSize < length children)%nat) as [?|?]; [lia|].
        unfold batchLoop_unfold_clause_1.
        split; [done|]. split; [|split; [|split]].
        -- rewrite Hcalls, Hslice. done.
        -- simpl. rewrite app_nil_r. apply take_ge. rewrite length_drop.
           unfold batchSize in *. lia.
        -- constructor; [exact Hlen | constructor].
        -- cbn [length]. unfold batchSize in *.
           apply (Nat.div_unique _ _ _ (length children - i - 1)); lia.
    + exists s, []. rewrite app_nil_r, drop_ge by lia.
      replace (length children - i)%nat with 0%nat by lia. done.
Qed.

End AllAccepted.

End NotionFacts.

(** ** The background sync *)

Section SyncFacts.
Import Notion Background.

Variable T : Type.

Lemma appends_ordinary_ret {A} (a : A) : appends_ordinary (T:=T) (ret a).
Proof. intros s s' r [= <- _]. exists []. by rewrite app_nil_r. Qed.

Lemma appends_ordinary_bind {A B} (m : M (SyncSt T) A) (k : A → M (SyncSt T) B) :
  appends_ordinary m → (∀ a, appends_ordinary (k a)) → appends_ordinary (bind m k).
Proof.
  intros Hm Hk s s' r. unfold bind. destruct (m s) as [s1 [e|a]] eqn:Hrun.
  - intros [= <- _]. eauto.
  - intros Hrest. destruct (Hm _ _ _ Hrun) as (new1 & E1 & H1).
    destruct (Hk _ _ _ _ Hrest) as (new2 & E2 & H2).
    exists (new1 ++ new2). rewrite E2, E1, app_assoc. split; [done|].
    by apply Forall_app.
Qed.

Lemma appends_ordinary_call {A} (m : M T A) : appends_ordinary (call m).
Proof.
  intros s s' r. unfold call. destruct (m (remote s)) as [t res].
  intros [= <- _]. simpl. exists []. by rewrite app_nil_r.
Qed.

Lemma appends_ordinary_emit (ev : SyncEvent) :
  ordinary ev → appends_ordinary (T:=T) (emit ev).
Proof.
  intros Hev s s' r [= <- _]. simpl. exists [ev]. split; [done|]. by constructor.
Qed.

Lemma appends_ordinary_gets {A} (f : SyncSt T → A) : appends_ordinary (gets f).
Proof. intros s s' r [= <- _]. exists []. by rewrite app_nil_r. Qed.

Lemma appends_ordinary_counters (f : SyncSt T → SyncSt T) :
  (∀ s, events (f s) = events s) → appends_ordinary (modify f).
Proof.
  intros Hf s s' r [= <- _]. exists []. by rewrite app_nil_r, Hf.
Qed.

Ltac ordinary_steps :=
  repeat first
    [ apply appends_ordinary_bind; [|intros ?]
    | apply appends_ordinary_ret
    | apply appends_ordinary_call
    | apply appends_ordinary_gets
    | apply appends_ordinary_emit; exact I
    | apply appends_ordinary_counters; intros ?; reflexivity ].

Lemma syncExisting_ordinary (client : Client T) (db : jsstring) (book : Book)
    (page : PageObj) :
  appends_ordinary (syncExisting client db book page).
Proof.
  unfold syncExisting. apply appends_ordinary_bind; [ordinary_steps|].
  intros existing. destruct (0 <? _)%nat;
    unfold add_newHighlights, incr_updatedBooks, broadcastLog; ordinary_steps.
Qed.

Lemma syncNew_ordinary (client : Client T) (db : jsstring) (book : Book) :
  appends_ordinary (syncNew client db book).
Proof.
  unfold syncNew. apply appends_ordinary_bind; [ordinary_steps|]. intros page.
  apply appends_ordinary_bind; [unfold incr_newBooks; ordinary_steps|]. intros _.
  apply appends_ordinary_bind.
  - destruct (0 <? _)%nat; unfold add_newHighlights; ordinary_steps.
  - intros _. unfold broadcastLog. ordinary_steps.
Qed.

Lemma afterSearch_ordinary (client : Client T) (db : jsstring) (i total : nat)
    (book : Book) (page : option PageObj) :
  appends_ordinary (afterSearch client db i total book page).
Proof.
  unfold afterSearch. apply appends_ordinary_bind.
  - destruct page; [apply syncExisting_ordinary | apply syncNew_ordinary].
  - intros _. unfold broadcastProgress, delay. ordinary_steps.
Qed.

Lemma announced_app (evs more : list SyncEvent) :
  announced (evs ++ more) = announced evs ++ announced more.
Proof. unfold announced. apply omap_app. Qed.

Lemma announced_ordinary (new : list SyncEvent) :
  Forall ordinary new → announced new = [].
Proof.
  induction 1 as [|ev new Hev _ IH]; [done|].
  change (ev :: new) with ([ev] ++ new).
  rewrite announced_app, IH, app_nil_r.
  destruct ev as [| [] [] |]; simpl in *; done.
Qed.

(** The body of the [try] announces its book once, at the start, whether it
    then completes or throws. *)
Lemma tryBook_announces (client : Client T) (db : jsstring) (i total : nat)
    (book : Book) (s s' : SyncSt T) (r : Exn + unit) :
  tryBook client db i total book s = (s', r) →
  announced (events s') = announced (events s) ++ [(i + 1)%nat].
Proof.
  unfold tryBook. unfold bind at 1, gets at 1.
  unfold bind at 1, broadcastProgress at 1, emit at 1, modify at 1.
  unfold bind at 1, broadcastLog at 1, emit at 1, modify at 1.
  set (s0 := {| remote := remote s; events := _ |}).
  intros Hrun.
  assert (Hrest : appends_ordinary
            (let* page := (if truthy (title book)
                           then call (findBookByTitle client db (title book))
                           else ret None) in
             afterSearch client db i total book page)%js).
  { apply appends_ordinary_bind.
    - destruct (truthy (title book)); ordinary_steps.
    - intros page. apply afterSearch_ordinary. }
  destruct (Hrest _ _ _ Hrun) as (new & -> & Hnew).
  rewrite announced_app, (announced_ordinary new Hnew), app_nil_r.
  unfold s0. simpl. rewrite <- app_assoc, announced_app. simpl. done.
Qed.

(** One turn of the loop never throws: a failure of the body is caught and
    logged with the book's title and the cause. *)
Lemma syncBook_catches (client : Client T) (db : jsstring) (i total : nat)
    (book : Book) (s : SyncSt T) :
  ∃ s', syncBook client db i total book s = (s', inr tt)
        ∧ announced (events s') = announced (events s) ++ [(i + 1)%nat]
        ∧ ∀ s1 cause,
            tryBook client db i total book s = (s1, inl cause) →
            remote s' = remote s1
            ∧ events s' = events s1
                          ++ [Log error (MsgFailed (substring 0 30 (title book)) cause)].
Proof.
  unfold syncBook, try_catch.
  destruct (tryBook client db i total book s) as [s1 [cause|[]]] eqn:Hrun.
  - eexists. split; [reflexivity|]. simpl. split.
    + rewrite announced_app. simpl. rewrite app_nil_r.
      eapply tryBook_announces; eauto.
    + intros s2 cause2 [= <- <-]. done.
  - exists s1. split; [done|]. split; [eapply tryBook_announces; eauto|].
    intros s2 cause2 [=].
Qed.

Lemma syncLoop_completes (client : Client T) (db : jsstring) (total : nat)
    (books : list Book) (i : nat) (s : SyncSt T) :
  ∃ s', syncLoop client db total i books s = (s', inr tt)
        ∧ announced (events s') = announced (events s) ++ seq (i + 1) (length books).
Proof.
  revert i s. induction books as [|book rest IH]; intros i s; simpl.
  - exists s. by rewrite app_nil_r.
  - destruct (syncBook_catches client db i total book s) as (s1 & Hrun & Hann & _).
    unfold bind. rewrite Hrun.
    destruct (IH (S i) s1) as (s' & Hloop & Hann').
    exists s'. split; [done|]. rewrite Hann', Hann, <- app_assoc. done.
Qed.

End SyncFacts.

(** ** Claims on the client and on the sync *)

Section ClientClaims.
Import Notion Scenario.

(** C3.  When the service accepts the requests, adding [n > 0] highlights
    issues [ceil (n / 100)] append requests, each with at least one and at
    most 100 blocks; the batches put end to end are the blocks of the
    highlights in their order, and a delay of 350 ms stands between two
    consecutive requests (one delay less than requests). *)
Theorem batches_of_at_most_100 (World : Type)
    (fetch : World → Request → World * option Response)
    (pageId : jsstring) (highlights : list Highlight) (s : ApiSt World) :
  (∀ w r, ∃ w' response d,
      fetch w r = (w', Some response) ∧ ok response = true ∧ data response = Some d) →
  (0 < length highlights)%nat →
  ∃ s' batches,
    addHighlightBlocks fetch pageId highlights s = (s', inr tt)
    ∧ calls s' = calls s ++ committed pageId batches
    ∧ concat batches = highlightBlock <$> highlights
    ∧ Forall (λ b, (0 < length b ≤ 100)%nat) batches
    ∧ length batches = ((length highlights + 99) / 100)%nat
    ∧ operations (committed pageId batches) = length batches
    ∧ delays (committed pageId batches) = (length batches - 1)%nat.
Proof.
  intros Haccepted Hn. unfold addHighlightBlocks.
  destruct (batchLoop_trace World fetch Haccepted pageId (highlightBlock <$> highlights)
              (length highlights) 0 s) as (s' & batches & Hrun & Htr & Hcat & Hall & Hcount).
  { rewrite length_fmap. lia. }
  exists s', batches. rewrite length_fmap, Nat.sub_0_r in Hcount.
  rewrite drop_0 in Hcat.
  destruct (committed_counts pageId batches) as [Hops Hdel].
  repeat (split; [done|]). done.
Qed.

(** 250 highlights: three requests and two delays. *)
Lemma batches_of_250 :
  ∃ s', addHighlightBlocks accepting (js "page") (replicate 250 someHighlight) freshApi
        = (s', inr tt)
        ∧ operations (calls s') = 3%nat ∧ delays (calls s') = 2%nat.
Proof.
  destruct (batches_of_at_most_100 unit accepting (js "page")
              (replicate 250 someHighlight) freshApi)
    as (s' & batches & Hrun & Htr & _ & _ & Hcount & Hops & Hdel).
  - intros w r. exists w, {| ok := true; status := 200; data := Some JOther |}, JOther.
    split; [reflexivity|]. split; reflexivity.
  - rewrite length_replicate. lia.
  - exists s'. split; [exact Hrun|].
    rewrite Htr. simpl. rewrite Hops, Hdel, Hcount, length_replicate.
    split; reflexivity.
Defined.

(** C10.  When the schema read succeeds and the schema has neither
    [Highlight Count] nor [Last Synced], [updateBookPage] returns an object
    whose id is the page id; the schema read is its only request (no PATCH),
    and the service is in the state that read left. *)
Theorem update_without_known_properties (World : Type)
    (fetch : World → Request → World * option Response) (clock : World → jsstring)
    (pageId databaseId : jsstring) (bookData : BookUpdate)
    (s s1 : ApiSt World) (dbProperties : list (jsstring * PropConfig)) :
  getDatabase fetch databaseId s = (s1, inr (JDatabase dbProperties)) →
  hasProperty (js "Highlight Count") dbProperties = false →
  hasProperty (js "Last Synced") dbProperties = false →
  updateBookPage fetch clock pageId bookData databaseId s
  = (s1, inr (JPage {| id := pageId |}))
  ∧ calls s1 = calls s ++ [Fetched (readSchema databaseId)]
  ∧ world s1 = (fetch (world s) (readSchema databaseId)).1.
Proof.
  intros Hdb Hcount Hsynced. split; [|split].
  - unfold updateBookPage, bind. rewrite Hdb. simpl.
    unfold updateProperties. rewrite Hcount, Hsynced.
    by destruct (highlightCount bookData).
  - apply (request_calls _ fetch _ _ _ _ Hdb).
  - unfold getDatabase, request in Hdb. fold (readSchema databaseId) in Hdb.
    destruct (fetch (world s) (readSchema databaseId)) as [w [response|]]; [|done].
    destruct (data response) as [d|]; [|done].
    destruct (ok response); [|destruct (truthy (message_of d)); done].
    by injection Hdb as <- _.
Qed.

Lemma update_without_known_properties_witness :
  updateBookPage queryDown noClock (js "page") {| highlightCount := Some 12 |} (js "db") freshApi
  = ({| world := tt; calls := [Fetched (readSchema (js "db"))] |},
     inr (JPage {| id := js "page" |}))
  ∧ calls {| world := tt; calls := [Fetched (readSchema (js "db"))] |}
    = calls freshApi ++ [Fetched (readSchema (js "db"))]
  ∧ world {| world := tt; calls := [Fetched (readSchema (js "db"))] |}
    = (queryDown (world freshApi) (readSchema (js "db"))).1.
Proof.
  apply (update_without_known_properties unit queryDown noClock (js "page") (js "db")
           {| highlightCount := Some 12 |} freshApi
           {| world := tt; calls := [Fetched (readSchema (js "db"))] |}
           [(js "Name", {| prop_type := js "title" |})]).
  - reflexivity.
  - reflexivity.
  - reflexivity.
Defined.

End ClientClaims.

Section SyncClaims.
Import Notion Background Scenario.

(** C6.  With the settings complete, [syncBooksToNotion] returns a result,
    whatever the client does: [success] is [true] and [totalProcessed] is the
    number of books given.  Every book is announced, in order, so the loop
    goes on after a failure; and a turn whose body throws ends normally with
    the failure logged under the book's title. *)
Theorem sync_reports_success_despite_failures (T : Type)
    (createNotionClient : jsstring → Client T) (settings : Settings)
    (books : list Book) (t : T) (token db : jsstring) :
  notionToken settings = Some token →
  databaseId settings = Some db →
  token ≠ [] →
  db ≠ [] →
  (∃ s' result,
     syncBooksToNotion createNotionClient settings books t = (s', inr result)
     ∧ Result.success result = true
     ∧ Result.totalProcessed result = length books
     ∧ announced (events s') = seq 1 (length books))
  ∧ (∀ i total book s s1 cause,
       tryBook (createNotionClient token) db i total book s = (s1, inl cause) →
       ∃ s2, syncBook (createNotionClient token) db i total book s = (s2, inr tt)
             ∧ remote s2 = remote s1
             ∧ events s2 = events s1
                           ++ [Log error (MsgFailed (substring 0 30 (title book)) cause)]).
Proof.
  intros Htoken Hdb Htne Hdne. split.
  - unfold syncBooksToNotion. rewrite Htoken, Hdb.
    replace (truthy token) with true by (by destruct token).
    replace (truthy db) with true by (by destruct db). simpl.
    destruct (syncLoop_completes T (createNotionClient token) db (length books) books 0
                (start t)) as (s' & Hloop & Hann).
    unfold bind. rewrite Hloop. simpl.
    eexists s', _. split; [reflexivity|]. simpl.
    split; [done|]. split; [done|]. exact Hann.
  - intros i total book s s1 cause Hthrows.
    destruct (syncBook_catches T (createNotionClient token) db i total book s)
      as (s2 & Hrun & _ & Hcaught).
    exists s2. split; [done|]. by apply Hcaught.
Qed.

(** Two books and no network: both fail, both are logged, the result is a
    success over two books. *)
Lemma sync_offline_witness :
  (∃ s' result,
     syncBooksToNotion (λ _, offline) configured [book "Dune"; book "Emma"] tt
     = (s', inr result)
     ∧ Result.success result = true
     ∧ Result.totalProcessed result = length [book "Dune"; book "Emma"]
     ∧ announced (events s') = seq 1 (length [book "Dune"; book "Emma"]))
  ∧ (∀ i total book s s1 cause,
       tryBook offline (js "db") i total book s = (s1, inl cause) →
       ∃ s2, syncBook offline (js "db") i total book s = (s2, inr tt)
             ∧ remote s2 = remote s1
             ∧ events s2 = events s1
                           ++ [Log error (MsgFailed (substring 0 30 (title book)) cause)]).
Proof.
  apply (sync_reports_success_despite_failures unit (λ _, offline) configured
           [book "Dune"; book "Emma"] tt (js "secret") (js "db")).
  - reflexivity.
  - reflexivity.
  - vm_compute. discriminate.
  - vm_compute. discriminate.
Defined.

Example sync_offline_run :
  let run := syncBooksToNotion (λ _, offline) configured [book "Dune"; book "Emma"] tt in
  run.2 = inr {| Result.success := true; Result.newBooks := 0;
                 Result.updatedBooks := 0; Result.newHighlights := 0;
                 Result.totalProcessed := 2 |}
  ∧ failures (events run.1) = [(js "Dune", FetchRejected); (js "Emma", FetchRejected)].
Proof. vm_compute. done. Qed.

(** C9.  For a title that is not empty: when the schema read succeeds and
    the title query throws, [findBookByTitle] returns [null]; it has issued
    the schema read and one query.  In the sync, for a client with this
    [findBookByTitle], the body of the turn goes on as for a book that was not
    found: it creates the page. *)
Theorem find_failure_reads_as_not_found (World : Type)
    (fetch : World → Request → World * option Response)
    (databaseId title : jsstring) (a a1 a2 : ApiSt World)
    (dbProperties : list (jsstring * PropConfig)) (cause : Exn) :
  title ≠ [] →
  getDatabase fetch databaseId a = (a1, inr (JDatabase dbProperties)) →
  request fetch (titleQuery databaseId (titlePropertyName dbProperties) title) a1
  = (a2, inl cause) →
  Notion.findBookByTitle fetch databaseId title a = (a2, inr None)
  ∧ calls a2 = calls a ++ [Fetched (readSchema databaseId);
                           Fetched (titleQuery databaseId (titlePropertyName dbProperties) title)]
  ∧ (∀ (client : Client (ApiSt World)) (i total : nat) (book : Book)
       (s : SyncSt (ApiSt World)),
       Background.findBookByTitle client = Notion.findBookByTitle fetch →
       Background.title book = title →
       remote s = a →
       tryBook client databaseId i total book s
       = (syncNew client databaseId book ;;;
          let* n := gets newHighlights in
          broadcastProgress (i + 1) total None n ;;;
          delay 350)%js
           {| remote := a2;
              events := events s
                        ++ [Progress (i + 1) total (Some title) (newHighlights s);
                            Log info (MsgBook (i + 1) total (substring 0 35 title))];
              newBooks := newBooks s;
              newHighlights := newHighlights s;
              updatedBooks := updatedBooks s |}).
Proof.
  intros Hne Hdb Hquery.
  assert (Hfind : Notion.findBookByTitle fetch databaseId title a = (a2, inr None)).
  { unfold Notion.findBookByTitle, bind at 1. rewrite Hdb. simpl.
    unfold bind at 1. simpl.
    replace (truthy title) with true by (by destruct title).
    unfold try_catch, bind. unfold titleQuery in Hquery. rewrite Hquery. done. }
  split; [done|]. split.
  - rewrite (request_calls _ fetch _ _ _ _ Hquery).
    rewrite (request_calls _ fetch _ _ _ _ Hdb). by rewrite <- app_assoc.
  - intros client i total book s Hclient Htitle Hremote.
    unfold tryBook. unfold bind at 1, gets at 1.
    unfold bind at 1, broadcastProgress at 1, emit at 1, modify at 1.
    unfold bind at 1, broadcastLog at 1, emit at 1, modify at 1.
    rewrite Htitle. replace (truthy title) with true by (by destruct title).
    unfold bind at 1, call at 1. simpl.
    rewrite Hclient, Hremote, Hfind. rewrite <- app_assoc. done.
Qed.

Lemma find_failure_witness :
  Notion.findBookByTitle queryDown (js "db") (js "Dune") freshApi
  = ({| world := tt;
        calls := [Fetched (readSchema (js "db"));
                  Fetched (titleQuery (js "db") (js "Name") (js "Dune"))] |},
     inr None).
Proof.
  apply (find_failure_reads_as_not_found unit queryDown (js "db") (js "Dune") freshApi
           {| world := tt; calls := [Fetched (readSchema (js "db"))] |}
           {| world := tt;
              calls := [Fetched (readSchema (js "db"));
                        Fetched (titleQuery (js "db") (js "Name") (js "Dune"))] |}
           [(js "Name", {| prop_type := js "title" |})] FetchRejected).
  - vm_compute. discriminate.
  - reflexivity.
  - reflexivity.
Defined.

End SyncClaims.

(** * Further properties of the code *)

(** ** The first pass of [extractAllBooksAuto], all books at once *)

Section PlannerWhole.
Import Content.

Variable notionCounts : gmap jsstring Z.
Variable localCache : option (gmap jsstring Z).
Variable testBookLimit : nat.

Local Abbreviation step := (planStep notionCounts localCache testBookLimit).
Local Abbreviation loop := (planLoop notionCounts localCache testBookLimit).
Local Abbreviation should := (shouldProcess notionCounts localCache testBookLimit).

Lemma shouldProcess_test_mode (st : PlanState) (i : nat) (c : Container) :
  (0 < testBookLimit)%nat →
  should st i c = (length (booksToProcess st) <? testBookLimit)%nat.
Proof.
  intros Hpos. unfold shouldProcess, decide_book, testModeActive.
  by destruct (Nat.ltb_spec 0 testBookLimit); [|lia].
Qed.

Lemma planLoop_test_mode (cs : list Container) (i : nat) (st : PlanState) :
  (0 < testBookLimit)%nat →
  (length (booksToProcess st) ≤ testBookLimit)%nat →
  booksToProcess (loop i cs st)
  = booksToProcess st
    ++ imap (λ k, bookEntry (i + k))
            (take (testBookLimit - length (booksToProcess st)) cs).
Proof.
  intros Hpos. revert i st. induction cs as [|c cs IH]; intros i st Hle; simpl.
  - by rewrite take_nil, app_nil_r.
  - pose proof (planStep_books notionCounts localCache testBookLimit st i c) as Hstep.
    rewrite shouldProcess_test_mode in Hstep by done.
    destruct (Nat.ltb_spec (length (booksToProcess st)) testBookLimit) as [Hlt|Hge].
    + rewrite IH by (rewrite Hstep, length_app; simpl; lia).
      rewrite Hstep, length_app. simpl.
      replace (testBookLimit - length (booksToProcess st))%nat
        with (S (testBookLimit - (length (booksToProcess st) + 1)))%nat by lia.
      rewrite <- app_assoc. simpl. rewrite Nat.add_0_r. do 2 f_equal.
      apply imap_ext. intros k x _. simpl. f_equal. lia.
    + rewrite IH by (rewrite Hstep; lia). rewrite Hstep.
      by replace (testBookLimit - length (booksToProcess st))%nat with 0%nat by lia.
Qed.

(** The queue is a subsequence of the library, entry for entry. *)
Lemma planLoop_sublist (cs : list Container) (i : nat) (st : PlanState) :
  ∃ more, booksToProcess (loop i cs st) = booksToProcess st ++ more
          ∧ sublist more (imap (λ k, bookEntry (i + k)) cs).
Proof.
  revert i st. induction cs as [|c cs IH]; intros i st; simpl.
  - exists []. by rewrite app_nil_r.
  - destruct (IH (S i) (step st i c)) as (more & Hmore & Hsub).
    assert (Hshift : imap ((λ k, bookEntry (i + k)) ∘ S) cs
                     = imap (λ k, bookEntry (S i + k)) cs).
    { apply imap_ext. intros k x _. simpl. f_equal. lia. }
    rewrite Hmore, planStep_books. destruct (should st i c).
    + exists (bookEntry i c :: more). rewrite <- app_assoc. split; [done|].
      rewrite Nat.add_0_r, Hshift. by constructor.
    + exists more. split; [done|]. rewrite Hshift. by constructor.
Qed.

Lemma planStep_accounting (st : PlanState) (i : nat) (c : Container) :
  testBookLimit = 0%nat →
  (skippedBooks (step st i c) + length (booksToProcess (step st i c))
   = S (skippedBooks st + length (booksToProcess st)))%nat.
Proof.
  intros Hlimit. unfold planStep, decide_book, testModeActive. rewrite Hlimit. simpl.
  destruct (isFirstSync notionCounts localCache); simpl;
    [rewrite length_app; simpl; lia|].
  destruct (useNotionCounts notionCounts && _); simpl;
    [|rewrite length_app; simpl; lia].
  destruct ((0 <? _) && JsObject.gt _ _); simpl; [rewrite length_app; simpl|]; lia.
Qed.

Lemma planLoop_accounting (cs : list Container) (i : nat) (st : PlanState) :
  testBookLimit = 0%nat →
  (skippedBooks (loop i cs st) + length (booksToProcess (loop i cs st))
   = skippedBooks st + length (booksToProcess st) + length cs)%nat.
Proof.
  intros Hlimit. revert i st. induction cs as [|c cs IH]; intros i st; simpl; [lia|].
  rewrite IH, planStep_accounting by done. lia.
Qed.

Lemma planStep_newCounts (st : PlanState) (i : nat) (c : Container) :
  newCounts (step st i c)
  = if 0 <? currentHighlightCount c
    then JsObject.set (makeBookKey (containerTitle i c)) (currentHighlightCount c)
           (newCounts st)
    else newCounts st.
Proof. unfold planStep. by destruct (decide_book _ _ _ _ _ _ _). Qed.

Lemma planLoop_newCounts_sound (cs : list Container) (i : nat) (st : PlanState)
    (key : jsstring) (v : Z) :
  newCounts (loop i cs st) !! key = Some v →
  newCounts st !! key = Some v
  ∨ ∃ n c, cs !! n = Some c ∧ makeBookKey (containerTitle (i + n) c) = key
           ∧ currentHighlightCount c = v ∧ 0 < v.
Proof.
  revert i st. induction cs as [|c cs IH]; intros i st; simpl; [tauto|].
  intros Hk. destruct (IH _ _ Hk) as [Hst|(n & c' & Hn & Hkey & Hv & Hpos)].
  - rewrite planStep_newCounts in Hst.
    destruct (Z.ltb_spec 0 (currentHighlightCount c)) as [Hpos|_]; [|tauto].
    apply lookup_set_Some in Hst as [Hst|[-> ->]]; [tauto|].
    right. exists 0%nat, c. by rewrite Nat.add_0_r.
  - right. exists (S n), c'. split; [done|].
    by replace (i + S n)%nat with (S i + n)%nat by lia.
Qed.

Lemma planLoop_newCounts_keeps (cs : list Container) (i : nat) (st : PlanState)
    (key : jsstring) :
  is_Some (newCounts st !! key) → is_Some (newCounts (loop i cs st) !! key).
Proof.
  revert i st. induction cs as [|c cs IH]; intros i st Hk; simpl; [done|].
  apply IH. rewrite planStep_newCounts.
  destruct (0 <? currentHighlightCount c); [|done].
  by apply lookup_set_keeps.
Qed.

Lemma planLoop_newCounts_complete (cs : list Container) (i : nat) (st : PlanState)
    (n : nat) (c : Container) :
  cs !! n = Some c →
  0 < currentHighlightCount c →
  makeBookKey (containerTitle (i + n) c) ≠ JsObject.proto →
  is_Some (newCounts (loop i cs st) !! makeBookKey (containerTitle (i + n) c)).
Proof.
  revert i st n. induction cs as [|c' cs IH]; intros i st n Hn Hpos Hkey; [done|].
  destruct n as [|n]; simpl in *.
  - injection Hn as ->. apply planLoop_newCounts_keeps.
    rewrite planStep_newCounts. rewrite Nat.add_0_r in Hkey |- *.
    destruct (Z.ltb_spec 0 (currentHighlightCount c)); [|lia].
    rewrite lookup_set_eq by done. eauto.
  - replace (i + S n)%nat with (S i + n)%nat in * by lia. by apply IH.
Qed.

(** The assignments of the loop give [newCounts] no key [__proto__]. *)
Lemma planLoop_newCounts_proto (cs : list Container) (i : nat) (st : PlanState) :
  newCounts st !! JsObject.proto = None →
  newCounts (loop i cs st) !! JsObject.proto = None.
Proof.
  revert i st. induction cs as [|c cs IH]; intros i st Hnone; simpl; [done|].
  apply IH. rewrite planStep_newCounts.
  destruct (0 <? currentHighlightCount c); [|done].
  by apply lookup_set_proto.
Qed.

End PlannerWhole.

Section PlannerExtras.
Import Content Scenario.

Lemma firstPass_skipped (notionCounts : gmap jsstring Z)
    (localCache : option (gmap jsstring Z)) (testBookLimit : nat)
    (bookContainers : list Container) :
  skippedBooks (firstPass notionCounts localCache testBookLimit bookContainers)
  = if testModeActive testBookLimit
    then Nat.max (length bookContainers
                  - length (booksToProcess
                              (firstPass notionCounts localCache testBookLimit
                                         bookContainers))) 0
    else skippedBooks (planLoop notionCounts localCache testBookLimit 0
                                bookContainers initialPlan).
Proof. reflexivity. Qed.

Lemma firstPass_test_mode (notionCounts : gmap jsstring Z)
    (localCache : option (gmap jsstring Z)) (testBookLimit : nat)
    (bookContainers : list Container) :
  (0 < testBookLimit)%nat →
  booksToProcess (firstPass notionCounts localCache testBookLimit bookContainers)
  = imap bookEntry (take testBookLimit bookContainers)
  ∧ skippedBooks (firstPass notionCounts localCache testBookLimit bookContainers)
    = (length bookContainers - testBookLimit)%nat.
Proof.
  intros Hpos.
  assert (Hbooks : booksToProcess (firstPass notionCounts localCache testBookLimit
                                     bookContainers)
                   = imap bookEntry (take testBookLimit bookContainers)).
  { rewrite firstPass_books, planLoop_test_mode by (simpl; lia). simpl.
    by rewrite Nat.sub_0_r. }
  split; [done|].
  rewrite firstPass_skipped, Hbooks. unfold testModeActive.
  destruct (Nat.ltb_spec 0 testBookLimit); [|lia].
  rewrite length_imap, length_take. lia.
Qed.

Lemma queued_imap (cs : list Container) (j : nat) :
  queued (imap bookEntry cs) j = bool_decide (j < length cs)%nat.
Proof.
  assert (Hshift : ∀ l i, queued (imap (λ k, bookEntry (i + k)) l) j
                          = bool_decide (i ≤ j < i + length l)%nat).
  { induction l as [|c l IH]; intros i.
    - simpl. symmetry. apply bool_decide_eq_false. lia.
    - rewrite imap_cons. unfold queued in *. simpl.
      erewrite (imap_ext _ (λ k, bookEntry (S i + k))); last first.
      { intros k x _. simpl. f_equal. lia. }
      rewrite IH, Nat.add_0_r. destruct (Nat.eqb_spec i j) as [->|Hne]; simpl.
      + symmetry. apply bool_decide_eq_true. lia.
      + apply bool_decide_ext. lia. }
  change (imap bookEntry cs) with (imap (λ k, bookEntry (0 + k)) cs).
  rewrite Hshift. apply bool_decide_ext. lia.
Qed.

(** X1.  In test mode the queue is the first [testBookLimit] books of the
    library (all of them when there are fewer), in order, whatever the
    remote counts, the cache and the live counts are; the skip counter is the
    number of books left out. *)
Theorem test_mode_queues_first_books (notionCounts : gmap jsstring Z)
    (localCache : option (gmap jsstring Z)) (testBookLimit : nat)
    (bookContainers : list Container) :
  (0 < testBookLimit)%nat →
  booksToProcess (firstPass notionCounts localCache testBookLimit bookContainers)
  = imap bookEntry (take testBookLimit bookContainers)
  ∧ skippedBooks (firstPass notionCounts localCache testBookLimit bookContainers)
    = (length bookContainers - testBookLimit)%nat
  ∧ (∀ j, queued (booksToProcess
                    (firstPass notionCounts localCache testBookLimit bookContainers)) j
          = bool_decide (j < testBookLimit ∧ j < length bookContainers)%nat).
Proof.
  intros Hpos.
  destruct (firstPass_test_mode notionCounts localCache testBookLimit bookContainers Hpos)
    as [Hbooks Hskipped].
  split; [done|]. split; [done|]. intros j. rewrite Hbooks, queued_imap, length_take.
  apply bool_decide_ext. lia.
Qed.

Lemma test_mode_queues_first_books_witness :
  booksToProcess (firstPass (remoteDune2 3) None 1 (dune2 (Some 3%N) ++ dune2 None))
  = imap bookEntry (take 1 (dune2 (Some 3%N) ++ dune2 None))
  ∧ skippedBooks (firstPass (remoteDune2 3) None 1 (dune2 (Some 3%N) ++ dune2 None))
    = (length (dune2 (Some 3%N) ++ dune2 None) - 1)%nat
  ∧ (∀ j, queued (booksToProcess
                    (firstPass (remoteDune2 3) None 1 (dune2 (Some 3%N) ++ dune2 None))) j
          = bool_decide (j < 1 ∧ j < length (dune2 (Some 3%N) ++ dune2 None))%nat).
Proof.
  apply (test_mode_queues_first_books (remoteDune2 3) None 1
           (dune2 (Some 3%N) ++ dune2 None)).
  lia.
Defined.

(** X2.  Without remote counts and outside test mode every book of the
    library is queued and none is counted as skipped, whatever the local
    cache holds: the cached counts decide nothing in [extractAllBooksAuto]. *)
Theorem without_remote_counts_every_book_is_queued
    (localCache : option (gmap jsstring Z)) (bookContainers : list Container) :
  booksToProcess (firstPass ∅ localCache 0 bookContainers) = imap bookEntry bookContainers
  ∧ skippedBooks (firstPass ∅ localCache 0 bookContainers) = 0%nat.
Proof.
  assert (Hall : ∀ cs i st,
            booksToProcess (planLoop ∅ localCache 0 i cs st)
            = booksToProcess st ++ imap (λ k, bookEntry (i + k)) cs
            ∧ skippedBooks (planLoop ∅ localCache 0 i cs st) = skippedBooks st).
  { induction cs as [|c cs IH]; intros i st; simpl.
    - by rewrite app_nil_r.
    - destruct (IH (S i) (planStep ∅ localCache 0 st i c)) as [-> ->].
      assert (Hstep : planStep ∅ localCache 0 st i c
                      = {| booksToProcess := booksToProcess st ++ [bookEntry i c];
                           newCounts := newCounts (planStep ∅ localCache 0 st i c);
                           skippedBooks := skippedBooks st |}).
      { unfold planStep, decide_book, testModeActive, bookEntry. simpl.
        by destruct (isFirstSync ∅ localCache). }
      rewrite Hstep. simpl. rewrite <- app_assoc. simpl.
      rewrite Nat.add_0_r. split; [|done]. do 2 f_equal.
      apply imap_ext. intros k x _. simpl. f_equal. lia. }
  rewrite firstPass_books. destruct (Hall bookContainers 0%nat initialPlan) as [Hb Hs].
  split; [by rewrite Hb|]. unfold firstPass, testModeActive. simpl. by rewrite Hs.
Qed.

(** X3.  In every mode the queue is a subsequence of the library: the books
    come in the order of the page, each at most once, each with the index,
    title, live count and key of its container. *)
Theorem queue_keeps_library_order (notionCounts : gmap jsstring Z)
    (localCache : option (gmap jsstring Z)) (testBookLimit : nat)
    (bookContainers : list Container) :
  sublist (booksToProcess (firstPass notionCounts localCache testBookLimit bookContainers))
          (imap bookEntry bookContainers).
Proof.
  rewrite firstPass_books.
  destruct (planLoop_sublist notionCounts localCache testBookLimit bookContainers 0
              initialPlan) as (more & -> & Hsub).
  done.
Qed.

(** X4.  The books queued and the books counted as skipped add up to the
    books of the library, in test mode and outside it. *)
Theorem queued_and_skipped_add_up (notionCounts : gmap jsstring Z)
    (localCache : option (gmap jsstring Z)) (testBookLimit : nat)
    (bookContainers : list Container) :
  (skippedBooks (firstPass notionCounts localCache testBookLimit bookContainers)
   + length (booksToProcess (firstPass notionCounts localCache testBookLimit bookContainers))
   = length bookContainers)%nat.
Proof.
  destruct (Nat.eq_dec testBookLimit 0%nat) as [Hzero|Hpos].
  - rewrite firstPass_books. unfold firstPass, testModeActive. rewrite Hzero. simpl.
    rewrite (planLoop_accounting notionCounts localCache 0 bookContainers 0 initialPlan)
      by done.
    simpl. lia.
  - destruct (firstPass_test_mode notionCounts localCache testBookLimit
                bookContainers) as [-> ->]; [lia|].
    rewrite length_imap, length_take. lia.
Qed.

End PlannerExtras.

Section ObservedCounts.
Import Content Scenario.

Lemma planLoop_newCounts_independent (nc nc' : gmap jsstring Z)
    (lc lc' : option (gmap jsstring Z)) (limit limit' : nat)
    (cs : list Container) (i : nat) (st st' : PlanState) :
  newCounts st = newCounts st' →
  newCounts (planLoop nc lc limit i cs st) = newCounts (planLoop nc' lc' limit' i cs st').
Proof.
  revert i st st'. induction cs as [|c cs IH]; intros i st st' Heq; simpl; [done|].
  apply IH. by rewrite !planStep_newCounts, Heq.
Qed.

Lemma firstPass_newCounts (nc : gmap jsstring Z) (lc : option (gmap jsstring Z))
    (limit : nat) (cs : list Container) :
  newCounts (firstPass nc lc limit cs) = newCounts (planLoop nc lc limit 0 cs initialPlan).
Proof. reflexivity. Qed.

Lemma firstPass_newCounts_sound (nc : gmap jsstring Z) (lc : option (gmap jsstring Z))
    (limit : nat) (cs : list Container) (key : jsstring) (v : Z) :
  newCounts (firstPass nc lc limit cs) !! key = Some v →
  0 < v ∧ ∃ n c, cs !! n = Some c ∧ makeBookKey (containerTitle n c) = key
                 ∧ currentHighlightCount c = v.
Proof.
  rewrite firstPass_newCounts. intros Hk.
  destruct (planLoop_newCounts_sound nc lc limit cs 0 initialPlan key v Hk)
    as [Hempty|(n & c & Hn & Hkey & Hv & Hpos)].
  - simpl in Hempty. by rewrite lookup_empty in Hempty.
  - split; [done|]. exists n, c. done.
Qed.

(** X5.  The counts put aside for the cache do not depend on the remote
    counts, the cache or the test limit, nor on which books were queued.
    Each recorded value is the positive live count of a book of the library
    with that key; every book with a positive live count has its key
    recorded, unless the key is [__proto__]: the assignment to that key
    stores nothing, and [__proto__] is never a key of the counts. *)
Theorem observed_counts_are_recorded (notionCounts : gmap jsstring Z)
    (localCache : option (gmap jsstring Z)) (testBookLimit : nat)
    (bookContainers : list Container) :
  newCounts (firstPass notionCounts localCache testBookLimit bookContainers)
  = newCounts (firstPass ∅ None 0 bookContainers)
  ∧ (∀ key v,
       newCounts (firstPass notionCounts localCache testBookLimit bookContainers) !! key
       = Some v →
       0 < v ∧ ∃ n c, bookContainers !! n = Some c
                      ∧ makeBookKey (containerTitle n c) = key
                      ∧ currentHighlightCount c = v)
  ∧ (∀ n c,
       bookContainers !! n = Some c →
       0 < currentHighlightCount c →
       makeBookKey (containerTitle n c) ≠ JsObject.proto →
       is_Some (newCounts (firstPass notionCounts localCache testBookLimit bookContainers)
                !! makeBookKey (containerTitle n c)))
  ∧ newCounts (firstPass notionCounts localCache testBookLimit bookContainers)
    !! JsObject.proto = None.
Proof.
  split; [|split; [|split]].
  - rewrite !firstPass_newCounts. by apply planLoop_newCounts_independent.
  - apply firstPass_newCounts_sound.
  - intros n c Hn Hpos Hkey. rewrite firstPass_newCounts.
    apply (planLoop_newCounts_complete notionCounts localCache testBookLimit
             bookContainers 0 initialPlan n c Hn Hpos Hkey).
  - rewrite firstPass_newCounts. by apply planLoop_newCounts_proto.
Qed.

(** X6.  Without remote counts the run saves the old cache merged with what
    it observed: whatever the library, the test limit and the outcome of the
    write, every key of the old cache is still there, and a value that is not
    the old one is the positive live count of a book of the library with that
    key. *)
Theorem local_mode_merges_into_cache (old : gmap jsstring Z) (testBookLimit : nat)
    (bookContainers : list Container) (setOk : bool) :
  ∃ stored,
    extractAllBooksAuto_stored ∅ (Some old) testBookLimit bookContainers setOk
    = Some stored
    ∧ (∀ key, is_Some (old !! key) → is_Some (stored !! key))
    ∧ (∀ key v,
         stored !! key = Some v →
         old !! key = Some v
         ∨ (0 < v ∧ ∃ n c, bookContainers !! n = Some c
                           ∧ makeBookKey (containerTitle n c) = key
                           ∧ currentHighlightCount c = v)).
Proof.
  unfold extractAllBooksAuto_stored.
  destruct bookContainers as [|c cs]; [exists old; eauto|].
  destruct setOk; [|exists old; eauto].
  eexists. split; [reflexivity|].
  change (savedCounts ∅ (Some old)) with old. split.
  - intros key Hkey. apply lookup_union_is_Some. by right.
  - intros key v Hv. apply lookup_union_Some_raw in Hv as [Hnew|[_ Hold]]; [|by left].
    right. by apply (firstPass_newCounts_sound ∅ (Some old) testBookLimit).
Qed.

End ObservedCounts.

(** ** The first pass of [extractAllBooksAutoWithProgress] *)

Section PlannerWithProgress.
Import Content Scenario.

Variable localCache : option (gmap jsstring Z).

(** The test of the loop outside test mode. *)
Local Abbreviation changed c key :=
  (isFirstSyncP localCache
   || JsObject.differs (currentHighlightCount c)
        (JsObject.orZero (JsObject.get (savedCountsP localCache) key))
   || (currentHighlightCount c =? -1)).

Lemma planStepP_books (st : PlanState) (i : nat) (c : Container) :
  booksToProcess (planStepP localCache 0 st i c)
  = if changed c (makeBookKey (containerTitle i c))
    then booksToProcess st ++ [bookEntry i c]
    else booksToProcess st.
Proof. reflexivity. Qed.

Lemma queued_planLoopP_before (cs : list Container) (i j : nat) (st : PlanState) :
  (j < i)%nat →
  queued (booksToProcess (planLoopP localCache 0 i cs st)) j
  = queued (booksToProcess st) j.
Proof.
  revert i st. induction cs as [|c cs IH]; intros i st Hlt; simpl; [done|].
  rewrite IH by lia. rewrite planStepP_books.
  destruct (changed c _); [|done].
  rewrite queued_app. simpl.
  destruct (Nat.eqb_spec i j); [lia|]. by rewrite !orb_false_r.
Qed.

Lemma queued_planLoopP (cs : list Container) (i j : nat) (st : PlanState) (c : Container) :
  cs !! j = Some c →
  queued (booksToProcess st) (i + j) = false →
  queued (booksToProcess (planLoopP localCache 0 i cs st)) (i + j)
  = changed c (makeBookKey (containerTitle (i + j) c)).
Proof.
  revert i j st. induction cs as [|c' cs IH]; intros i j st Hj Hnone; [done|].
  destruct j as [|j]; simpl in *.
  - injection Hj as ->. rewrite Nat.add_0_r in *.
    rewrite queued_planLoopP_before by lia. rewrite planStepP_books.
    destruct (changed c _); [|done].
    rewrite queued_app. simpl. by rewrite Nat.eqb_refl, orb_true_r.
  - replace (i + S j)%nat with (S i + j)%nat in * by lia.
    apply IH; [done|]. rewrite planStepP_books.
    destruct (changed c' _); [|done].
    rewrite queued_app, Hnone. simpl.
    destruct (Nat.eqb_spec i (S (i + j))); [lia|done].
Qed.

(** X7.  Outside test mode [extractAllBooksAutoWithProgress] queues a book
    exactly when the cache is empty, or its live count differs from what the
    cache gives for its key, or its live count is unknown.  What the cache
    gives is the cached count of the key; for a key that is not in the cache
    it is 0, unless the key names a member every object inherits
    ([constructor], [__proto__], ...): that member is no number and differs
    from every count.  So a book of unknown count is always queued there. *)
Theorem with_progress_queues_changed_books (bookContainers : list Container)
    (j : nat) (c : Container) :
  bookContainers !! j = Some c →
  (queued (booksToProcess (planLoopP localCache 0 0 bookContainers initialPlan)) j = true
   ↔ savedCountsP localCache = ∅
     ∨ match savedCountsP localCache !! makeBookKey (containerTitle j c) with
       | Some cached => currentHighlightCount c ≠ cached
       | None => JsObject.inherited (makeBookKey (containerTitle j c)) = true
                 ∨ currentHighlightCount c ≠ 0
       end
     ∨ currentHighlightCount c = -1)
  ∧ (currentHighlightCount c = -1 →
     queued (booksToProcess (planLoopP localCache 0 0 bookContainers initialPlan)) j = true).
Proof.
  intros Hj.
  pose proof (queued_planLoopP bookContainers 0 j initialPlan c Hj) as Hq.
  simpl in Hq. specialize (Hq eq_refl). rewrite Hq.
  assert (Hiff : changed c (makeBookKey (containerTitle j c)) = true
                 ↔ savedCountsP localCache = ∅
                   ∨ match savedCountsP localCache !! makeBookKey (containerTitle j c) with
                     | Some cached => currentHighlightCount c ≠ cached
                     | None => JsObject.inherited (makeBookKey (containerTitle j c)) = true
                               ∨ currentHighlightCount c ≠ 0
                     end
                   ∨ currentHighlightCount c = -1).
  { rewrite !orb_true_iff, Z.eqb_eq.
    unfold isFirstSyncP. rewrite bool_decide_eq_true, map_size_empty_iff.
    unfold JsObject.get.
    destruct (savedCountsP localCache !! makeBookKey (containerTitle j c)) as [cached|];
      simpl.
    - rewrite negb_true_iff, Z.eqb_neq. tauto.
    - destruct (JsObject.inherited (makeBookKey (containerTitle j c))); simpl.
      + tauto.
      + rewrite negb_true_iff, Z.eqb_neq. intuition congruence. }
  split; [done|]. intros Hunknown. apply Hiff. tauto.
Qed.

End PlannerWithProgress.

Section PlannerWithProgressWitness.
Import Content Scenario.

(** A book whose key is [constructor] and whose live count is 0 is queued,
    though the cache does not hold the key. *)
Lemma with_progress_queues_changed_books_witness :
  (queued (booksToProcess
             (planLoopP (Some oldCache) 0 0
                [{| h2Text := Some (js "constructor"); highlightMatch := Some 0%N |}]
                initialPlan)) 0 = true
   ↔ savedCountsP (Some oldCache) = ∅
     ∨ match savedCountsP (Some oldCache) !! js "constructor" with
       | Some cached => 0 ≠ cached
       | None => JsObject.inherited (js "constructor") = true ∨ 0 ≠ 0
       end
     ∨ 0 = -1)
  ∧ (0 = -1 →
     queued (booksToProcess
               (planLoopP (Some oldCache) 0 0
                  [{| h2Text := Some (js "constructor"); highlightMatch := Some 0%N |}]
                  initialPlan)) 0 = true).
Proof.
  apply (with_progress_queues_changed_books (Some oldCache)
           [{| h2Text := Some (js "constructor"); highlightMatch := Some 0%N |}] 0
           {| h2Text := Some (js "constructor"); highlightMatch := Some 0%N |}).
  reflexivity.
Defined.

End PlannerWithProgressWitness.


(** ** More on the normaliser and on the readiness detector *)

Section NormaliserExtras.
Import Content.

Lemma trimStart_split (s : jsstring) :
  ∃ spaces, s = spaces ++ trimStart s ∧ Forall (λ c, is_space c = true) spaces.
Proof.
  induction s as [|c s (spaces & Hs & Hall)]; simpl.
  - exists []. done.
  - destruct (is_space c) eqn:Hc.
    + exists (c :: spaces). split; [by rewrite Hs at 1|by constructor].
    + exists []. done.
Qed.

(** [trim] takes white space away at both ends and nothing else. *)
Lemma trim_split (s : jsstring) :
  ∃ before after, s = before ++ trim s ++ after
                  ∧ Forall (λ c, is_space c = true) before
                  ∧ Forall (λ c, is_space c = true) after.
Proof.
  destruct (trimStart_split s) as (before & Hs & Hbefore).
  destruct (trimStart_split (rev (trimStart s))) as (after & Hr & Hafter).
  exists before, (rev after). split; [|split; [done|by apply Forall_rev]].
  unfold trim, trimEnd. rewrite Hs at 1. f_equal.
  rewrite <- (rev_involutive (trimStart s)) at 1. rewrite Hr at 1.
  by rewrite rev_app_distr.
Qed.

Lemma remove_class_all (cls : N → bool) (s : jsstring) :
  Forall (λ c, cls c = true) s → remove_class cls s = [].
Proof.
  induction 1 as [|c s Hc _ IH]; [done|]. unfold remove_class in *. simpl.
  by rewrite Hc.
Qed.

Lemma remove_class_app (cls : N → bool) (s t : jsstring) :
  remove_class cls (s ++ t) = remove_class cls s ++ remove_class cls t.
Proof. apply List.filter_app. Qed.

Lemma space_in_normalize_class (c : N) : is_space c = true → normalize_class c = true.
Proof. intros Hc. unfold normalize_class. by rewrite Hc. Qed.

Lemma normalizeTitle_trim (title : jsstring) :
  normalizeTitle (trim title) = normalizeTitle title.
Proof.
  destruct (trim_split title) as (before & after & Hs & Hbefore & Hafter).
  unfold normalizeTitle. rewrite Hs at 2. rewrite !remove_class_app.
  rewrite (remove_class_all _ before), (remove_class_all _ after), app_nil_r; [done| |].
  - eapply Forall_impl; [exact Hafter|]. apply space_in_normalize_class.
  - eapply Forall_impl; [exact Hbefore|]. apply space_in_normalize_class.
Qed.

Lemma remove_class_sublist (cls : N → bool) (s : jsstring) :
  sublist (remove_class cls s) s.
Proof.
  unfold remove_class. induction s as [|c s IH]; simpl; [constructor|].
  destruct (negb (cls c)); constructor; exact IH.
Qed.

Lemma normalizeTitle_clean (title : jsstring) :
  Forall (λ c, normalize_class c = false) (normalizeTitle title).
Proof.
  unfold normalizeTitle. rewrite substring_from_0. apply Forall_take.
  eapply Forall_impl; [apply remove_class_clean|].
  intros c Hc. cbv beta in Hc. apply negb_true_iff in Hc. exact Hc.
Qed.

(** X8.  The normalised title has at most 30 code units, none of them white
    space or one of the stripped punctuation marks; it is a subsequence of
    the title, and white space around the title does not change it. *)
Theorem normalised_title_is_clean (title : jsstring) :
  (length (normalizeTitle title) ≤ 30)%nat
  ∧ Forall (λ c, normalize_class c = false) (normalizeTitle title)
  ∧ sublist (normalizeTitle title) title
  ∧ normalizeTitle (trim title) = normalizeTitle title.
Proof.
  split; [apply normalizeTitle_length|]. split; [apply normalizeTitle_clean|].
  split; [|apply normalizeTitle_trim].
  unfold normalizeTitle. rewrite substring_from_0.
  etrans; [apply sublist_take|]. apply remove_class_sublist.
Qed.

(** X9.  The cache key has as many code units as the title, at most 50;
    each is an ASCII letter or digit, a kana, a CJK ideograph or an
    underscore; the key is read off the first 50 code units alone, so titles
    that agree on them share one cache entry. *)
Theorem cache_key_shape (title : jsstring) :
  length (makeBookKey title) = Nat.min 50 (length title)
  ∧ Forall (λ c, key_class c = true ∨ c = underscore) (makeBookKey title)
  ∧ makeBookKey (take 50 title) = makeBookKey title
  ∧ (∀ other, take 50 other = take 50 title → makeBookKey other = makeBookKey title).
Proof.
  assert (Hdef : ∀ t, makeBookKey t
                      = (λ c, if key_class c then c else underscore) <$> take 50 t).
  { intros t. unfold makeBookKey, replace_outside. by rewrite substring_from_0. }
  split; [|split; [|split]].
  - rewrite Hdef, length_fmap, length_take. done.
  - rewrite Hdef. apply Forall_fmap, Forall_forall. intros c _. unfold compose. cbv beta.
    destruct (key_class c) eqn:Hc; [left; exact Hc | right; reflexivity].
  - rewrite !Hdef, take_take. done.
  - intros other Heq. by rewrite !Hdef, Heq.
Qed.

End NormaliserExtras.

Section ReadinessExtras.
Import Content.

Lemma split_class_elems (cls : N → bool) (s seg : jsstring) (c : N) :
  seg ∈ split_class cls s → c ∈ seg → c ∈ s.
Proof.
  revert seg. induction s as [|d s IH]; intros seg Hseg Hc; simpl in Hseg.
  - apply list_elem_of_singleton in Hseg as ->. done.
  - destruct (cls d).
    + apply elem_of_cons in Hseg as [->|Hseg]; [by apply elem_of_nil in Hc|].
      right. by apply (IH seg).
    + destruct (split_class cls s) as [|p ps] eqn:Hsplit.
      * apply list_elem_of_singleton in Hseg as ->.
        apply list_elem_of_singleton in Hc as ->. left.
      * apply elem_of_cons in Hseg as [->|Hseg].
        -- apply elem_of_cons in Hc as [->|Hc]; [left|].
           right. apply (IH p); [left|done].
        -- right. apply (IH seg); [by right|done].
Qed.

Lemma trim_elems (s : jsstring) (c : N) : c ∈ trim s → c ∈ s.
Proof.
  destruct (trim_split s) as (before & after & Hs & _ & _).
  intros Hc. rewrite Hs, !elem_of_app. tauto.
Qed.

Lemma normalizeTitle_nil_all (title : jsstring) :
  normalizeTitle title = [] ↔ Forall (λ c, normalize_class c = true) title.
Proof.
  unfold normalizeTitle. rewrite substring_from_0. split.
  - intros Hnil.
    assert (Hfilter : remove_class normalize_class title = []).
    { destruct (remove_class normalize_class title); [done|discriminate]. }
    unfold remove_class in Hfilter. clear Hnil.
    induction title as [|c title IH]; [constructor|].
    cbn [List.filter] in Hfilter.
    destruct (normalize_class c) eqn:Hc; [|discriminate].
    constructor; [exact Hc | by apply IH].
  - intros Hall. by rewrite remove_class_all.
Qed.

(** A title made of stripped characters only has no variant but the empty
    one. *)
Lemma expectedVariants_of_punctuation (expected v : jsstring) :
  normalizeTitle expected = [] → v ∈ expectedVariants expected → v = [].
Proof.
  intros Hnil Hv. apply expectedVariants_spec in Hv.
  rewrite Hnil in Hv. simpl in Hv.
  destruct Hv as [->|[(part & Hpart & ->)|[[Hlt _]|[Hlt _]]]]; [done| |lia|lia].
  apply normalizeTitle_nil_all, Forall_forall. intros c Hc.
  apply normalizeTitle_nil_all in Hnil.
  apply elem_of_splitTitle in Hpart as (_ & seg & Hseg & ->).
  apply trim_elems in Hc.
  eapply (proj1 (Forall_forall _ _) Hnil), split_class_elems; eauto.
Qed.

(** X10.  A title matches itself exactly when its normalised form is not
    empty; a title whose normalised form is empty (white space and stripped
    punctuation only) is matched by no panel title at all, so for such a book
    only the change of the highlights can report readiness. *)
Theorem title_matches_itself (title : jsstring) :
  (matchesExpected title title = true ↔ normalizeTitle title ≠ [])
  ∧ (normalizeTitle title = [] → ∀ current, matchesExpected title current = false).
Proof.
  assert (Hnone : normalizeTitle title = []
                  → ∀ current, matchesExpected title current = false).
  { intros Hnil current. apply not_true_is_false. intros Hm.
    apply matchesExpected_spec in Hm as (_ & v & Hv & Hne & _).
    by apply Hne, (expectedVariants_of_punctuation title). }
  split; [|done]. split.
  - intros Hm Hnil. by rewrite Hnone in Hm.
  - intros Hne. apply matchesExpected_spec. split.
    + intros ->. by apply Hne.
    + exists (normalizeTitle title). split; [|split; [done|]].
      * apply expectedVariants_spec. by left.
      * left. exists [], []. by rewrite app_nil_r.
Qed.

(** X11.  [waitForTitleUpdate] answers [true] exactly when the expected
    title is empty, or the page at the call already shows a matching title,
    or some page seen before the timeout shows a matching title or shows
    highlights whose signature is not empty and differs from the one at the
    call while the clicked book is marked selected.  Otherwise the timer
    answers [false]. *)
Theorem readiness_exactly (expected : jsstring) (now : Snapshot) (later : list Snapshot) :
  waitForTitleUpdate expected now later = true
  ↔ expected = []
    ∨ matchesExpected expected (panelTitle now) = true
    ∨ ∃ page, page ∈ later
              ∧ (matchesExpected expected (panelTitle page) = true
                 ∨ (highlightSignature page ≠ []
                    ∧ highlightSignature page ≠ highlightSignature now
                    ∧ bookSelected page = true)).
Proof.
  assert (Hready : ∀ page,
            isReady expected (highlightSignature now) page = true
            ↔ matchesExpected expected (panelTitle page) = true
              ∨ (highlightSignature page ≠ []
                 ∧ highlightSignature page ≠ highlightSignature now
                 ∧ bookSelected page = true)).
  { intros page.
    assert (Hbool : isReady expected (highlightSignature now) page
                    = matchesExpected expected (panelTitle page)
                      || (truthy (highlightSignature page)
                          && negb (bool_decide (highlightSignature page
                                                = highlightSignature now))
                          && bookSelected page)).
    { unfold isReady. destruct (matchesExpected _ _); [done|].
      by destruct (_ && _ && _). }
    rewrite Hbool, orb_true_iff, !andb_true_iff, negb_true_iff, bool_decide_eq_false.
    assert (truthy (highlightSignature page) = true ↔ highlightSignature page ≠ [])
      by (destruct (highlightSignature page); simpl; split; congruence).
    tauto. }
  unfold waitForTitleUpdate. destruct expected as [|c expected]; simpl; [tauto|].
  destruct (isReady (c :: expected) (highlightSignature now) now) eqn:Hnow.
  - apply Hready in Hnow as [Hm|(_ & Hne & _)]; [tauto|done].
  - rewrite existsb_exists. setoid_rewrite <- list_elem_of_In.
    setoid_rewrite Hready. split.
    + intros (page & Hin & Hp). right. right. eauto.
    + intros [|[Hm|(page & Hin & Hp)]]; [done| |eauto].
      assert (isReady (c :: expected) (highlightSignature now) now = true)
        by (apply Hready; tauto).
      congruence.
Qed.

End ReadinessExtras.

(** ** More on the Notion client *)

Section ClientExtras.
Import Notion.

Variable World : Type.
Variable fetch : World → Request → World * option Response.
Variable clock : World → jsstring.

Lemma batchLoop_any_service (pageId : jsstring) (children : list Block) (n i : nat)
    (s : ApiSt World) :
  (length children - i ≤ n)%nat →
  ∃ s' r batches rest,
    batchLoop fetch pageId children i s = (s', r)
    ∧ calls s' = calls s ++ committed pageId batches
    ∧ drop i children = concat batches ++ rest
    ∧ Forall (λ b, (0 < length b ≤ 100)%nat) batches
    ∧ (r = inr tt → rest = [])
    ∧ ((i < length children)%nat → batches ≠ [])
    ∧ sent fetch pageId s batches s' r
    ∧ (∀ before batch after, batches = before ++ batch :: after →
         batch = take 100 (concat (batch :: after) ++ rest)).
Proof.
  revert i s. induction n as [|n IH]; intros i s Hn.
  - exists s, (inr tt), [], []. rewrite batchLoop_equation_1.
    destruct (decide (i < length children)%nat) as [Hlt|Hge]; [lia|].
    unfold batchLoop_unfold_clause_1.
    rewrite app_nil_r, drop_ge by lia.
    repeat (split; [done || lia|]). split; [constructor|].
    intros before batch after Hsplit. by destruct before.
  - rewrite batchLoop_equation_1.
    destruct (decide (i < length children)%nat) as [Hlt|Hge];
      unfold batchLoop_unfold_clause_1.
    + assert (Hslice : slice i (i + batchSize) children = take 100 (drop i children)).
      { unfold slice, batchSize. f_equal. lia. }
      assert (Hlen : (0 < length (take 100 (drop i children)) ≤ 100)%nat).
      { rewrite length_take, length_drop. lia. }
      assert (Hsplit : drop i children
                       = take 100 (drop i children) ++ drop (i + batchSize) children).
      { unfold batchSize. rewrite <- (take_drop 100 (drop i children)) at 1.
        by rewrite drop_drop. }
      assert (Hone : ∀ rest before batch after,
                drop i children = take 100 (drop i children) ++ rest →
                [take 100 (drop i children)] = before ++ batch :: after →
                batch = take 100 (concat (batch :: after) ++ rest)).
      { intros rest before batch after Hcat Heq.
        destruct before as [|b0 before]; [|by destruct before].
        injection Heq as <- <-. simpl. by rewrite app_nil_r, <- Hcat. }
      unfold bind at 1.
      destruct (request fetch _ s) as [s1 [e|d]] eqn:Hreq.
      * exists s1, (inl e), [take 100 (drop i children)], (drop (i + batchSize) children).
        split; [done|]. split.
        { rewrite (request_calls _ fetch _ _ _ _ Hreq), Hslice. done. }
        split; [simpl; by rewrite app_nil_r|].
        split; [constructor; [exact Hlen|constructor]|].
        split; [done|]. split; [done|]. split.
        { rewrite Hslice in Hreq. by eapply sent_thrown. }
        intros before batch after. by apply Hone.
      * pose proof (request_calls _ fetch _ _ _ _ Hreq) as Hcalls.
        rewrite Hslice in Hreq.
        destruct (decide (i + batchSize < length children)%nat) as [Hmore|Hlast];
          unfold bind, Notion.delay, modify, ret.
        -- destruct (IH (i + batchSize)%nat
                       {| world := world s1; calls := calls s1 ++ [Delayed 350] |})
             as (s' & r & batches & rest & Hrun & Htr & Hcat & Hall & Hdone & Hne
                 & Hsent & Htake);
             [unfold batchSize; lia|].
           exists s', r, (take 100 (drop i children) :: batches), rest.
           split; [done|]. split.
           { rewrite committed_cons by auto. rewrite Htr. simpl.
             rewrite Hcalls, Hslice. by rewrite <- !app_assoc. }
           split; [simpl; by rewrite <- app_assoc, <- Hcat|].
           split; [by constructor|]. split; [done|]. split; [done|]. split.
           { destruct batches as [|next more]; [by destruct Hne|].
             by eapply sent_more. }
           intros before batch after Heq.
           destruct before as [|b0 before].
           ++ injection Heq as <- <-. simpl.
              rewrite <- app_assoc, <- Hcat. by rewrite Hsplit at 1.
           ++ injection Heq as _ Heq. by apply (Htake before).
        -- assert (Hend : batchLoop fetch pageId children (i + batchSize) s1
                          = (s1, inr tt)).
           { rewrite batchLoop_equation_1.
             by destruct (decide (i + batchSize < length children)%nat) as [?|?]; [lia|]. }
           exists s1, (inr tt), [take 100 (drop i children)], [].
           split; [done|]. split; [by rewrite Hcalls, Hslice|].
           split.
           { simpl. rewrite !app_nil_r. symmetry. apply take_ge.
             rewrite length_drop. unfold batchSize in *. lia. }
           split; [constructor; [exact Hlen|constructor]|].
           split; [done|]. split; [done|]. split; [by eapply sent_last|].
           intros before batch after. apply Hone.
           rewrite app_nil_r. symmetry. apply take_ge.
           rewrite length_drop. unfold batchSize in *. lia.
    + exists s, (inr tt), [], []. rewrite app_nil_r, drop_ge by lia.
      repeat (split; [done || lia|]). split; [constructor|].
      intros before batch after Hsplit. by destruct before.
Qed.

(** X12.  Whatever the service answers, [addHighlightBlocks] sends the
    blocks of the highlights in appends of at most 100 blocks, each append
    taking the next 100 blocks that remain (all of them when fewer remain),
    with a delay of 350 ms between two appends.  An append is only sent
    when every append before it was answered: the loop stops at the first
    append that throws, which is then the last event, and throws what that
    append threw.  When it returns normally every block was sent.  With no
    highlight it sends nothing. *)
Theorem batches_whatever_the_service (pageId : jsstring) (highlights : list Highlight)
    (s : ApiSt World) :
  ∃ s' r batches rest,
    addHighlightBlocks fetch pageId highlights s = (s', r)
    ∧ calls s' = calls s ++ committed pageId batches
    ∧ highlightBlock <$> highlights = concat batches ++ rest
    ∧ Forall (λ b, (0 < length b ≤ 100)%nat) batches
    ∧ (r = inr tt → rest = [])
    ∧ (highlights = [] → s' = s ∧ r = inr tt)
    ∧ (highlights ≠ [] → batches ≠ [])
    ∧ sent fetch pageId s batches s' r
    ∧ (∀ before batch after, batches = before ++ batch :: after →
         batch = take 100 (concat (batch :: after) ++ rest)).
Proof.
  unfold addHighlightBlocks.
  destruct (batchLoop_any_service pageId (highlightBlock <$> highlights)
              (length highlights) 0 s)
    as (s' & r & batches & rest & Hrun & Htr & Hcat & Hall & Hdone & Hne & Hsent & Htake).
  { rewrite length_fmap. lia. }
  exists s', r, batches, rest. rewrite drop_0 in Hcat.
  repeat (split; [done|]). split; [|split; [|done]].
  - intros ->. simpl in Hrun. rewrite batchLoop_equation_1 in Hrun.
    simpl in Hrun. by injection Hrun as <- <-.
  - intros Hsome. apply Hne. rewrite length_fmap.
    destruct highlights; [done|simpl; lia].
Qed.

Lemma getDatabase_throws_through (databaseId : jsstring) (s s1 : ApiSt World) (e : Exn) :
  getDatabase fetch databaseId s = (s1, inl e) →
  (∀ title, Notion.findBookByTitle fetch databaseId title s = (s1, inl e))
  ∧ (∀ pageId bookData,
       updateBookPage fetch clock pageId bookData databaseId s = (s1, inl e)).
Proof.
  intros Hdb. split.
  - intros title. unfold Notion.findBookByTitle, bind. by rewrite Hdb.
  - intros pageId bookData. unfold updateBookPage, bind. by rewrite Hdb.
Qed.

(** X13.  A schema read that throws is not caught: [findBookByTitle] and
    [updateBookPage] throw the same error, having issued that one request.
    An answer to the schema read that is not a database object makes both
    throw a [TypeError], again without a second request. *)
Theorem schema_failure_is_thrown_on (databaseId : jsstring) (s s1 : ApiSt World)
    (outcome : Exn + Json) :
  getDatabase fetch databaseId s = (s1, outcome) →
  (∀ properties, outcome ≠ inr (JDatabase properties)) →
  ∃ e, (∀ title, Notion.findBookByTitle fetch databaseId title s = (s1, inl e))
       ∧ (∀ pageId bookData,
            updateBookPage fetch clock pageId bookData databaseId s = (s1, inl e))
       ∧ (∀ thrown, outcome = inl thrown → e = thrown)
       ∧ (∀ answer, outcome = inr answer → e = TypeError)
       ∧ calls s1 = calls s ++ [Fetched (readSchema databaseId)].
Proof.
  intros Hdb Hnot.
  pose proof (request_calls _ fetch _ _ _ _ Hdb) as Hcalls.
  destruct outcome as [thrown|answer].
  - exists thrown. destruct (getDatabase_throws_through _ _ _ _ Hdb) as [Hfind Hupd].
    split; [done|]. split; [done|]. split; [by intros ? [= ->]|]. split; [done|done].
  - exists TypeError.
    assert (Hprops : properties_of answer = inl TypeError).
    { destruct answer; try done. by destruct (Hnot properties). }
    split; [|split; [|split; [done|split; [done|done]]]].
    + intros title. unfold Notion.findBookByTitle, bind at 1. rewrite Hdb.
      unfold bind. by rewrite Hprops.
    + intros pageId bookData. unfold updateBookPage, bind at 1. rewrite Hdb.
      unfold bind. by rewrite Hprops.
Qed.

End ClientExtras.

Section ClientExtrasWitnesses.
Import Notion Scenario Scenario2.

Lemma schema_failure_witness :
  ∃ e, (∀ title, Notion.findBookByTitle unreachable (js "db") title freshApi
                 = ({| world := tt; calls := [Fetched (readSchema (js "db"))] |}, inl e))
       ∧ (∀ pageId bookData,
            updateBookPage unreachable noClock pageId bookData (js "db") freshApi
            = ({| world := tt; calls := [Fetched (readSchema (js "db"))] |}, inl e))
       ∧ (∀ thrown, (inl FetchRejected : Exn + Json) = inl thrown → e = thrown)
       ∧ (∀ answer, (inl FetchRejected : Exn + Json) = inr answer → e = TypeError)
       ∧ calls {| world := tt; calls := [Fetched (readSchema (js "db"))] |}
         = calls freshApi ++ [Fetched (readSchema (js "db"))].
Proof.
  apply (schema_failure_is_thrown_on unit unreachable noClock (js "db") freshApi
           {| world := tt; calls := [Fetched (readSchema (js "db"))] |}
           (inl FetchRejected)).
  - reflexivity.
  - intros properties. discriminate.
Defined.

End ClientExtrasWitnesses.

Section ClientResults.
Import Notion Scenario Scenario2.

Variable World : Type.
Variable fetch : World → Request → World * option Response.
Variable clock : World → jsstring.

(** X14.  Once the schema is read, [findBookByTitle] asks for the pages
    whose title property (the first property of type [title], [Name] when
    there is none) equals the title, and returns the first page of the answer,
    [null] when the answer is empty or is not a list.  For an empty title it
    asks nothing and returns [null]. *)
Theorem find_returns_first_page (databaseId title : jsstring) (s s1 : ApiSt World)
    (dbProperties : list (jsstring * PropConfig)) :
  getDatabase fetch databaseId s = (s1, inr (JDatabase dbProperties)) →
  (title = [] → Notion.findBookByTitle fetch databaseId title s = (s1, inr None))
  ∧ (title ≠ [] →
     ∀ s2 answer,
       request fetch (titleQuery databaseId (titlePropertyName dbProperties) title) s1
       = (s2, inr answer) →
       Notion.findBookByTitle fetch databaseId title s
       = (s2, inr match answer with
                  | JList (first :: _) => Some first
                  | _ => None
                  end)).
Proof.
  intros Hdb. split.
  - intros ->. unfold Notion.findBookByTitle, bind. rewrite Hdb. done.
  - intros Hne s2 answer Hquery.
    unfold Notion.findBookByTitle, bind at 1. rewrite Hdb. simpl.
    unfold bind at 1. simpl.
    replace (truthy title) with true by (by destruct title).
    unfold try_catch, bind. unfold titleQuery in Hquery. rewrite Hquery.
    destruct answer as [| [|first rest] | | |]; done.
Qed.

(** X15.  Once the schema is read, [updateBookPage] writes exactly this:
    the property [Highlight Count] with the count given, when a count is
    given and the schema has a property of that name, and then the property
    [Last Synced] with the time of the clock, when the schema has a property
    of that name; no other property is ever written.  When there is one to
    write it issues one PATCH of the page with these properties and returns
    its outcome; when there is none it returns the page id without a
    request. *)
Theorem update_writes_known_properties (pageId databaseId : jsstring)
    (bookData : BookUpdate) (s s1 : ApiSt World)
    (dbProperties : list (jsstring * PropConfig)) :
  getDatabase fetch databaseId s = (s1, inr (JDatabase dbProperties)) →
  ∃ properties,
    properties
    = match highlightCount bookData with
      | Some n =>
          if hasProperty (js "Highlight Count") dbProperties
          then [(js "Highlight Count", PNumber n)] else []
      | None => []
      end
      ++ (if hasProperty (js "Last Synced") dbProperties
          then [(js "Last Synced", PDate (clock (world s1)))] else [])
    ∧ Forall (λ p, hasProperty p.1 dbProperties = true) properties
    ∧ updateBookPage fetch clock pageId bookData databaseId s
      = match properties with
        | [] => (s1, inr (JPage {| id := pageId |}))
        | _ :: _ =>
            request fetch {| endpoint := EpPage pageId; method := PATCH;
                             body := BodyProperties properties |} s1
        end.
Proof.
  intros Hdb. eexists. split; [reflexivity|].
  unfold updateBookPage, bind at 1. rewrite Hdb. simpl.
  unfold bind, gets. simpl. unfold updateProperties.
  destruct (hasProperty (js "Highlight Count") dbProperties) eqn:Hcount;
    destruct (hasProperty (js "Last Synced") dbProperties) eqn:Hsynced;
    destruct (highlightCount bookData) as [n|] eqn:Hn; simpl;
    (split; [repeat constructor; simpl; assumption|reflexivity]).
Qed.

End ClientResults.

Section ClientResultsWitnesses.
Import Notion Scenario Scenario2.

Lemma find_returns_first_page_witness :
  (js "Dune" = [] → Notion.findBookByTitle serving (js "db") (js "Dune") freshApi
                    = ({| world := tt; calls := [Fetched (readSchema (js "db"))] |},
                       inr None))
  ∧ (js "Dune" ≠ [] →
     ∀ s2 answer,
       request serving (titleQuery (js "db") (titlePropertyName fullSchema) (js "Dune"))
         {| world := tt; calls := [Fetched (readSchema (js "db"))] |}
       = (s2, inr answer) →
       Notion.findBookByTitle serving (js "db") (js "Dune") freshApi
       = (s2, inr match answer with
                  | JList (first :: _) => Some first
                  | _ => None
                  end)).
Proof.
  apply (find_returns_first_page unit serving (js "db") (js "Dune") freshApi
           {| world := tt; calls := [Fetched (readSchema (js "db"))] |} fullSchema).
  reflexivity.
Defined.

Lemma update_writes_known_properties_witness :
  ∃ properties,
    properties
    = match highlightCount {| highlightCount := Some 12 |} with
      | Some n =>
          if hasProperty (js "Highlight Count") fullSchema
          then [(js "Highlight Count", PNumber n)] else []
      | None => []
      end
      ++ (if hasProperty (js "Last Synced") fullSchema
          then [(js "Last Synced", PDate (noClock tt))] else [])
    ∧ Forall (λ p, hasProperty p.1 fullSchema = true) properties
    ∧ updateBookPage serving noClock (js "page") {| highlightCount := Some 12 |} (js "db")
        freshApi
      = match properties with
        | [] => ({| world := tt; calls := [Fetched (readSchema (js "db"))] |},
                 inr (JPage {| id := js "page" |}))
        | _ :: _ =>
            request serving {| endpoint := EpPage (js "page"); method := PATCH;
                               body := BodyProperties properties |}
              {| world := tt; calls := [Fetched (readSchema (js "db"))] |}
        end.
Proof.
  apply (update_writes_known_properties unit serving noClock (js "page") (js "db")
           {| highlightCount := Some 12 |} freshApi
           {| world := tt; calls := [Fetched (readSchema (js "db"))] |} fullSchema).
  reflexivity.
Defined.

End ClientResultsWitnesses.

(** ** More on the background sync *)

Section SyncCounters.
Import Notion Background.

Variable T : Type.
Variable mu : SyncSt T → nat.

Lemma raises_by_weaken {A} (j k : nat) (m : M (SyncSt T) A) :
  (j ≤ k)%nat → raises_by mu j m → raises_by mu k m.
Proof. intros Hjk Hm s s' r Hrun. specialize (Hm _ _ _ Hrun). lia. Qed.

Lemma raises_by_ret {A} (a : A) : raises_by mu 0 (ret a).
Proof. intros s s' r [= <- _]. lia. Qed.

Lemma raises_by_bind {A B} (j k : nat) (m : M (SyncSt T) A) (f : A → M (SyncSt T) B) :
  raises_by mu j m → (∀ a, raises_by mu k (f a)) → raises_by mu (j + k) (bind m f).
Proof.
  intros Hm Hf s s' r. unfold bind. destruct (m s) as [s1 [e|a]] eqn:Hrun.
  - intros [= <- _]. specialize (Hm _ _ _ Hrun). lia.
  - intros Hrest. specialize (Hm _ _ _ Hrun). specialize (Hf _ _ _ _ Hrest). lia.
Qed.

Lemma raises_by_try_catch {A} (j k : nat) (m : M (SyncSt T) A)
    (h : Exn → M (SyncSt T) A) :
  raises_by mu j m → (∀ e, raises_by mu k (h e)) → raises_by mu (j + k) (try_catch m h).
Proof.
  intros Hm Hh s s' r. unfold try_catch. destruct (m s) as [s1 [e|a]] eqn:Hrun.
  - intros Hrest. specialize (Hm _ _ _ Hrun). specialize (Hh _ _ _ _ Hrest). lia.
  - intros [= <- _]. specialize (Hm _ _ _ Hrun). lia.
Qed.

Lemma raises_by_gets {A} (f : SyncSt T → A) : raises_by mu 0 (gets f).
Proof. intros s s' r [= <- _]. lia. Qed.

Lemma raises_by_modify (k : nat) (f : SyncSt T → SyncSt T) :
  (∀ s, mu s ≤ mu (f s) ≤ mu s + k)%nat → raises_by mu k (modify f).
Proof. intros Hf s s' r [= <- _]. apply Hf. Qed.

End SyncCounters.

Section SyncExtras.
Import Notion Background.

Variable T : Type.

Lemma raises_by_call {A} (mu : SyncSt T → nat) (m : M T A) :
  counters_only mu → raises_by mu 0 (call m).
Proof.
  intros Hmu s s' r. unfold call. destruct (m (remote s)) as [t res].
  intros [= <- _].
  match goal with |- (_ ≤ mu ?x ≤ _)%nat => rewrite (Hmu x s) by done end. lia.
Qed.

Lemma raises_by_emit (mu : SyncSt T → nat) (ev : SyncEvent) :
  counters_only mu → raises_by mu 0 (emit ev).
Proof.
  intros Hmu s s' r [= <- _].
  match goal with |- (_ ≤ mu ?x ≤ _)%nat => rewrite (Hmu x s) by done end. lia.
Qed.

Lemma written_counters_only : counters_only (T:=T) written.
Proof. intros s s' Hn Hu _. unfold written. by rewrite Hn, Hu. Qed.

Lemma newHighlights_counters_only : counters_only (T:=T) newHighlights.
Proof. intros s s' _ _ Hh. done. Qed.

End SyncExtras.

Section SyncCounterFacts.
Import Notion Background.

Variable T : Type.
Variable client : Client T.
Variable db : jsstring.

Ltac raise_steps Hmu :=
  repeat first
    [ eapply raises_by_bind; [|intros ?]
    | apply raises_by_ret
    | apply raises_by_gets
    | apply raises_by_call; exact Hmu
    | apply raises_by_emit; exact Hmu ].

Lemma syncBook_written (i total : nat) (book : Book) :
  raises_by written 1 (syncBook client db i total book).
Proof.
  pose proof (written_counters_only T) as Hmu.
  assert (Hnew : raises_by written 1 (incr_newBooks T)).
  { apply raises_by_modify. intros s. unfold written. simpl. lia. }
  assert (Hupd : raises_by written 1 (incr_updatedBooks T)).
  { apply raises_by_modify. intros s. unfold written. simpl. lia. }
  assert (Hadd : ∀ n, raises_by written 0 (add_newHighlights T n)).
  { intros n. apply raises_by_modify. intros s. unfold written. simpl. lia. }
  assert (Hafter : ∀ page, raises_by written 1 (afterSearch client db i total book page)).
  { intros page. unfold afterSearch. eapply raises_by_weaken; cycle 1.
    - eapply raises_by_bind; [|intros ?; unfold broadcastProgress, delay; raise_steps Hmu].
      instantiate (1 := 1%nat). destruct page as [page|].
      + unfold syncExisting. eapply raises_by_weaken; cycle 1.
        * eapply raises_by_bind; [apply raises_by_call; exact Hmu|]. intros existing.
          instantiate (1 := 1%nat). destruct (0 <? _)%nat.
          -- eapply raises_by_weaken; cycle 1.
             ++ eapply raises_by_bind; [apply raises_by_call; exact Hmu|intros ?].
                eapply raises_by_bind; [apply Hadd|intros ?].
                eapply raises_by_bind; [apply raises_by_call; exact Hmu|intros ?].
                eapply raises_by_bind; [apply Hupd|intros ?].
                unfold broadcastLog. apply raises_by_emit; exact Hmu.
             ++ simpl. lia.
          -- eapply raises_by_weaken; [|unfold broadcastLog; apply raises_by_emit; exact Hmu].
             lia.
        * simpl. lia.
      + unfold syncNew. eapply raises_by_weaken; cycle 1.
        * eapply raises_by_bind; [apply raises_by_call; exact Hmu|intros ?].
          eapply raises_by_bind; [apply Hnew|intros ?].
          eapply raises_by_bind; [|intros ?; unfold broadcastLog; apply raises_by_emit; exact Hmu].
          instantiate (1 := 0%nat). destruct (0 <? _)%nat.
          -- eapply raises_by_weaken; cycle 1.
             ++ eapply raises_by_bind; [apply raises_by_call; exact Hmu|intros ?]. apply Hadd.
             ++ simpl. lia.
          -- apply raises_by_ret.
        * simpl. lia.
    - simpl. lia. }
  unfold syncBook. eapply raises_by_weaken; cycle 1.
  - eapply raises_by_try_catch;
      [|intros ?; unfold broadcastLog; apply raises_by_emit; exact Hmu].
    unfold tryBook. eapply raises_by_bind; [apply raises_by_gets|intros ?].
    eapply raises_by_bind; [unfold broadcastProgress; apply raises_by_emit; exact Hmu|intros ?].
    eapply raises_by_bind; [unfold broadcastLog; apply raises_by_emit; exact Hmu|intros ?].
    eapply raises_by_bind; [|intros ?; apply Hafter].
    instantiate (1 := 0%nat). destruct (truthy (title book)).
    + apply raises_by_call; exact Hmu.
    + apply raises_by_ret.
  - simpl. lia.
Qed.

Lemma newHighlightsList_length (bookHighlights : list Highlight)
    (existingHighlights : list jsstring) :
  (length (newHighlightsList bookHighlights existingHighlights) ≤ length bookHighlights)%nat.
Proof. apply sublist_length, newHighlightsList_sublist. Qed.

Lemma syncBook_newHighlights (i total : nat) (book : Book) :
  raises_by newHighlights (length (highlights book)) (syncBook client db i total book).
Proof.
  pose proof (newHighlights_counters_only T) as Hmu.
  assert (Hnew : raises_by newHighlights 0 (incr_newBooks T)).
  { apply raises_by_modify. intros s. simpl. lia. }
  assert (Hupd : raises_by newHighlights 0 (incr_updatedBooks T)).
  { apply raises_by_modify. intros s. simpl. lia. }
  assert (Hadd : ∀ n, raises_by newHighlights n (add_newHighlights T n)).
  { intros n. apply raises_by_modify. intros s. simpl. lia. }
  set (bound := length (highlights book)).
  assert (Hafter : ∀ page, raises_by newHighlights bound
                             (afterSearch client db i total book page)).
  { intros page. unfold afterSearch. eapply raises_by_weaken; cycle 1.
    - eapply raises_by_bind; [|intros ?; unfold broadcastProgress, delay; raise_steps Hmu].
      instantiate (1 := bound). destruct page as [page|].
      + unfold syncExisting. eapply raises_by_weaken; cycle 1.
        * eapply raises_by_bind; [apply raises_by_call; exact Hmu|]. intros existing.
          instantiate (1 := bound). destruct (0 <? _)%nat.
          -- eapply raises_by_weaken; cycle 1.
             ++ eapply raises_by_bind; [apply raises_by_call; exact Hmu|intros ?].
                eapply raises_by_bind; [apply Hadd|intros ?].
                eapply raises_by_bind; [apply raises_by_call; exact Hmu|intros ?].
                eapply raises_by_bind; [apply Hupd|intros ?].
                unfold broadcastLog. apply raises_by_emit; exact Hmu.
             ++ pose proof (newHighlightsList_length (highlights book) existing).
                unfold bound. simpl. lia.
          -- eapply raises_by_weaken; [|unfold broadcastLog; apply raises_by_emit; exact Hmu].
             lia.
        * simpl. lia.
      + unfold syncNew. eapply raises_by_weaken; cycle 1.
        * eapply raises_by_bind; [apply raises_by_call; exact Hmu|intros ?].
          eapply raises_by_bind; [apply Hnew|intros ?].
          eapply raises_by_bind; [|intros ?; unfold broadcastLog; apply raises_by_emit; exact Hmu].
          instantiate (1 := bound). destruct (0 <? _)%nat.
          -- eapply raises_by_weaken; cycle 1.
             ++ eapply raises_by_bind; [apply raises_by_call; exact Hmu|intros ?]. apply Hadd.
             ++ unfold bound. simpl. lia.
          -- eapply raises_by_weaken; [|apply raises_by_ret]. lia.
        * simpl. lia.
    - simpl. lia. }
  unfold syncBook. eapply raises_by_weaken; cycle 1.
  - eapply raises_by_try_catch;
      [|intros ?; unfold broadcastLog; apply raises_by_emit; exact Hmu].
    unfold tryBook. eapply raises_by_bind; [apply raises_by_gets|intros ?].
    eapply raises_by_bind; [unfold broadcastProgress; apply raises_by_emit; exact Hmu|intros ?].
    eapply raises_by_bind; [unfold broadcastLog; apply raises_by_emit; exact Hmu|intros ?].
    eapply raises_by_bind; [|intros ?; apply Hafter].
    instantiate (1 := 0%nat). destruct (truthy (title book)).
    + apply raises_by_call; exact Hmu.
    + apply raises_by_ret.
  - simpl. lia.
Qed.

Lemma syncLoop_written (total i : nat) (books : list Book) :
  raises_by written (length books) (syncLoop client db total i books).
Proof.
  revert i. induction books as [|book rest IH]; intros i; simpl.
  - apply raises_by_ret.
  - change (S (length rest)) with (1 + length rest)%nat.
    apply raises_by_bind; [apply syncBook_written|intros _; apply IH].
Qed.

Lemma syncLoop_newHighlights (total i : nat) (books : list Book) :
  raises_by newHighlights (highlightTotal books) (syncLoop client db total i books).
Proof.
  revert i. induction books as [|book rest IH]; intros i; simpl.
  - apply raises_by_ret.
  - apply raises_by_bind; [apply syncBook_newHighlights|intros _; apply IH].
Qed.

End SyncCounterFacts.

Section SyncExtraClaims.
Import Notion Background Scenario Scenario2.

(** X16.  [syncBooksToNotion] throws exactly when the token or the database
    id is missing or empty: it then throws before anything is broadcast and
    before the client is used.  With both set it always returns a result,
    whatever the client does. *)
Theorem sync_throws_only_without_settings (T : Type)
    (createNotionClient : jsstring → Client T) (settings : Settings)
    (books : list Book) (t : T) :
  (truthy_setting (notionToken settings) && truthy_setting (databaseId settings) = false →
   syncBooksToNotion createNotionClient settings books t
   = (start t, inl (Error notConfigured)))
  ∧ (truthy_setting (notionToken settings) && truthy_setting (databaseId settings) = true →
     ∃ s' result, syncBooksToNotion createNotionClient settings books t = (s', inr result)).
Proof.
  unfold syncBooksToNotion, truthy_setting.
  destruct (notionToken settings) as [token|], (databaseId settings) as [dbid|];
    simpl; try (split; [done|intros; try done]).
  - destruct (truthy token && truthy dbid); split; try done. intros _.
    destruct (syncLoop_completes T (createNotionClient token) dbid (length books) books 0
                (start t)) as (s' & Hloop & _).
    unfold bind. rewrite Hloop. simpl. eauto.
  - by rewrite andb_false_r in *.
Qed.

(** X17.  The counters of the result are bounded by the input: the books
    created and the books updated are together at most the books given, and
    the highlights reported as new are at most the highlights of the books
    given. *)
Theorem sync_counters_are_bounded (T : Type)
    (createNotionClient : jsstring → Client T) (settings : Settings)
    (books : list Book) (t : T) (s' : SyncSt T) (result : Result.t) :
  syncBooksToNotion createNotionClient settings books t = (s', inr result) →
  (Result.newBooks result + Result.updatedBooks result ≤ Result.totalProcessed result)%nat
  ∧ (Result.newHighlights result ≤ highlightTotal books)%nat
  ∧ Result.totalProcessed result = length books.
Proof.
  unfold syncBooksToNotion.
  destruct (notionToken settings) as [token|]; [|done].
  destruct (databaseId settings) as [dbid|]; [|done].
  destruct (truthy token && truthy dbid); [|done].
  unfold bind.
  destruct (syncLoop (createNotionClient token) dbid (length books) 0 books (start t))
    as [s1 [e|[]]] eqn:Hloop; [done|].
  simpl. intros [= <- <-]. simpl.
  pose proof (syncLoop_written T (createNotionClient token) dbid (length books) 0 books
                _ _ _ Hloop) as Hw.
  pose proof (syncLoop_newHighlights T (createNotionClient token) dbid (length books) 0
                books _ _ _ Hloop) as Hh.
  unfold written in Hw. simpl in Hw, Hh. split; [lia|]. split; [lia|done].
Qed.

Lemma sync_counters_are_bounded_witness :
  (2 + 0 ≤ 2)%nat ∧ (0 ≤ highlightTotal [untitled; book "Emma"])%nat
  ∧ 2%nat = length [untitled; book "Emma"].
Proof.
  apply (sync_counters_are_bounded unit
           (λ _, {| findBookByTitle := findBookByTitle compliant;
                    createBookPage := createBookPage compliant;
                    updateBookPage := updateBookPage compliant;
                    getExistingHighlights := getExistingHighlights compliant;
                    addHighlightBlocks := λ _ _, throw FetchRejected |})
           configured [untitled; book "Emma"] tt
           (syncBooksToNotion
              (λ _, {| findBookByTitle := findBookByTitle compliant;
                       createBookPage := createBookPage compliant;
                       updateBookPage := updateBookPage compliant;
                       getExistingHighlights := getExistingHighlights compliant;
                       addHighlightBlocks := λ _ _, throw FetchRejected |})
              configured [untitled; book "Emma"] tt).1
           {| Result.success := true; Result.newBooks := 2; Result.updatedBooks := 0;
              Result.newHighlights := 0; Result.totalProcessed := 2 |}).
  vm_compute. reflexivity.
Defined.

End SyncExtraClaims.

Section DedupExtras.
Import Notion Background Scenario Scenario2.

Lemma occurs_in_take (n : nat) (t e : jsstring) :
  occurs_in t e → occurs_in (take n t) e.
Proof.
  intros (before & after & ->). exists before, (drop n t ++ after).
  by rewrite (app_assoc (take n t)), take_drop.
Qed.

Lemma newHighlightsList_nil_iff (bookHighlights : list Highlight)
    (existingHighlights : list jsstring) :
  newHighlightsList bookHighlights existingHighlights = []
  ↔ ∀ h, h ∈ bookHighlights →
         ∃ existing, existing ∈ existingHighlights
                     ∧ occurs_in (take 50 (text h)) existing.
Proof.
  unfold newHighlightsList. induction bookHighlights as [|h hs IH]; simpl.
  - split; [|done]. intros _ h Hh. by apply elem_of_nil in Hh.
  - destruct (existsb _ existingHighlights) eqn:Hex; simpl.
    + rewrite IH. apply existsb_exists in Hex as (e & Hin & Hinc).
      apply includes_spec in Hinc. rewrite substring_from_0 in Hinc.
      apply list_elem_of_In in Hin. split.
      * intros Hall h' [->|Hh']%elem_of_cons; eauto.
      * intros Hall h' Hh'. apply Hall. by right.
    + split; [done|]. intros Hall. exfalso.
      destruct (Hall h) as (e & Hin & Hocc); [left|].
      apply not_true_iff_false in Hex. apply Hex, existsb_exists.
      exists e. rewrite <- list_elem_of_In, includes_spec, substring_from_0. done.
Qed.

Lemma highlightBlock_carries_text (h : Highlight) :
  ∃ after, mjoin (content <$> rich_text (highlightBlock h)) = text h ++ after.
Proof.
  unfold highlightBlock. destruct (truthy (location h)); simpl.
  - eexists. reflexivity.
  - exists []. done.
Qed.

Lemma newHighlightsList_no_existing (bookHighlights : list Highlight) :
  newHighlightsList bookHighlights [] = bookHighlights.
Proof.
  unfold newHighlightsList. apply filter_fixed, Forall_forall. done.
Qed.

(** X18.  With no existing text every highlight is new.  A highlight is
    dropped as soon as the first 50 code units of its text occur inside an
    existing text, whatever follows them in its own text and even when the
    existing text is a longer, different highlight; so is a highlight of
    empty text as soon as one text exists.  And the highlights of a book are
    all dropped against the texts of the blocks [highlightBlock] builds for
    them (contents joined, as [getExistingHighlights] joins them): a second
    sync of the same highlights adds nothing. *)
Theorem dedup_against_stored_texts (bookHighlights : list Highlight)
    (existingHighlights : list jsstring) :
  newHighlightsList bookHighlights [] = bookHighlights
  ∧ (∀ h existing,
       existing ∈ existingHighlights → occurs_in (take 50 (text h)) existing →
       h ∉ newHighlightsList bookHighlights existingHighlights)
  ∧ (∀ h, text h = [] → existingHighlights ≠ [] →
          h ∉ newHighlightsList bookHighlights existingHighlights)
  ∧ newHighlightsList bookHighlights
      ((λ h, mjoin (content <$> rich_text (highlightBlock h))) <$> bookHighlights)
    = [].
Proof.
  assert (Hdrop : ∀ h existing,
            existing ∈ existingHighlights → occurs_in (take 50 (text h)) existing →
            h ∉ newHighlightsList bookHighlights existingHighlights).
  { intros h existing Hin Hocc Hkept.
    unfold newHighlightsList in Hkept.
    apply list_elem_of_In, filter_In in Hkept as [_ Hnovel].
    apply novel_test in Hnovel. by apply (Hnovel existing Hin). }
  split; [|split; [done|split]].
  - apply newHighlightsList_no_existing.
  - intros h Hempty Hsome. destruct existingHighlights as [|e es]; [done|].
    apply (Hdrop h e); [left|]. rewrite Hempty. exists [], e. done.
  - apply newHighlightsList_nil_iff. intros h Hh.
    exists (mjoin (content <$> rich_text (highlightBlock h))). split.
    + apply list_elem_of_fmap. exists h. done.
    + apply occurs_in_take. destruct (highlightBlock_carries_text h) as [after ->].
      exists [], after. done.
Qed.

(** X19.  When every highlight of the book is found in the existing texts,
    the sync of an existing page ends after reading them: it logs that
    nothing changed, calls neither [addHighlightBlocks] nor [updateBookPage]
    (the remote state is the one the read left) and leaves the counters
    alone. *)
Theorem unchanged_book_writes_nothing (T : Type) (client : Client T) (db : jsstring)
    (book : Book) (page : PageObj) (s : SyncSt T) (t1 : T)
    (existingHighlights : list jsstring) :
  getExistingHighlights client (id page) (remote s) = (t1, inr existingHighlights) →
  (∀ h, h ∈ highlights book →
        ∃ existing, existing ∈ existingHighlights
                    ∧ occurs_in (take 50 (text h)) existing) →
  syncExisting client db book page s
  = ({| remote := t1; events := events s ++ [Log info MsgNoChange];
        newBooks := newBooks s; newHighlights := newHighlights s;
        updatedBooks := updatedBooks s |}, inr tt).
Proof.
  intros Hread Hall. apply newHighlightsList_nil_iff in Hall.
  unfold syncExisting, bind at 1, call at 1. rewrite Hread. simpl.
  rewrite Hall. done.
Qed.

Lemma unchanged_book_witness :
  syncExisting compliant (js "db") (book "Emma") {| id := js "found" |} (start tt)
  = ({| remote := tt; events := events (start tt) ++ [Log info MsgNoChange];
        newBooks := newBooks (start tt); newHighlights := newHighlights (start tt);
        updatedBooks := updatedBooks (start tt) |}, inr tt).
Proof.
  apply (unchanged_book_writes_nothing unit compliant (js "db") (book "Emma")
           {| id := js "found" |} (start tt) tt [js "So it goes."]).
  - reflexivity.
  - intros h Hh. exists (js "So it goes."). split; [left|].
    apply list_elem_of_singleton in Hh as ->. exists [], []. reflexivity.
Defined.

(** X20.  A book whose title is empty is not searched for.  Its turn does
    not depend on [findBookByTitle], [getExistingHighlights] or
    [updateBookPage]: two clients that create pages and append blocks alike
    give the same turn.  [createBookPage] is called on the remote state as
    the turn found it.  When it returns a page, the turn ends normally with
    one more new book and no more updated book; the highlights of the book,
    if it has any, are appended to that page and count as new when the
    append returns.  When it throws, the turn ends normally with the
    counters as they were and the failure logged last. *)
Theorem untitled_book_is_created (T : Type) (client : Client T) (db : jsstring)
    (i total : nat) (book : Book) (s : SyncSt T) :
  title book = [] →
  (∀ client' : Client T,
     createBookPage client' = createBookPage client →
     addHighlightBlocks client' = addHighlightBlocks client →
     syncBook client' db i total book s = syncBook client db i total book s)
  ∧ (∀ t1 page,
       createBookPage client db book (remote s) = (t1, inr page) →
       ∀ t2 out,
         addHighlightBlocks client (id page) (highlights book) t1 = (t2, out) →
         ∃ s', syncBook client db i total book s = (s', inr tt)
               ∧ newBooks s' = S (newBooks s)
               ∧ updatedBooks s' = updatedBooks s
               ∧ remote s' = (if (0 <? length (highlights book))%nat then t2 else t1)
               ∧ newHighlights s'
                 = (newHighlights s
                    + match out with
                      | inr _ => length (highlights book)
                      | inl _ => 0
                      end)%nat)
  ∧ (∀ t1 e,
       createBookPage client db book (remote s) = (t1, inl e) →
       ∃ s', syncBook client db i total book s = (s', inr tt)
             ∧ remote s' = t1
             ∧ newBooks s' = newBooks s
             ∧ updatedBooks s' = updatedBooks s
             ∧ newHighlights s' = newHighlights s
             ∧ last (events s') = Some (Log error (MsgFailed [] e))).
Proof.
  intros Htitle. split; [|split].
  - intros client' Hcreate Hadd.
    unfold syncBook, tryBook, afterSearch, syncNew. rewrite Htitle. simpl.
    by rewrite Hcreate, Hadd.
  - intros t1 page Hcreate t2 out Hadd.
    unfold syncBook, try_catch, tryBook, afterSearch, syncNew. rewrite Htitle. simpl.
    unfold bind, gets, call, broadcastProgress, broadcastLog, Background.delay, emit,
      incr_newBooks, add_newHighlights, modify, ret. simpl.
    rewrite Hcreate. simpl.
    destruct (highlights book) as [|h hs] eqn:Hhs; simpl.
    + eexists. split; [reflexivity|]. simpl. repeat (split; [done|]).
      destruct out; lia.
    + rewrite Hadd. destruct out as [e|[]]; simpl.
      * eexists. split; [reflexivity|]. simpl. repeat (split; [done|]). lia.
      * eexists. split; [reflexivity|]. simpl. repeat (split; [done|]). lia.
  - intros t1 e Hcreate.
    unfold syncBook, try_catch, tryBook, afterSearch, syncNew. rewrite Htitle. simpl.
    unfold bind, gets, call, broadcastProgress, broadcastLog, Background.delay, emit,
      incr_newBooks, add_newHighlights, modify, ret. simpl.
    rewrite Hcreate. simpl.
    eexists. split; [reflexivity|]. simpl. repeat (split; [done|]).
    by rewrite last_snoc.
Qed.

Lemma untitled_book_witness :
  (∀ client' : Client unit,
     createBookPage client' = createBookPage compliant →
     addHighlightBlocks client' = addHighlightBlocks compliant →
     syncBook client' (js "db") 0 1 untitled (start tt)
     = syncBook compliant (js "db") 0 1 untitled (start tt))
  ∧ (∀ t1 page,
       createBookPage compliant (js "db") untitled (remote (start tt)) = (t1, inr page) →
       ∀ t2 out,
         addHighlightBlocks compliant (id page) (highlights untitled) t1 = (t2, out) →
         ∃ s', syncBook compliant (js "db") 0 1 untitled (start tt) = (s', inr tt)
               ∧ newBooks s' = S (newBooks (start tt))
               ∧ updatedBooks s' = updatedBooks (start tt)
               ∧ remote s' = (if (0 <? length (highlights untitled))%nat then t2 else t1)
               ∧ newHighlights s'
                 = (newHighlights (start tt)
                    + match out with
                      | inr _ => length (highlights untitled)
                      | inl _ => 0
                      end)%nat)
  ∧ (∀ t1 e,
       createBookPage compliant (js "db") untitled (remote (start tt)) = (t1, inl e) →
       ∃ s', syncBook compliant (js "db") 0 1 untitled (start tt) = (s', inr tt)
             ∧ remote s' = t1
             ∧ newBooks s' = newBooks (start tt)
             ∧ updatedBooks s' = updatedBooks (start tt)
             ∧ newHighlights s' = newHighlights (start tt)
             ∧ last (events s') = Some (Log error (MsgFailed [] e))).
Proof.
  apply (untitled_book_is_created unit compliant (js "db") 0 1 untitled (start tt)).
  reflexivity.
Defined.

End DedupExtras.

(** ** The paginated reads *)

Section ReadFacts.
Import NotionRead.

Variable World : Type.
Variable fetch : World → ReadRequest → World * option ReadResponse.

Lemma request_listing (r : ReadRequest) (s : St World) (w' : World)
    (response : ReadResponse) (page : Listing) :
  fetch (world s) r = (w', Some response) →
  ok response = true →
  data response = Some (ListingJson page) →
  request fetch r s
  = ({| world := w'; calls := calls s ++ [Asked r] |}, inr (ListingJson page)).
Proof. intros Hf Hok Hd. unfold request. by rewrite Hf, Hd, Hok. Qed.

Lemma existingLoop_served (pageId : jsstring) (pages : list Listing) (bound : nat)
    (cursor : option jsstring) (highlights : list jsstring) (s : St World) :
  servesChildren fetch pageId (world s) cursor pages →
  (length pages ≤ bound)%nat →
  ∃ s', existingLoop fetch bound pageId cursor highlights s
        = (s', inr (Some (highlights ++ omap blockText (listed pages))))
        ∧ calls s' = calls s ++ childrenRequests pageId cursor pages.
Proof.
  revert bound cursor highlights s.
  induction pages as [|page rest IH]; intros bound cursor highlights s Hserved Hbound;
    [done|].
  destruct bound as [|bound]; [simpl in Hbound; lia|].
  destruct Hserved as (w' & response & Hf & Hok & Hd & Hrest).
  cbn [existingLoop]. unfold bind at 1.
  rewrite (request_listing _ _ _ _ _ Hf Hok Hd). simpl.
  unfold bind at 1. simpl.
  destruct rest as [|page' rest'].
  - rewrite Hrest. eexists. split.
    + unfold ret, listed. simpl. by rewrite app_nil_r.
    + done.
  - destruct Hrest as (next & Hnext & Hserved). rewrite Hnext.
    destruct (IH bound (Some next) (highlights ++ omap blockText (results page))
                {| world := w'; calls := calls s ++ [Asked (ListChildren pageId cursor)] |}
                Hserved) as (s' & Hrun & Hcalls); [simpl in *; lia|].
    exists s'. rewrite Hrun. split.
    + do 3 f_equal. change (listed (page :: page' :: rest'))
        with (results page ++ listed (page' :: rest')).
      by rewrite omap_app, app_assoc.
    + rewrite Hcalls. cbn [calls]. by rewrite <- app_assoc.
Qed.

Lemma addRows_app (books : gmap jsstring Z) (l1 l2 : list Item) :
  addRows books (l1 ++ l2)
  = match addRows books l1 with
    | inl e => inl e
    | inr books' => addRows books' l2
    end.
Proof.
  revert books. induction l1 as [|page l1 IH]; intros books; simpl; [done|].
  destruct (addRow books page); [done|]. apply IH.
Qed.

Lemma booksLoop_served (databaseId : jsstring) (pages : list Listing) (bound : nat)
    (cursor : CursorArg) (books final : gmap jsstring Z) (s : St World) :
  servesRows fetch databaseId (world s) cursor pages →
  (length pages ≤ bound)%nat →
  addRows books (listed pages) = inr final →
  ∃ s', booksLoop fetch bound databaseId cursor books s = (s', inr (Some final))
        ∧ calls s' = calls s ++ rowRequests databaseId cursor pages.
Proof.
  revert bound cursor books s.
  induction pages as [|page rest IH]; intros bound cursor books s Hserved Hbound Hrows;
    [done|].
  destruct bound as [|bound]; [simpl in Hbound; lia|].
  destruct Hserved as (w' & response & Hf & Hok & Hd & Hrest).
  change (listed (page :: rest)) with (results page ++ listed rest) in Hrows.
  rewrite addRows_app in Hrows.
  destruct (addRows books (results page)) as [e|books'] eqn:Hpage; [done|].
  cbn [booksLoop]. unfold bind at 1.
  rewrite (request_listing _ _ _ _ _ Hf Hok Hd). simpl.
  unfold bind at 1. simpl. unfold bind at 1. rewrite Hpage. simpl.
  destruct rest as [|page' rest'].
  - rewrite Hrest. simpl in Hrows. injection Hrows as <-.
    eexists. split; [reflexivity|]. done.
  - destruct Hrest as (Hmore & Hserved). rewrite Hmore.
    unfold bind, NotionRead.delay, modify. simpl.
    destruct (IH bound _ books'
                {| world := w';
                   calls := (calls s ++ [Asked (QueryRows databaseId cursor 100)])
                            ++ [Waited 350] |}
                Hserved) as (s' & Hrun & Hcalls); [simpl in *; lia|done|].
    exists s'. rewrite Hrun. split; [done|].
    rewrite Hcalls. cbn [calls]. by rewrite <- !app_assoc.
Qed.

(** What the rows leave in the mapping. *)
Lemma addRows_lookup (rows : list Item) (books final : gmap jsstring Z) :
  addRows books rows = inr final →
  final !! [] = books !! []
  ∧ (∀ t v, final !! t = Some v →
            books !! t = Some v
            ∨ ∃ properties, Row properties ∈ rows ∧ rowTitle properties = t
                            ∧ rowCount properties = v)
  ∧ (∀ properties, Row properties ∈ rows → rowTitle properties ≠ [] →
                   rowTitle properties ≠ JsObject.proto →
                   is_Some (final !! rowTitle properties))
  ∧ (∀ t, is_Some (books !! t) → is_Some (final !! t))
  ∧ (books !! JsObject.proto = None → final !! JsObject.proto = None).
Proof.
  revert books. induction rows as [|page rows IH]; intros books Hrows; simpl in Hrows.
  - injection Hrows as <-. split; [done|]. split; [eauto|]. split; [|done].
    intros properties Hin. by apply elem_of_nil in Hin.
  - destruct page as [| | |properties]; try done. simpl in Hrows.
    destruct (rowTitle properties) as [|c title] eqn:Htitle; simpl in Hrows;
      destruct (IH _ Hrows) as (Hnil & Hsound & Hcomplete & Hkeeps & Hproto).
    + split; [done|]. split; [|split; [|done]].
      * intros t v Hv. destruct (Hsound t v Hv) as [?|(ps & Hin & ? & ?)]; [by left|].
        right. exists ps. split; [by right|done].
      * intros ps [[= ->]|Hin]%elem_of_cons Hne; [congruence|by apply Hcomplete].
    + split; [by rewrite Hnil, lookup_set_ne|]. split; [|split; [|split]].
      * intros t v Hv. destruct (Hsound t v Hv) as [Hins|(ps & Hin & ? & ?)].
        -- apply lookup_set_Some in Hins as [Hold|[-> ->]]; [by left|].
           right. exists properties. split; [left|done].
        -- right. exists ps. split; [by right|done].
      * intros ps [[= ->]|Hin]%elem_of_cons Hne Hnp; [|by apply Hcomplete].
        apply Hkeeps. rewrite Htitle in Hnp |- *.
        rewrite lookup_set_eq by done. eauto.
      * intros t Ht. apply Hkeeps. by apply lookup_set_keeps.
      * intros Hnone. apply Hproto. by apply lookup_set_proto.
Qed.

End ReadFacts.

Section ReadResults.
Import NotionRead.

Variable World : Type.
Variable fetch : World → ReadRequest → World * option ReadResponse.

Lemma addRows_rows (rows : list Item) (books : gmap jsstring Z) :
  Forall isRow rows → ∃ final, addRows books rows = inr final.
Proof.
  intros Hrows. revert books.
  induction Hrows as [|page rows Hpage _ IH]; intros books; [by eexists|].
  destruct page as [| | |properties]; try done. simpl.
  destruct (truthy (rowTitle properties)); apply IH.
Qed.

Lemma addRows_last (l1 l2 : list Item) (properties : list (jsstring * PropertyObj))
    (books final : gmap jsstring Z) :
  addRows books (l1 ++ Row properties :: l2) = inr final →
  rowTitle properties ≠ [] →
  rowTitle properties ≠ JsObject.proto →
  (∀ later, Row later ∈ l2 → rowTitle later ≠ rowTitle properties) →
  final !! rowTitle properties = Some (rowCount properties).
Proof.
  intros Hrows Htitle Hproto Hlater. rewrite addRows_app in Hrows.
  destruct (addRows books l1) as [|books1]; [done|]. simpl in Hrows.
  destruct (rowTitle properties) as [|c title] eqn:Ht; [done|]. simpl in Hrows.
  destruct (addRows_lookup l2 _ _ Hrows) as (_ & Hsound & _ & Hkeeps & _).
  destruct (Hkeeps (c :: title)) as [v Hv]; [rewrite lookup_set_eq by done; eauto|].
  destruct (Hsound _ _ Hv) as [Hins|(later & Hin & Heq & _)].
  - rewrite lookup_set_eq in Hins by done. congruence.
  - by destruct (Hlater later Hin).
Qed.

(** X21.  When the service lists the children of a page in several
    listings, getExistingHighlights asks for one listing after the other,
    each request carrying the cursor of the answer before, and returns the
    joined plain texts of the quote and callout blocks of all the listings,
    in order; blocks of other types add nothing. *)
Theorem existing_highlights_across_pages (pageId : jsstring) (pages : list Listing)
    (bound : nat) (s : St World) :
  servesChildren fetch pageId (world s) None pages →
  (length pages ≤ bound)%nat →
  ∃ s', getExistingHighlights fetch bound pageId s
        = (s', inr (Some (omap blockText (listed pages))))
        ∧ calls s' = calls s ++ childrenRequests pageId None pages.
Proof.
  intros Hserved Hbound.
  apply (existingLoop_served World fetch pageId pages bound None [] s Hserved Hbound).
Qed.

(** X22.  When the service lists the rows of the database in several
    listings, getAllBooksWithHighlightCount reads them all, waiting 350 ms
    after every listing that has more, and returns a mapping in which every
    entry is the title and the count of a listed row and every row with a
    title other than [__proto__] has an entry.  The empty title is no key,
    and neither is [__proto__]: the assignment to that key stores
    nothing. *)
Theorem book_counts_across_pages (databaseId : jsstring) (pages : list Listing)
    (bound : nat) (s : St World) :
  servesRows fetch databaseId (world s) NoCursor pages →
  (length pages ≤ bound)%nat →
  Forall isRow (listed pages) →
  ∃ s' counts,
    getAllBooksWithHighlightCount fetch bound databaseId s = (s', inr (Some counts))
    ∧ calls s' = calls s ++ rowRequests databaseId NoCursor pages
    ∧ (∀ t v, counts !! t = Some v →
              ∃ properties, Row properties ∈ listed pages
                            ∧ rowTitle properties = t ∧ rowCount properties = v)
    ∧ (∀ properties, Row properties ∈ listed pages → rowTitle properties ≠ [] →
                     rowTitle properties ≠ JsObject.proto →
                     is_Some (counts !! rowTitle properties))
    ∧ counts !! [] = None
    ∧ counts !! JsObject.proto = None.
Proof.
  intros Hserved Hbound Hrows.
  destruct (addRows_rows _ ∅ Hrows) as [counts Hcounts].
  destruct (booksLoop_served World fetch databaseId pages bound NoCursor ∅ counts s
              Hserved Hbound Hcounts) as (s' & Hrun & Hcalls).
  destruct (addRows_lookup _ _ _ Hcounts) as (Hnil & Hsound & Hcomplete & _ & Hproto).
  exists s', counts. split; [exact Hrun|]. split; [exact Hcalls|].
  split; [|split; [exact Hcomplete|split; [by rewrite Hnil|by apply Hproto]]].
  intros t v Hv. destruct (Hsound t v Hv) as [Hempty|?]; [|done].
  by rewrite lookup_empty in Hempty.
Qed.

(** X23.  When several listed rows have the same title, other than
    [__proto__], the mapping returned by getAllBooksWithHighlightCount holds
    the count of the last of them. *)
Theorem last_row_of_a_title_wins (databaseId : jsstring) (pages : list Listing)
    (bound : nat) (s : St World) (before after : list Item)
    (properties : list (jsstring * PropertyObj)) :
  servesRows fetch databaseId (world s) NoCursor pages →
  (length pages ≤ bound)%nat →
  Forall isRow (listed pages) →
  listed pages = before ++ Row properties :: after →
  rowTitle properties ≠ [] →
  rowTitle properties ≠ JsObject.proto →
  (∀ later, Row later ∈ after → rowTitle later ≠ rowTitle properties) →
  ∃ s' counts,
    getAllBooksWithHighlightCount fetch bound databaseId s = (s', inr (Some counts))
    ∧ counts !! rowTitle properties = Some (rowCount properties).
Proof.
  intros Hserved Hbound Hrows Hsplit Htitle Hproto Hlater.
  destruct (addRows_rows _ ∅ Hrows) as [counts Hcounts].
  destruct (booksLoop_served World fetch databaseId pages bound NoCursor ∅ counts s
              Hserved Hbound Hcounts) as (s' & Hrun & _).
  exists s', counts. split; [exact Hrun|].
  rewrite Hsplit in Hcounts. by apply (addRows_last before after properties ∅).
Qed.

End ReadResults.

Section ReadWitnesses.
Import NotionRead Scenario2.

Lemma existing_highlights_witness :
  ∃ s', getExistingHighlights (scripted twoBlockPages) 2 (js "page-1") freshRead
        = (s', inr (Some (omap blockText (listed twoBlockPages))))
        ∧ calls s' = calls freshRead ++ childrenRequests (js "page-1") None twoBlockPages.
Proof.
  apply (existing_highlights_across_pages nat (scripted twoBlockPages)
           (js "page-1") twoBlockPages 2 freshRead).
  - simpl. eexists _, _. repeat (split; [reflexivity|]).
    eexists. split; [reflexivity|].
    eexists _, _. repeat (split; [reflexivity|]). reflexivity.
  - simpl. lia.
Defined.

Lemma twoRowPages_served :
  servesRows (scripted twoRowPages) (js "db") (world freshRead) NoCursor twoRowPages.
Proof.
  simpl. eexists _, _. repeat (split; [reflexivity|]).
  eexists _, _. repeat (split; [reflexivity|]). reflexivity.
Qed.

Lemma book_counts_witness :
  ∃ s' counts,
    getAllBooksWithHighlightCount (scripted protoRowPages) 2 (js "db") freshRead
    = (s', inr (Some counts))
    ∧ calls s' = calls freshRead ++ rowRequests (js "db") NoCursor protoRowPages
    ∧ (∀ t v, counts !! t = Some v →
              ∃ properties, Row properties ∈ listed protoRowPages
                            ∧ rowTitle properties = t ∧ rowCount properties = v)
    ∧ (∀ properties, Row properties ∈ listed protoRowPages → rowTitle properties ≠ [] →
                     rowTitle properties ≠ JsObject.proto →
                     is_Some (counts !! rowTitle properties))
    ∧ counts !! [] = None
    ∧ counts !! JsObject.proto = None.
Proof.
  apply (book_counts_across_pages nat (scripted protoRowPages) (js "db") protoRowPages 2
           freshRead).
  - simpl. eexists _, _. repeat (split; [reflexivity|]).
    eexists _, _. repeat (split; [reflexivity|]). reflexivity.
  - simpl. lia.
  - repeat constructor.
Defined.

Lemma last_row_witness :
  ∃ s' counts,
    getAllBooksWithHighlightCount (scripted sameTitlePages) 2 (js "db") freshRead
    = (s', inr (Some counts))
    ∧ counts !! js "Dune 2" = Some 7.
Proof.
  apply (last_row_of_a_title_wins nat (scripted sameTitlePages) (js "db") sameTitlePages 2
           freshRead [row "Dune 2" (Some 3)] []
           [(js "Name", TitleProperty [{| plain_text := js "Dune 2" |}]);
            (js "Highlight Count", NumberProperty (Some 7))]).
  - simpl. eexists _, _. repeat (split; [reflexivity|]).
    eexists _, _. repeat (split; [reflexivity|]). reflexivity.
  - simpl. lia.
  - repeat constructor.
  - reflexivity.
  - done.
  - done.
  - intros later Hin. by apply elem_of_nil in Hin.
Defined.

End ReadWitnesses.

(** ** From the rows of the database to the plan *)

Section CountsToPlan.
Import Content.

Lemma queued_present (notionCounts : gmap jsstring Z)
    (localCache : option (gmap jsstring Z)) (bookContainers : list Container)
    (j : nat) (c : Container) (remoteCount : Z) :
  bookContainers !! j = Some c →
  notionCounts !! containerTitle j c = Some remoteCount →
  queued (booksToProcess (firstPass notionCounts localCache 0 bookContainers)) j
  = (0 <? currentHighlightCount c) && (remoteCount <? currentHighlightCount c).
Proof.
  intros Hj Hk.
  destruct (present_not_empty notionCounts localCache _ _ Hk) as [Huse Hfirst].
  rewrite firstPass_books, (queued_planLoop _ _ _ _ _ c Hj).
  unfold shouldProcess, decide_book, testModeActive. simpl.
  rewrite Hfirst, Huse, (get_own _ _ _ Hk). simpl.
  by destruct (0 <? currentHighlightCount c), (remoteCount <? currentHighlightCount c).
Qed.

(** A title that is no key of counts that are not empty, and names an
    inherited member, is taken as present. *)
Lemma queued_inherited (notionCounts : gmap jsstring Z)
    (localCache : option (gmap jsstring Z)) (bookContainers : list Container)
    (j : nat) (c : Container) :
  bookContainers !! j = Some c →
  notionCounts !! containerTitle j c = None →
  JsObject.inherited (containerTitle j c) = true →
  notionCounts ≠ ∅ →
  queued (booksToProcess (firstPass notionCounts localCache 0 bookContainers)) j = false.
Proof.
  intros Hj Hk Hin Hne.
  assert (Huse : useNotionCounts notionCounts = true).
  { unfold useNotionCounts. apply bool_decide_eq_true.
    destruct (decide (size notionCounts = 0%nat)) as [Hz|?]; [|lia].
    by apply map_size_empty_iff in Hz. }
  rewrite firstPass_books, (queued_planLoop _ _ _ _ _ c Hj).
  unfold shouldProcess, decide_book, testModeActive, isFirstSync, savedCounts. simpl.
  rewrite Huse, (get_absent _ _ Hk), Hin. simpl.
  unfold useNotionCounts in Huse. apply bool_decide_eq_true in Huse.
  rewrite bool_decide_eq_false_2 by lia. simpl. by rewrite andb_false_r.
Qed.

Variable World : Type.
Variable fetch : World → NotionRead.ReadRequest → World * option NotionRead.ReadResponse.

(** X24.  The counts read by getAllBooksWithHighlightCount are what
    startSync hands to extractAllBooksAuto.  Outside test mode, a book whose
    title is the title of a listed row, and is not [__proto__], is queued
    only when its live count is positive and greater than the count of a row
    of that title, and is queued whenever its live count is positive and
    greater than the count of every row of that title.  A book whose title
    is [__proto__] is not queued as soon as the counts hold an entry: its
    row left no entry, and the title reads as present all the same. *)
Theorem listed_book_is_queued_for_more_highlights (databaseId : jsstring)
    (pages : list NotionRead.Listing) (bound : nat) (s : NotionRead.St World)
    (localCache : option (gmap jsstring Z)) (bookContainers : list Container)
    (j : nat) (c : Container) (properties : list (jsstring * NotionRead.PropertyObj)) :
  NotionRead.servesRows fetch databaseId (NotionRead.world s) NotionRead.NoCursor pages →
  (length pages ≤ bound)%nat →
  Forall NotionRead.isRow (NotionRead.listed pages) →
  bookContainers !! j = Some c →
  NotionRead.Row properties ∈ NotionRead.listed pages →
  NotionRead.rowTitle properties = containerTitle j c →
  containerTitle j c ≠ [] →
  ∃ s' counts,
    NotionRead.getAllBooksWithHighlightCount fetch bound databaseId s
    = (s', inr (Some counts))
    ∧ (containerTitle j c ≠ JsObject.proto →
       (queued (booksToProcess (firstPass counts localCache 0 bookContainers)) j = true →
        0 < currentHighlightCount c
        ∧ ∃ row, NotionRead.Row row ∈ NotionRead.listed pages
                 ∧ NotionRead.rowTitle row = containerTitle j c
                 ∧ NotionRead.rowCount row < currentHighlightCount c)
       ∧ (0 < currentHighlightCount c →
          (∀ row, NotionRead.Row row ∈ NotionRead.listed pages →
                  NotionRead.rowTitle row = containerTitle j c →
                  NotionRead.rowCount row < currentHighlightCount c) →
          queued (booksToProcess (firstPass counts localCache 0 bookContainers)) j = true))
    ∧ (containerTitle j c = JsObject.proto →
       counts ≠ ∅ →
       queued (booksToProcess (firstPass counts localCache 0 bookContainers)) j = false).
Proof.
  intros Hserved Hbound Hrows Hj Hin Htitle Hne.
  destruct (addRows_rows _ ∅ Hrows) as [counts Hcounts].
  destruct (booksLoop_served World fetch databaseId pages bound NotionRead.NoCursor ∅
              counts s Hserved Hbound Hcounts) as (s' & Hrun & _).
  destruct (addRows_lookup _ _ _ Hcounts) as (_ & Hsound & Hcomplete & _ & Hproto).
  exists s', counts. split; [exact Hrun|]. split.
  - intros Hnp.
    destruct (Hcomplete properties Hin) as [remoteCount Hremote];
      [by rewrite Htitle|by rewrite Htitle|].
    rewrite Htitle in Hremote.
    rewrite (queued_present counts localCache bookContainers j c remoteCount Hj Hremote).
    destruct (Hsound _ _ Hremote) as [Hempty|(row & Hrow & Hrt & Hrc)];
      [by rewrite lookup_empty in Hempty|].
    split.
    + intros [Hpos Hmore]%andb_true_iff.
      apply Z.ltb_lt in Hpos. apply Z.ltb_lt in Hmore.
      split; [exact Hpos|]. exists row. by rewrite Hrc.
    + intros Hpos Hall. apply andb_true_iff. split; apply Z.ltb_lt; [exact Hpos|].
      rewrite <- Hrc. by apply Hall.
  - intros Hp Hfull.
    apply (queued_inherited counts localCache bookContainers j c Hj); [|by rewrite Hp|done].
    rewrite Hp. by apply Hproto.
Qed.

End CountsToPlan.

Section CountsToPlanWitness.
Import Content Scenario Scenario2.

Lemma listed_book_witness :
  ∃ s' counts,
    NotionRead.getAllBooksWithHighlightCount (scripted twoRowPages) 2 (js "db") freshRead
    = (s', inr (Some counts))
    ∧ (js "Dune 2" ≠ JsObject.proto →
       (queued (booksToProcess (firstPass counts None 0 (dune2 (Some 5%N)))) 0 = true →
        0 < 5
        ∧ ∃ row, NotionRead.Row row ∈ NotionRead.listed twoRowPages
                 ∧ NotionRead.rowTitle row = js "Dune 2"
                 ∧ NotionRead.rowCount row < 5)
       ∧ (0 < 5 →
          (∀ row, NotionRead.Row row ∈ NotionRead.listed twoRowPages →
                  NotionRead.rowTitle row = js "Dune 2" →
                  NotionRead.rowCount row < 5) →
          queued (booksToProcess (firstPass counts None 0 (dune2 (Some 5%N)))) 0 = true))
    ∧ (js "Dune 2" = JsObject.proto →
       counts ≠ ∅ →
       queued (booksToProcess (firstPass counts None 0 (dune2 (Some 5%N)))) 0 = false).
Proof.
  apply (listed_book_is_queued_for_more_highlights nat (scripted twoRowPages) (js "db")
           twoRowPages 2 freshRead None (dune2 (Some 5%N)) 0
           {| h2Text := Some (js "Dune 2"); highlightMatch := Some 5%N |}
           [(js "Name", NotionRead.TitleProperty [{| NotionRead.plain_text := js "Dune 2" |}]);
            (js "Highlight Count", NotionRead.NumberProperty (Some 3))]).
  - exact twoRowPages_served.
  - simpl. lia.
  - repeat constructor.
  - reflexivity.
  - left.
  - reflexivity.
  - done.
Defined.

End CountsToPlanWitness.

(** ** The second pass of the extraction *)

Section PassFacts.
Import Content Extraction.

Variable Page : Type.
Variable clicked : Page → BookEntry → Page.
Variable elapsed : Page → Z → Page.
Variable watched : Page → BookEntry → Page * (Snapshot * list Snapshot).
Variable isBookSelected : Page → BookEntry → bool.
Variable extractHighlightsFromPage : Page → Exn + list Notion.Highlight.
Variable extractCurrentBook : Page → option Background.Book.
Variable extractBookInfoFromContainer : Page → BookEntry → Exn + Background.Book.
Variable testBookLimit : nat.

Lemma extractShown_spec (total : nat) (book : BookEntry) (s : PassSt Page) :
  ∃ s' r new evs,
    extractShown Page elapsed extractHighlightsFromPage extractCurrentBook
      extractBookInfoFromContainer testBookLimit total book s = (s', r)
    ∧ allBooks s' = allBooks s ++ new
    ∧ events s' = events s ++ evs
    ∧ totalExtractedHighlights s'
      = (totalExtractedHighlights s + highlightsOf new)%nat
    ∧ processedBooks s' = processedBooks s
    ∧ (length new ≤ 1)%nat
    ∧ (testBookLimit = 0%nat → Forall (λ b, Background.highlights b ≠ []) new)
    ∧ clicks evs = [].
Proof.
  unfold extractShown, delay, readHighlights, readBookData, addExtracted, pushBook,
    sendLog, sendProgress, emit, bind, modify, gets, ret. simpl.
  repeat case_match; simpl in *;
    repeat match goal with
           | H : (_, _) = (_, _) |- _ => injection H as ? ?
           end; subst; try discriminate; eexists _, _, _, _; (split; [reflexivity|]); simpl;
    rewrite <- ?app_assoc;
    (split; [first [reflexivity | symmetry; apply app_nil_r]|]);
    (split; [first [reflexivity | symmetry; apply app_nil_r]|]);
    (split; [unfold highlightsOf; simpl; lia|]); (split; [reflexivity|]);
    (split; [simpl; lia|]); (split; [|reflexivity]);
    intros ->; repeat constructor;
    try (simpl; intros Hnone; simpl in *; subst; discriminate).
Qed.

Lemma awaitTitleUpdate_run (book : BookEntry) (s : PassSt Page) :
  ∃ p b, awaitTitleUpdate Page watched book s = (setPage Page p s, inr b).
Proof.
  unfold awaitTitleUpdate. destruct (truthy (title book)).
  - destruct (watched (page s) book) as [p [now later]]. by eexists _, _.
  - exists (page s), true. by destruct s.
Qed.

Lemma processBook_spec (total : nat) (book : BookEntry) (s : PassSt Page) :
  ∃ s' r new evs,
    processBook Page clicked elapsed watched isBookSelected extractHighlightsFromPage
      extractCurrentBook extractBookInfoFromContainer testBookLimit total book s
    = (s', r)
    ∧ allBooks s' = allBooks s ++ new
    ∧ events s' = events s ++ evs
    ∧ totalExtractedHighlights s'
      = (totalExtractedHighlights s + highlightsOf new)%nat
    ∧ processedBooks s' = S (processedBooks s)
    ∧ (length new ≤ 1)%nat
    ∧ (testBookLimit = 0%nat → Forall (λ b, Background.highlights b ≠ []) new)
    ∧ (clicks evs = [index book] ∨ clicks evs = [index book; index book]).
Proof.
  unfold processBook.
  remember (extractShown Page elapsed extractHighlightsFromPage extractCurrentBook
              extractBookInfoFromContainer testBookLimit total book) as shown eqn:Hshown.
  remember (awaitTitleUpdate Page watched book) as await eqn:Hawait.
  unfold clickBookContainer, sendLog, sendProgress, emit, incrProcessed, bind, modify,
    gets, ret. simpl.
  assert (Hfinish : ∀ st pre,
    allBooks st = allBooks s → events st = events s ++ pre →
    totalExtractedHighlights st = totalExtractedHighlights s →
    processedBooks st = S (processedBooks s) →
    (clicks pre = [index book] ∨ clicks pre = [index book; index book]) →
    ∃ s' r new evs,
      shown st = (s', r)
      ∧ allBooks s' = allBooks s ++ new
      ∧ events s' = events s ++ evs
      ∧ totalExtractedHighlights s'
        = (totalExtractedHighlights s + highlightsOf new)%nat
      ∧ processedBooks s' = S (processedBooks s)
      ∧ (length new ≤ 1)%nat
      ∧ (testBookLimit = 0%nat → Forall (λ b, Background.highlights b ≠ []) new)
      ∧ (clicks evs = [index book] ∨ clicks evs = [index book; index book])).
  { intros st pre Hb He Ht Hp Hc.
    destruct (extractShown_spec total book st)
      as (s' & r & new & evs & Hrun & Hb' & He' & Ht' & Hp' & Hl & Hf & Hc').
    rewrite <- Hshown in Hrun. exists s', r, new, (pre ++ evs).
    rewrite Hrun, Hb', He', Ht', Hp', Hb, He, Ht, Hp, app_assoc.
    repeat (split; [done|]).
    unfold clicks in *. by rewrite omap_app, Hc', app_nil_r. }
  match goal with
  | |- context [await ?st] =>
      destruct (awaitTitleUpdate_run book st) as (p1 & [|] & Hw1)
  end; rewrite <- Hawait in Hw1; rewrite Hw1; simpl.
  - eapply Hfinish; simpl; try done; [by rewrite <- !app_assoc | by left].
  - match goal with
    | |- context [await ?st] =>
        destruct (awaitTitleUpdate_run book st) as (p2 & [|] & Hw2)
    end; rewrite <- Hawait in Hw2; rewrite Hw2; simpl.
    + eapply Hfinish; simpl; try done; [by rewrite <- !app_assoc | by right].
    + destruct (isBookSelected p2 book).
      * eapply Hfinish; simpl; try done; [by rewrite <- !app_assoc | by right].
      * eexists _, _, [], _. split; [reflexivity|]. simpl.
        rewrite <- !app_assoc, app_nil_r.
        repeat (split; [done|]). split; [lia|]. split; [by constructor|]. by right.
Qed.

Lemma visitBook_spec (total : nat) (book : BookEntry) (s : PassSt Page) :
  ∃ s' new evs,
    visitBook Page clicked elapsed watched isBookSelected extractHighlightsFromPage
      extractCurrentBook extractBookInfoFromContainer testBookLimit total book s
    = (s', inr tt)
    ∧ allBooks s' = allBooks s ++ new
    ∧ events s' = events s ++ evs
    ∧ totalExtractedHighlights s'
      = (totalExtractedHighlights s + highlightsOf new)%nat
    ∧ processedBooks s' = S (processedBooks s)
    ∧ (length new ≤ 1)%nat
    ∧ (testBookLimit = 0%nat → Forall (λ b, Background.highlights b ≠ []) new)
    ∧ (clicks evs = [index book] ∨ clicks evs = [index book; index book]).
Proof.
  destruct (processBook_spec total book s)
    as (s' & r & new & evs & Hrun & Hb & He & Ht & Hp & Hl & Hf & Hc).
  unfold visitBook, try_catch. rewrite Hrun. destruct r as [e|[]].
  - eexists _, new, (evs ++ [_]). split; [reflexivity|]. simpl.
    rewrite He, app_assoc. repeat (split; [done|]).
    unfold clicks in *. by rewrite omap_app, app_nil_r.
  - by exists s', new, evs.
Qed.

Lemma highlightsOf_app (l1 l2 : list Background.Book) :
  highlightsOf (l1 ++ l2) = (highlightsOf l1 + highlightsOf l2)%nat.
Proof.
  unfold highlightsOf. induction l1 as [|b l1 IH]; [done|].
  rewrite <- app_comm_cons, !fmap_cons. cbn [sum_list sum_list_with].
  rewrite IH. lia.
Qed.

Lemma visitBooks_spec (total : nat) (books : list BookEntry) (s : PassSt Page) :
  ∃ s' new evs times,
    visitBooks Page clicked elapsed watched isBookSelected extractHighlightsFromPage
      extractCurrentBook extractBookInfoFromContainer testBookLimit total books s
    = (s', inr tt)
    ∧ allBooks s' = allBooks s ++ new
    ∧ events s' = events s ++ evs
    ∧ totalExtractedHighlights s'
      = (totalExtractedHighlights s + highlightsOf new)%nat
    ∧ processedBooks s' = (processedBooks s + length books)%nat
    ∧ (length new ≤ length books)%nat
    ∧ (testBookLimit = 0%nat → Forall (λ b, Background.highlights b ≠ []) new)
    ∧ length times = length books
    ∧ Forall (λ n, (1 ≤ n ≤ 2)%nat) times
    ∧ clicks evs = visits books times.
Proof.
  revert s. induction books as [|book rest IH]; intros s.
  - exists s, [], [], []. rewrite !app_nil_r. repeat (split; [done|]). done.
  - destruct (visitBook_spec total book s)
      as (s1 & new1 & evs1 & Hrun1 & Hb1 & He1 & Ht1 & Hp1 & Hl1 & Hf1 & Hc1).
    destruct (IH s1)
      as (s2 & new2 & evs2 & times & Hrun2 & Hb2 & He2 & Ht2 & Hp2 & Hl2 & Hf2 & Hn & Ht & Hc2).
    exists s2, (new1 ++ new2), (evs1 ++ evs2),
      ((if decide (clicks evs1 = [index book]) then 1 else 2)%nat :: times).
    cbn [visitBooks]. unfold bind at 1. rewrite Hrun1, Hrun2.
    rewrite Hb2, Hb1, He2, He1, Ht2, Ht1, Hp2, Hp1, highlightsOf_app, !app_assoc.
    split; [done|]. split; [done|]. split; [done|]. split; [lia|].
    split; [simpl; lia|].
    split; [rewrite length_app; simpl; lia|].
    split; [intros Hz; apply Forall_app; auto|].
    split; [simpl; lia|].
    split; [constructor; [case_decide; lia|done]|].
    unfold clicks, visits in *. rewrite omap_app, Hc2. simpl. f_equal.
    case_decide as Hone; [done|]. by destruct Hc1.
Qed.

Lemma visits_queued (books : list BookEntry) (times : list nat) (i : nat) :
  i ∈ visits books times → queued books i = true.
Proof.
  unfold visits. revert times.
  induction books as [|book rest IH]; intros [|n times] Hin; simpl in Hin;
    try by apply elem_of_nil in Hin.
  apply elem_of_app in Hin as [Hin|Hin]; simpl.
  - apply elem_of_replicate in Hin as [-> _]. by rewrite Nat.eqb_refl.
  - rewrite (IH times Hin). by destruct (index book =? i)%nat.
Qed.

End PassFacts.

Section PassResults.
Import Content Extraction.

Variable Page : Type.
Variable clicked : Page → BookEntry → Page.
Variable elapsed : Page → Z → Page.
Variable watched : Page → BookEntry → Page * (Snapshot * list Snapshot).
Variable isBookSelected : Page → BookEntry → bool.
Variable extractHighlightsFromPage : Page → Exn + list Notion.Highlight.
Variable extractCurrentBook : Page → option Background.Book.
Variable extractBookInfoFromContainer : Page → BookEntry → Exn + Background.Book.

(** X25.  Outside test mode and with at least one container in the
    library, extractAllBooksAuto does not throw, whatever the page shows
    and whatever the reading of the page throws; every book it returns has
    at least one highlight, it returns at most one book for each queued
    book, and its running total of extracted highlights ends as the number
    of highlights of the books returned. *)
Theorem extraction_keeps_books_with_highlights (notionCounts : gmap jsstring Z)
    (localCache : option (gmap jsstring Z)) (c : Container) (cs : list Container)
    (p : Page) :
  ∃ s' books,
    extractAllBooksAuto Page clicked elapsed watched isBookSelected
      extractHighlightsFromPage extractCurrentBook extractBookInfoFromContainer 0
      notionCounts localCache (c :: cs) (start p)
    = (s', inr books)
    ∧ Forall (λ b, Background.highlights b ≠ []) books
    ∧ (length books
       ≤ length (booksToProcess (firstPass notionCounts localCache 0 (c :: cs))))%nat
    ∧ totalExtractedHighlights s' = highlightsOf books.
Proof.
  unfold extractAllBooksAuto, secondPass, sendLog.
  set (plan := firstPass notionCounts localCache 0 (c :: cs)).
  unfold bind at 1. unfold bind at 1. unfold emit at 1, modify at 1. cbv beta iota.
  match goal with
  | |- context [visitBooks _ _ _ _ _ _ _ _ _ ?total ?books ?s] =>
      destruct (visitBooks_spec Page clicked elapsed watched isBookSelected
                  extractHighlightsFromPage extractCurrentBook
                  extractBookInfoFromContainer 0 total books s)
        as (s' & new & evs & times & Hrun & Hb & He & Ht & Hp & Hl & Hf & _)
  end.
  rewrite Hrun. exists s', (allBooks s'). split; [reflexivity|].
  rewrite Hb, Ht. simpl. split; [by apply Hf|]. split; [exact Hl|done].
Qed.

(** X26.  With at least one container in the library, in test mode or
    not, every queued book is visited: the clicks of extractAllBooksAuto
    are, in queue order, one or two clicks on each queued book and no click
    on anything else, also when the visit of a book throws. *)
Theorem extraction_clicks_the_queue (testBookLimit : nat)
    (notionCounts : gmap jsstring Z) (localCache : option (gmap jsstring Z))
    (c : Container) (cs : list Container) (p : Page) :
  ∃ s' books times,
    extractAllBooksAuto Page clicked elapsed watched isBookSelected
      extractHighlightsFromPage extractCurrentBook extractBookInfoFromContainer
      testBookLimit notionCounts localCache (c :: cs) (start p)
    = (s', inr books)
    ∧ processedBooks s'
      = length (booksToProcess (firstPass notionCounts localCache testBookLimit (c :: cs)))
    ∧ length times
      = length (booksToProcess (firstPass notionCounts localCache testBookLimit (c :: cs)))
    ∧ Forall (λ n, (1 ≤ n ≤ 2)%nat) times
    ∧ clicks (events s')
      = visits (booksToProcess (firstPass notionCounts localCache testBookLimit (c :: cs)))
               times.
Proof.
  unfold extractAllBooksAuto, secondPass, sendLog.
  set (plan := firstPass notionCounts localCache testBookLimit (c :: cs)).
  unfold bind at 1. unfold bind at 1. unfold emit at 1, modify at 1. cbv beta iota.
  match goal with
  | |- context [visitBooks _ _ _ _ _ _ _ _ _ ?total ?books ?s] =>
      destruct (visitBooks_spec Page clicked elapsed watched isBookSelected
                  extractHighlightsFromPage extractCurrentBook
                  extractBookInfoFromContainer testBookLimit total books s)
        as (s' & new & evs & times & Hrun & _ & He & _ & Hp & _ & _ & Hn & Ht & Hc)
  end.
  rewrite Hrun. exists s', (allBooks s'), times. split; [reflexivity|].
  rewrite He, Hp. simpl. repeat (split; [done|]). exact Hc.
Qed.

(** X27.  Outside test mode, a book whose title is a key of the counts
    read from Notion and whose live count is not greater than that count is
    never clicked by extractAllBooksAuto. *)
Theorem synced_book_is_not_opened (notionCounts : gmap jsstring Z)
    (localCache : option (gmap jsstring Z)) (bookContainers : list Container)
    (j : nat) (c : Container) (remoteCount : Z) (p : Page) :
  bookContainers !! j = Some c →
  notionCounts !! containerTitle j c = Some remoteCount →
  currentHighlightCount c ≤ remoteCount →
  ∃ s' books,
    extractAllBooksAuto Page clicked elapsed watched isBookSelected
      extractHighlightsFromPage extractCurrentBook extractBookInfoFromContainer 0
      notionCounts localCache bookContainers (start p)
    = (s', inr books)
    ∧ j ∉ clicks (events s').
Proof.
  intros Hj Hremote Hle.
  pose proof (queued_present notionCounts localCache bookContainers j c remoteCount
                Hj Hremote) as Hqueued.
  destruct bookContainers as [|c0 cs]; [done|].
  unfold extractAllBooksAuto, secondPass, sendLog.
  set (plan := firstPass notionCounts localCache 0 (c0 :: cs)) in *.
  unfold bind at 1. unfold bind at 1. unfold emit at 1, modify at 1. cbv beta iota.
  match goal with
  | |- context [visitBooks _ _ _ _ _ _ _ _ _ ?total ?books ?s] =>
      destruct (visitBooks_spec Page clicked elapsed watched isBookSelected
                  extractHighlightsFromPage extractCurrentBook
                  extractBookInfoFromContainer 0 total books s)
        as (s' & new & evs & times & Hrun & _ & He & _ & _ & _ & _ & _ & _ & Hc)
  end.
  rewrite Hrun. exists s', (allBooks s'). split; [reflexivity|].
  rewrite He. simpl. intros Hin.
  assert (Hin' : j ∈ clicks evs) by exact Hin.
  rewrite Hc in Hin'. apply visits_queued in Hin'.
  rewrite Hin' in Hqueued. symmetry in Hqueued.
  apply andb_true_iff in Hqueued as [_ Hmore]. apply Z.ltb_lt in Hmore. lia.
Qed.

End PassResults.

Section PassWitness.
Import Content Extraction Scenario Scenario2.

Lemma synced_book_witness :
  ∃ s' books,
    extractAllBooksAuto unit (λ p _, p) (λ p _, p) blankWatched (λ _ _, false)
      (λ _, inr []) (λ _, None) blankInfo 0
      (remoteDune2 5) None twoBooks (start tt)
    = (s', inr books)
    ∧ 0%nat ∉ clicks (events s').
Proof.
  apply (synced_book_is_not_opened unit (λ p _, p) (λ p _, p) blankWatched (λ _ _, false)
           (λ _, inr []) (λ _, None) blankInfo (remoteDune2 5) None twoBooks 0
           {| h2Text := Some (js "Dune 2"); highlightMatch := Some 5%N |} 5 tt).
  - reflexivity.
  - vm_compute. reflexivity.
  - unfold currentHighlightCount. simpl. lia.
Defined.

End PassWitness.

(** ** The log of the sync window *)

Section LogFacts.
Import SyncWindow.

Lemma trimLogs_take (logList : list LogItem) :
  trimLogs logList = take 50 logList.
Proof.
  funelim (trimLogs logList).
  - rewrite H. clear H Heq.
    destruct logList as [|li rest _] using rev_ind; [simpl in *; lia|].
    rewrite removelast_last. rewrite length_app in l. simpl in l.
    rewrite take_app_le by lia. done.
  - symmetry. apply take_ge. lia.
Qed.

(** X28.  The log of the sync window holds the newest 50 entries, newest
    first: every call of addLog leaves the first 50 items of the new item
    followed by the old ones, and after any calls on the emptied list the
    list is the last 50 entries, in reverse order of the calls. *)
Theorem log_keeps_newest_fifty (cs : list LogCall) (c : LogCall)
    (logList : list LogItem) :
  addLog (callType c) (callMessage c) (callTime c) logList
  = take 50 (itemOf c :: logList)
  ∧ addLogs cs [] = take 50 (reverse (itemOf <$> cs))
  ∧ (length (addLogs cs []) ≤ 50)%nat.
Proof.
  split; [apply trimLogs_take|].
  assert (Hall : ∀ l, (length l ≤ 50)%nat →
            addLogs cs l = take 50 (reverse (itemOf <$> cs) ++ l)).
  { intros l Hl. induction cs as [|c' cs' IH] using rev_ind.
    - symmetry. apply take_ge. exact Hl.
    - unfold addLogs in *. rewrite foldl_snoc, IH. unfold addLog.
      rewrite trimLogs_take. fold (itemOf c').
      rewrite fmap_app, reverse_app. simpl.
      f_equal. rewrite take_take. f_equal. }
  rewrite (Hall [] ltac:(simpl; lia)), app_nil_r.
  split; [done|]. rewrite length_take. lia.
Qed.

End LogFacts.

(** ** The properties of a new page *)

Section CreateFacts.
Import Notion NotionCreate.

Lemma config_hasProperty (name : jsstring) (dbProperties : list (jsstring * PropConfig))
    (c : PropConfig) :
  config name dbProperties = Some c → hasProperty name dbProperties = true.
Proof.
  induction dbProperties as [|[key value] rest IH]; simpl; [done|].
  case_bool_decide; [done|]. exact IH.
Qed.

Lemma hasProperty_config (name : jsstring) (dbProperties : list (jsstring * PropConfig)) :
  hasProperty name dbProperties = false → config name dbProperties = None.
Proof.
  induction dbProperties as [|[key value] rest IH]; simpl; [done|].
  case_bool_decide; [done|]. exact IH.
Qed.

Lemma findProperty_Some (dbProperties : list (jsstring * PropConfig))
    (names : list jsstring) (name : jsstring) (c : PropConfig) :
  findProperty dbProperties names = Some (name, c) →
  name ∈ names ∧ hasProperty name dbProperties = true.
Proof.
  induction names as [|n rest IH]; simpl; [done|].
  destruct (config n dbProperties) as [c'|] eqn:Hc.
  - intros [= -> ->]. split; [left|]. by apply config_hasProperty in Hc.
  - intros Hfound. destruct (IH Hfound) as [Hin Hhas]. split; [by right|done].
Qed.

Lemma written_insert (dbProperties : list (jsstring * PropConfig)) (t : jsstring)
    (name : jsstring) (v : CreateValue) (m : gmap jsstring CreateValue) :
  titlePropertyName dbProperties ∉ candidateNames →
  name ∈ candidateNames →
  hasProperty name dbProperties = true →
  (m !! titlePropertyName dbProperties = Some (VTitle t)
   ∧ ∀ k w, m !! k = Some w →
            k = titlePropertyName dbProperties
            ∨ (k ∈ candidateNames ∧ hasProperty k dbProperties = true)) →
  <[name := v]> m !! titlePropertyName dbProperties = Some (VTitle t)
  ∧ ∀ k w, <[name := v]> m !! k = Some w →
           k = titlePropertyName dbProperties
           ∨ (k ∈ candidateNames ∧ hasProperty k dbProperties = true).
Proof.
  intros Hfresh Hin Hhas [Htitle Hkeys]. split.
  - rewrite lookup_insert_ne; [done|]. by intros ->.
  - intros k w. destruct (decide (name = k)) as [<-|Hne].
    + intros _. by right.
    + rewrite lookup_insert_ne by done. apply Hkeys.
Qed.

(** X29.  When the title property of the database has none of the names
    createBookPage looks for, the page it posts carries the title of the
    book under the title property, and every other property it carries is
    one of the names looked for that the database has. *)
Theorem created_page_carries_title (dbProperties : list (jsstring * PropConfig))
    (bookData : Background.Book) (now : jsstring) :
  titlePropertyName dbProperties ∉ candidateNames →
  createProperties dbProperties bookData now !! titlePropertyName dbProperties
  = Some (VTitle (Background.title bookData))
  ∧ ∀ k v, createProperties dbProperties bookData now !! k = Some v →
           k = titlePropertyName dbProperties
           ∨ (k ∈ candidateNames ∧ hasProperty k dbProperties = true).
Proof.
  intros Hfresh. unfold createProperties.
  repeat match goal with
         | |- context [findProperty dbProperties ?names] =>
             destruct (findProperty dbProperties names) as [[? ?]|] eqn:?
         end;
    repeat match goal with
           | H : findProperty _ _ = Some _ |- _ =>
               apply findProperty_Some in H as [? ?]
           end;
    repeat case_match;
    repeat (apply written_insert;
            [exact Hfresh
            |unfold candidateNames; rewrite !elem_of_app; tauto
            |assumption|]);
    (split; [apply lookup_singleton_eq|]);
    intros k w [-> _]%lookup_singleton_Some; by left.
Qed.

Lemma hasProperty_found (name : jsstring) (dbProperties : list (jsstring * PropConfig)) :
  hasProperty name dbProperties = true → ∃ c, config name dbProperties = Some c.
Proof.
  induction dbProperties as [|[key value] rest IH]; simpl; [done|].
  case_bool_decide; [by eexists|]. exact IH.
Qed.

Lemma later_names_differ (name : jsstring) :
  name ∈ lastSyncedNames ++ amazonNames ++ coverNames →
  name ≠ NotionRead.highlightCountJa.
Proof.
  intros Hin ->. revert Hin.
  apply (bool_decide_unpack
           (NotionRead.highlightCountJa ∉ lastSyncedNames ++ amazonNames ++ coverNames)).
  vm_compute. exact I.
Qed.

(** X30.  In a database whose count property has the Japanese name and
    not the English one, createBookPage writes the number of highlights of
    the book under the Japanese name, and updateBookPage never writes a
    number, whatever count it is given. *)
Theorem japanese_count_is_created_not_updated
    (dbProperties : list (jsstring * PropConfig)) (bookData : Background.Book)
    (now : jsstring) (update : BookUpdate) (later : jsstring) :
  hasProperty (js "Highlight Count") dbProperties = false →
  hasProperty NotionRead.highlightCountJa dbProperties = true →
  createProperties dbProperties bookData now !! NotionRead.highlightCountJa
  = Some (VNumber (length (Background.highlights bookData)))
  ∧ Forall (λ p, isNumber p.2 = false) (updateProperties dbProperties update later).
Proof.
  intros Hen Hja. split.
  - destruct (hasProperty_found _ _ Hja) as [c Hc].
    assert (Hcount : findProperty dbProperties countNames
                     = Some (NotionRead.highlightCountJa, c)).
    { unfold countNames. cbn [findProperty].
      rewrite (hasProperty_config _ _ Hen).
      change [0x30cf; 0x30a4; 0x30e9; 0x30a4; 0x30c8; 0x6570]%N
        with NotionRead.highlightCountJa.
      by rewrite Hc. }
    unfold createProperties. rewrite Hcount.
    repeat match goal with
           | |- context [findProperty dbProperties ?names] =>
               destruct (findProperty dbProperties names) as [[? ?]|] eqn:?
           end;
      repeat match goal with
             | H : findProperty _ _ = Some _ |- _ =>
                 apply findProperty_Some in H as [? ?]
             end;
      repeat case_match;
      repeat (rewrite lookup_insert_ne;
              [|apply later_names_differ; rewrite !elem_of_app; tauto]);
      apply lookup_insert_eq.
  - unfold updateProperties. rewrite Hen.
    destruct (highlightCount update); destruct (hasProperty (js "Last Synced") dbProperties);
      by repeat constructor.
Qed.

End CreateFacts.

Section CreateWitnesses.
Import Notion NotionCreate Scenario Scenario2.

Lemma created_page_witness :
  createProperties fullSchema (book "Emma") (js "2024-01-01T00:00:00.000Z")
    !! titlePropertyName fullSchema
  = Some (VTitle (Background.title (book "Emma")))
  ∧ ∀ k v, createProperties fullSchema (book "Emma") (js "2024-01-01T00:00:00.000Z") !! k = Some v →
           k = titlePropertyName fullSchema
           ∨ (k ∈ candidateNames ∧ hasProperty k fullSchema = true).
Proof.
  apply (created_page_carries_title fullSchema (book "Emma") (js "2024-01-01T00:00:00.000Z")).
  apply (bool_decide_unpack (titlePropertyName fullSchema ∉ candidateNames)).
  vm_compute. exact I.
Defined.

Lemma japanese_count_witness :
  createProperties japaneseSchema (book "Emma") (js "2024-01-01T00:00:00.000Z")
    !! NotionRead.highlightCountJa
  = Some (VNumber (length (Background.highlights (book "Emma"))))
  ∧ Forall (λ p, isNumber p.2 = false)
      (updateProperties japaneseSchema {| highlightCount := Some 4 |}
         (js "2024-02-01T00:00:00.000Z")).
Proof.
  apply (japanese_count_is_created_not_updated japaneseSchema (book "Emma")
           (js "2024-01-01T00:00:00.000Z") {| highlightCount := Some 4 |}
           (js "2024-02-01T00:00:00.000Z")).
  - vm_compute. reflexivity.
  - vm_compute. reflexivity.
Defined.

End CreateWitnesses.
